(** * ERA5-Land processing: the Fetcher and the Aggregator

    A shallow embedding of [API&aggregate_ERA5_land.py].  The two procedures
    of the script, [api_era5_land] and [aggregate_era5_land_timeseries], are
    written as Rocq functions in a small trace-and-exception monad; the
    Python builtins and library calls they make ([datetime], [monthrange],
    [str], format specs, [range], [sorted], [glob.glob], the xarray
    operations) are each given a definition of the same name.

    What lies outside the script is an input of the embedding:
    - the remote archive is a [CdsApi], which says whether the client can be
      built and which retrievals fail;
    - the input directory is a [Directory], the listing of the directory
      that [era5_land_data_path_inputs] names when the path is read as it
      is written, each entry a GRIB file as cfgrib reads it or something
      cfgrib cannot open.  [glob] reads the whole path as a pattern, the
      directory part included; the file system of the embedding holds that
      one directory and the directories on the way to it, so a directory
      part with a glob character finds the directory when it matches the
      directory's own name, and nothing otherwise;
    - the output side is a [NetcdfWriter], which says which calls of
      [to_netcdf] fail;
    - what a procedure does to the outside world is its trace: the
      retrievals and the printed lines of the Fetcher; the printed lines,
      the paths handed to [open_mfdataset] and the calls of [to_netcdf] of
      the Aggregator.
    Values are never computed with: a float is NaN or a number. *)

From Stdlib Require Import ZArith List String Ascii Bool Lia.
From Stdlib Require Import Sorted Permutation Finite.
From Stdlib Require Import DecimalString DecimalZ.
From Equations Require Import Equations.
Import ListNotations.

Open Scope string_scope.
Open Scope list_scope.
Open Scope Z_scope.

(** ** Exceptions, results and the effect monad *)

(** The exceptions the script can meet.  None is caught anywhere in the
    source, so an exception ends the run of the procedure that meets it. *)
Inductive exception : Type :=
| ValueError          (* datetime(...) out of range *)
| IllegalMonthError   (* calendar.monthrange on a month outside 1..12 *)
| ClientError         (* cdsapi: construction of the client or a retrieval failed *)
| DatasetError        (* xarray / cfgrib could not open or merge a file *)
| OSError.            (* to_netcdf: the output file could not be written *)

Inductive result (A : Type) : Type :=
| Return (a : A)
| Raise (e : exception).
Arguments Return {A} a.
Arguments Raise {A} e.

(** A computation emits events of type [E] in order and ends in a value or
    an exception; the events emitted before an exception stay in the trace. *)
Definition Eff (E A : Type) : Type := (list E * result A)%type.

Definition ret {E A} (a : A) : Eff E A := ([], Return a).
Definition raise {E A} (e : exception) : Eff E A := ([], Raise e).
Definition emit {E} (ev : E) : Eff E unit := ([ev], Return tt).
Definition lift {E A} (r : result A) : Eff E A := ([], r).

Definition bind {E A B} (m : Eff E A) (k : A -> Eff E B) : Eff E B :=
  match m with
  | (tr, Return a) => let (tr', r) := k a in (tr ++ tr', r)
  | (tr, Raise e) => (tr, Raise e)
  end.

Notation "x <- m ;; k" := (bind m (fun x => k))
  (at level 61, m at next level, right associativity).
Notation "m ;;; k" := (bind m (fun _ => k))
  (at level 61, right associativity).

Definition trace {E A} (m : Eff E A) : list E := fst m.
Definition outcome {E A} (m : Eff E A) : result A := snd m.

(** A Python [for x in xs: body] whose body may raise. *)
Fixpoint for_each {E A} (xs : list A) (body : A -> Eff E unit) : Eff E unit :=
  match xs with
  | [] => ret tt
  | x :: xs' => body x ;;; for_each xs' body
  end.

(** A [for] loop that threads an accumulator (the running dataset). *)
Fixpoint for_fold {E A S} (xs : list A) (body : S -> A -> Eff E S) (s : S)
  : Eff E S :=
  match xs with
  | [] => ret s
  | x :: xs' => s' <- body s x ;; for_fold xs' body s'
  end.

(** ** Python builtins *)

(** [str(n)] and [f"{n}"] for an int: decimal digits, a minus sign first
    for a negative number, no padding. *)
Definition str (n : Z) : string := NilEmpty.string_of_int (Z.to_int n).

(** [f"{n:02d}"]: zero padding to a width of two; a number that already
    fills two characters (ten and above, or negative) is printed as it is. *)
Definition format_02d (n : Z) : string :=
  if (0 <=? n) && (n <? 10) then ("0" ++ str n)%string else str n.

(** [range(lo, hi)] *)
Definition range (lo hi : Z) : list Z :=
  map (fun i => lo + Z.of_nat i) (seq 0 (Z.to_nat (hi - lo))).

(** A stable sort by insertion: an element goes in front of the first
    element that is not below it, so elements that compare equal keep the
    order they came in. *)
Section StableSort.

Context {A : Type} (leb : A -> A -> bool).

Fixpoint insert_stable (x : A) (l : list A) : list A :=
  match l with
  | [] => [x]
  | y :: l' => if leb x y then x :: l else y :: insert_stable x l'
  end.

Fixpoint sort_stable (l : list A) : list A :=
  match l with
  | [] => []
  | x :: l' => insert_stable x (sort_stable l')
  end.

End StableSort.

(** [sorted(xs)] on strings: ascending in the code-point order, stable. *)
Definition sorted (l : list string) : list string := sort_stable String.leb l.

(** ** [calendar] and [datetime] *)

Definition isleap (year : Z) : bool :=
  (year mod 4 =? 0) && (negb (year mod 100 =? 0) || (year mod 400 =? 0)).

(** [calendar.mdays], indexed by month with a dummy entry at 0. *)
Definition mdays : list Z := [0; 31; 28; 31; 30; 31; 30; 31; 31; 30; 31; 30; 31].

Definition February : Z := 2.

(** [calendar.monthrange(year, month)[1]]: the number of days of the month.
    The weekday component of the pair is not used by the script. *)
Definition monthrange_ndays (year month : Z) : result Z :=
  if (1 <=? month) && (month <=? 12) then
    Return (nth (Z.to_nat month) mdays 0
            + (if (month =? February) && isleap year then 1 else 0))
  else Raise IllegalMonthError.

Definition MINYEAR : Z := 1.
Definition MAXYEAR : Z := 9999.

(** A [datetime.datetime] with the time of day at its default, midnight. *)
Record date : Type := mkdate { year : Z; month : Z; day : Z }.

(** [datetime._days_in_month] *)
Definition days_in_month (y m : Z) : Z :=
  if (m =? February) && isleap y then 29 else nth (Z.to_nat m) mdays 0.

(** The constructor [datetime(year, month, day)] with its range checks. *)
Definition datetime (y m d : Z) : result date :=
  if negb ((MINYEAR <=? y) && (y <=? MAXYEAR)) then Raise ValueError
  else if negb ((1 <=? m) && (m <=? 12)) then Raise ValueError
  else if negb ((1 <=? d) && (d <=? days_in_month y m)) then Raise ValueError
  else Return (mkdate y m d).

(** [a <= b] on datetimes: lexicographic on (year, month, day). *)
Definition date_leb (a b : date) : bool :=
  (year a <? year b)
  || ((year a =? year b)
      && ((month a <? month b)
          || ((month a =? month b) && (day a <=? day b)))).

(** ** The Fetcher *)

Module Fetcher.

(** The request dictionary handed to the client. *)
Record Request : Type := mkRequest {
  variable : list string;
  req_year : string;
  req_month : string;
  req_day : list string;
  req_time : list string;
  data_format : string;
  download_format : string;
  req_area : list Z
}.

Inductive Event : Type :=
| Retrieve (dataset : string) (request : Request) (target : string)
| Print (line : string).

(** The remote side: whether [cdsapi.Client()] can be built, and what a call
    of [client.retrieve] does ([None]: the file is written and the call
    returns). *)
Record CdsApi : Type := mkCdsApi {
  Client : option exception;
  retrieve : string -> Request -> string -> option exception
}.

Definition or_raise {E} (o : option exception) : Eff E unit :=
  match o with
  | None => ret tt
  | Some e => raise e
  end.

(** The body of the [while] loop computes the next cursor. *)
Definition next_month (current : date) : result date :=
  if month current =? 12 then datetime (year current + 1) 1 1
  else datetime (year current) (month current + 1) 1.

Definition months_left (current end_date : date) : nat :=
  Z.to_nat (12 * (year end_date - year current) + (12 - month current) + 1).

Definition inspect {A} (a : A) : {b : A | a = b} := exist _ a eq_refl.

(** Lines 33-40: the [while current <= end_date] loop, returning the
    [date_list] it has appended to when it ends. *)
Equations? date_list_from (current end_date : date) : result (list (Z * Z))
  by wf (months_left current end_date) lt :=
  date_list_from current end_date with inspect (date_leb current end_date) := {
    | exist _ false _ => Return []
    | exist _ true Hle with inspect (next_month current) := {
        | exist _ (Raise e) _ => Raise e
        | exist _ (Return next) Hnext =>
            match date_list_from next end_date with
            | Return rest => Return ((year current, month current) :: rest)
            | Raise e => Raise e
            end } }.
Proof.
  unfold months_left.
  destruct current as [cy cm cd], end_date as [ey em ed].
  unfold next_month, datetime, date_leb, MINYEAR, MAXYEAR in *.
  cbn [year month day] in *.
  assert (Hy : cy <= ey).
  { destruct (cy <? ey) eqn:Hlt; [apply Z.ltb_lt in Hlt; lia|].
    destruct (cy =? ey) eqn:Heq; [apply Z.eqb_eq in Heq; lia|discriminate]. }
  destruct (cm =? 12) eqn:Hm.
  - apply Z.eqb_eq in Hm; subst cm.
    destruct (negb ((1 <=? cy + 1) && (cy + 1 <=? 9999))); [discriminate|].
    cbn [negb] in Hnext. inversion Hnext; subst; cbn [year month day]. lia.
  - apply Z.eqb_neq in Hm.
    destruct (negb ((1 <=? cy) && (cy <=? 9999))); [discriminate|].
    destruct ((1 <=? cm + 1) && (cm + 1 <=? 12)) eqn:Hr; cbn [negb] in Hnext;
      [|discriminate].
    apply andb_true_iff in Hr; destruct Hr as [_ Hr]; apply Z.leb_le in Hr.
    destruct (negb ((1 <=? 1) && (1 <=? days_in_month cy (cm + 1))));
      [discriminate|].
    inversion Hnext; subst; cbn [year month day]. lia.
Qed.

Definition hours : list string :=
  map (fun h => (format_02d h ++ ":00")%string) (range 0 24).

Definition target_of (target_path : string) (y m : Z) : string :=
  (target_path ++ "/" ++ str y ++ "_months" ++ format_02d m
   ++ "_europe.grib")%string.

Definition request_of (variables : list string) (area : list Z)
    (y m days_in_month : Z) : Request :=
  {| variable := variables;
     req_year := str y;
     req_month := format_02d m;
     req_day := map format_02d (range 1 (days_in_month + 1));
     req_time := hours;
     data_format := "grib";
     download_format := "unarchived";
     req_area := area |}.

(** Lines 45-64: one iteration of the [for year, month in date_list] loop. *)
Definition fetch_month (cds : CdsApi) (target_path : string)
    (variables : list string) (area : list Z) (ym : Z * Z)
  : Eff Event unit :=
  let (y, m) := ym in
  days_in_month <- lift (monthrange_ndays y m) ;;
  let request := request_of variables area y m days_in_month in
  let target := target_of target_path y m in
  emit (Retrieve "reanalysis-era5-land" request target) ;;;
  or_raise (retrieve cds "reanalysis-era5-land" request target) ;;;
  emit (Print ("Data downloaded to " ++ target)%string).

Definition api_era5_land (cds : CdsApi) (target_path : string)
    (start_year start_month end_year end_month : Z)
    (variables : list string) (area : list Z) : Eff Event unit :=
  start_date <- lift (datetime start_year start_month 1) ;;
  end_date <- lift (datetime end_year end_month 1) ;;
  date_list <- lift (date_list_from start_date end_date) ;;
  or_raise (Client cds) ;;;
  for_each date_list (fetch_month cds target_path variables area).

(** The retrieval requests of a trace, in the order they were issued. *)
Definition requests (tr : list Event) : list (Request * string) :=
  flat_map (fun ev => match ev with
                      | Retrieve _ r t => [(r, t)]
                      | Print _ => []
                      end) tr.

End Fetcher.

(** ** The Aggregator *)

Module Aggregator.

(** *** The data *)

(** A [datetime64] label of the [valid_time] coordinate, held by its civil
    fields: the calendar date and the nanoseconds since midnight.  The
    chronological order is the lexicographic one, and [.dt.year] is the
    first field. *)
Record datetime64 : Type := mkdatetime64 {
  dt_year : Z; dt_month : Z; dt_day : Z; dt_nanos : Z
}.

Definition dt_ltb (a b : datetime64) : bool :=
  (dt_year a <? dt_year b)
  || ((dt_year a =? dt_year b)
      && ((dt_month a <? dt_month b)
          || ((dt_month a =? dt_month b)
              && ((dt_day a <? dt_day b)
                  || ((dt_day a =? dt_day b)
                      && (dt_nanos a <? dt_nanos b)))))).

Definition dt_eqb (a b : datetime64) : bool :=
  (dt_year a =? dt_year b) && (dt_month a =? dt_month b)
  && (dt_day a =? dt_day b) && (dt_nanos a =? dt_nanos b).

Definition dt_leb (a b : datetime64) : bool := dt_ltb a b || dt_eqb a b.

(** One value of a data variable: a float is either NaN (missing) or a
    number, whose bits the script never looks at. *)
Inductive Cell : Type :=
| NaN
| Num (bits : Z).

Definition notnull (c : Cell) : bool :=
  match c with
  | NaN => false
  | Num _ => true
  end.

(** One label along the time-like dimension with everything stored under
    it: for each data variable, its values over the spatial grid. *)
Record Row : Type := mkRow {
  valid_time : datetime64;
  values : list (string * list Cell)
}.

(** An [xarray.Dataset] whose only non-spatial dimension is [valid_time]. *)
Record Dataset : Type := mkDataset {
  data_vars : list string;
  rows : list Row
}.

(** What cfgrib reads from one GRIB file: the hypercube over the two
    time-like dimensions, [time] (outer list) and [step] (inner list); each
    cell carries its [valid_time] coordinate, and holds NaN where the file
    has no message for that combination. *)
Record GribData : Type := mkGribData {
  grib_vars : list string;
  grib_cube : list (list Row)
}.

(** An entry of the input directory: a GRIB file, or anything that cfgrib
    cannot open. *)
Inductive File : Type :=
| Grib (g : GribData)
| Unreadable.

(** The input directory as the operating system lists it: names paired
    with contents, in no particular order. *)
Definition Directory : Type := list (string * File).

Inductive Event : Type :=
| Print (line : string)
| OpenMfdataset (paths : list string)
| ToNetcdf (path : string) (ds : Dataset).

(** The outside of [ds.to_netcdf(path, format='NETCDF4', engine='netcdf4')]:
    [None] when the file is written and the call returns, [Some e] when
    the call raises [e] (the output directory does not exist or may not be
    written to, the disk is full). *)
Definition NetcdfWriter : Type := string -> Dataset -> option exception.

(** *** [fnmatch] *)

(** What [fnmatch.translate] makes of a pattern, piece by piece. *)
Inductive Piece : Type :=
| Star                                        (* "*": any run of characters *)
| AnyChar                                     (* "?": any one character *)
| Literal (c : ascii)
| OneOf (negated : bool) (chunks : list string)   (* "[seq]" and "[!seq]" *)
| Never.                                      (* a set that has become empty *)

Definition first_char (s : string) : option ascii :=
  match s with
  | EmptyString => None
  | String c _ => Some c
  end.

Fixpoint last_char (s : string) : option ascii :=
  match s with
  | EmptyString => None
  | String c EmptyString => Some c
  | String _ s' => last_char s'
  end.

Fixpoint remove_last (s : string) : string :=
  match s with
  | EmptyString => EmptyString
  | String _ EmptyString => EmptyString
  | String c s' => String c (remove_last s')
  end.

Definition tail (s : string) : string :=
  match s with
  | EmptyString => EmptyString
  | String _ s' => s'
  end.

Fixpoint contains (c : ascii) (s : string) : bool :=
  match s with
  | EmptyString => false
  | String d s' => Ascii.eqb c d || contains c s'
  end.

(** Characters compare by code point. *)
Definition ascii_leb (a b : ascii) : bool := (N_of_ascii a <=? N_of_ascii b)%N.

(** The text before the first "]" of a string, and the text after it. *)
Fixpoint upto_bracket (s : string) : option (string * string) :=
  match s with
  | EmptyString => None
  | String c s' =>
      if Ascii.eqb c "]" then Some (EmptyString, s')
      else match upto_bracket s' with
           | Some (stuff, rest) => Some (String c stuff, rest)
           | None => None
           end
  end.

(** After a "[": the text of the bracket expression and what follows its
    closing "]".  A "!" in the first place and a "]" in the first place
    after it belong to the expression; without a closing "]" there is no
    expression and the "[" stands for itself. *)
Definition bracket (s : string) : option (string * string) :=
  let (bang, s1) := match s with
                    | String "!" s' => ("!", s')
                    | _ => ("", s)
                    end in
  let (first, s2) := match s1 with
                     | String "]" s' => ("]", s')
                     | _ => ("", s1)
                     end in
  match upto_bracket s2 with
  | Some (stuff, rest) => Some ((bang ++ first ++ stuff)%string, rest)
  | None => None
  end.

(** The expression is cut at the hyphens that stand between two characters
    of a range: a hyphen in one of the first [skip] places of a chunk is a
    character like any other. *)
Fixpoint cut (skip : nat) (chunk : string) (s : string) : list string :=
  match s with
  | EmptyString => [chunk]
  | String c s' =>
      match skip with
      | S n => cut n (chunk ++ String c EmptyString) s'
      | O => if Ascii.eqb c "-" then chunk :: cut 2 EmptyString s'
             else cut 0 (chunk ++ String c EmptyString) s'
      end
  end.

(** A hyphen at the very end is a character of the last chunk. *)
Definition close_chunks (chunks : list string) : list string :=
  match rev chunks with
  | EmptyString :: prev :: before => rev before ++ [(prev ++ "-")%string]
  | _ => chunks
  end.

(** A range that runs backwards is empty: its two ends go, and the chunks
    on its sides become one. *)
Fixpoint drop_empty_ranges (chunks : list string) : list string :=
  match chunks with
  | [] => []
  | a :: rest =>
      match drop_empty_ranges rest with
      | [] => [a]
      | b :: more =>
          match last_char a, first_char b with
          | Some x, Some y =>
              if ascii_leb x y then a :: b :: more
              else (remove_last a ++ tail b)%string :: more
          | _, _ => a :: b :: more
          end
      end
  end.

Definition class_of (stuff : string) : Piece :=
  let skip := match stuff with String "!" _ => 2%nat | _ => 1%nat end in
  match drop_empty_ranges (close_chunks (cut skip EmptyString stuff)) with
  | [EmptyString] => Never
  | [String "!" EmptyString] => AnyChar
  | String "!" chunk :: chunks => OneOf true (chunk :: chunks)
  | chunks => OneOf false chunks
  end.

(** [translate] reads the pattern from left to right; [fuel] bounds the
    number of pieces, and the length of the pattern is enough. *)
Fixpoint translate (fuel : nat) (pat : string) : list Piece :=
  match fuel, pat with
  | S fuel', String c pat' =>
      if Ascii.eqb c "*" then Star :: translate fuel' pat'
      else if Ascii.eqb c "?" then AnyChar :: translate fuel' pat'
      else if Ascii.eqb c "[" then
        match bracket pat' with
        | Some (stuff, rest) => class_of stuff :: translate fuel' rest
        | None => Literal c :: translate fuel' pat'
        end
      else Literal c :: translate fuel' pat'
  | _, _ => []
  end.

(** The characters of a set: those of its chunks, and those of the ranges
    from the last character of a chunk to the first of the next. *)
Fixpoint in_chunks (c : ascii) (chunks : list string) : bool :=
  match chunks with
  | [] => false
  | chunk :: rest =>
      contains c chunk
      || match last_char chunk, rest with
         | Some lo, next :: _ =>
             match first_char next with
             | Some hi => ascii_leb lo c && ascii_leb c hi
             | None => false
             end
         | _, _ => false
         end
      || in_chunks c rest
  end.

Definition matches_char (piece : Piece) (d : ascii) : bool :=
  match piece with
  | Star | AnyChar => true
  | Literal c => Ascii.eqb c d
  | OneOf negated chunks => xorb negated (in_chunks d chunks)
  | Never => false
  end.

(** The whole name against the pieces. *)
Fixpoint matches (pieces : list Piece) : string -> bool :=
  match pieces with
  | [] => fun name =>
      match name with EmptyString => true | String _ _ => false end
  | piece :: pieces' =>
      match piece with
      | Star =>
          fix star (name : string) : bool :=
            matches pieces' name
            || match name with
               | EmptyString => false
               | String _ name' => star name'
               end
      | _ => fun name =>
          match name with
          | EmptyString => false
          | String d name' => matches_char piece d && matches pieces' name'
          end
      end
  end.

(** [fnmatch.fnmatch(name, pat)] on a POSIX system, where names are
    compared as they are. *)
Definition fnmatch (name pat : string) : bool :=
  matches (translate (String.length pat) pat) name.

(** *** [glob] *)

(** [glob.has_magic]: the string holds one of the characters * ? [ *)
Fixpoint has_magic (s : string) : bool :=
  match s with
  | EmptyString => false
  | String c s' =>
      Ascii.eqb c "*" || Ascii.eqb c "?" || Ascii.eqb c "[" || has_magic s'
  end.

(** [glob._ishidden] *)
Definition ishidden (name : string) : bool :=
  match name with
  | String c _ => Ascii.eqb c "."
  | EmptyString => false
  end.

(** The f-string [f"{dirname}/{name}"]. *)
Definition join (dirname name : string) : string :=
  (dirname ++ "/" ++ name)%string.

Definition is_slash (c : ascii) : bool := Ascii.eqb c "/".

(** A path cut after its last slash. *)
Fixpoint cut_at_last_slash (p : string) : string * string :=
  match p with
  | EmptyString => (EmptyString, EmptyString)
  | String c p' =>
      let (head, tail) := cut_at_last_slash p' in
      match head with
      | EmptyString =>
          if is_slash c then (String c EmptyString, tail)
          else (EmptyString, String c tail)
      | _ => (String c head, tail)
      end
  end.

Fixpoint all_slashes (s : string) : bool :=
  match s with
  | EmptyString => true
  | String c s' => is_slash c && all_slashes s'
  end.

(** [s.rstrip('/')] *)
Fixpoint rstrip_slashes (s : string) : string :=
  match s with
  | EmptyString => EmptyString
  | String c s' =>
      match rstrip_slashes s' with
      | EmptyString => if is_slash c then EmptyString else String c EmptyString
      | rest => String c rest
      end
  end.

(** [posixpath.split]: the head loses its trailing slashes unless it is
    made of slashes only. *)
Definition split (p : string) : string * string :=
  let (head, tail) := cut_at_last_slash p in
  (if all_slashes head then head else rstrip_slashes head, tail).

Definition ends_with_slash (s : string) : bool :=
  match last_char s with
  | Some c => is_slash c
  | None => false
  end.

(** [posixpath.join(a, b)] for a name [b] of a directory listing, which
    does not begin with a slash. *)
Definition path_join (a b : string) : string :=
  if (a =? "")%string || ends_with_slash a then (a ++ b)%string
  else (a ++ "/" ++ b)%string.

(** [glob._glob1]: the names of a listing that match the pattern; a name
    that begins with a dot is left out unless the pattern does too. *)
Definition glob1 (names : list string) (pattern : string) : list string :=
  filter (fun name => negb (ishidden name && negb (ishidden pattern))
                      && fnmatch name pattern)
         names.

(** [glob._glob0]: a name without glob characters, if it is there. *)
Definition glob0 (names : list string) (basename : string) : list string :=
  if (basename =? "")%string || existsb (String.eqb basename) names
  then [basename] else [].

(** [glob._iglob] on the directory part of a pattern when that part holds
    a glob character.  It takes the part to pieces from the right and
    lists, for each piece, the directory above it; on the way to the input
    directory that directory holds the piece itself, under the name it is
    written with.  The result is the path under which [glob] reaches the
    input directory, or nothing when a piece does not match its own
    name.  [fuel] bounds the depth; the length of the path is enough. *)
Fixpoint iglob_dir (fuel : nat) (pathname : string) : option string :=
  match fuel with
  | O => None
  | S fuel' =>
      let (dirname, basename) := split pathname in
      if negb (has_magic pathname) then Some pathname
      else if (dirname =? "")%string then
        match glob1 [basename] basename with
        | name :: _ => Some name
        | [] => None
        end
      else
        match (if has_magic dirname then iglob_dir fuel' dirname
               else Some dirname) with
        | None => None
        | Some d =>
            match (if has_magic basename then glob1 [basename] basename
                   else glob0 [basename] basename) with
            | name :: _ => Some (path_join d name)
            | [] => None
            end
        end
  end.

(** The directory part of the paths [f"{dirname}/{name}"]. *)
Definition head_of (dirname : string) : string :=
  fst (split (dirname ++ "/")%string).

(** The path under which [glob] finds the directory that [dirname] names:
    the directory part itself when it holds no glob character. *)
Definition input_dir (dirname : string) : option string :=
  let head := head_of dirname in
  if has_magic head then iglob_dir (String.length head) head else Some head.

(** [glob.glob(f"{dirname}/{pattern}")], where [dir] lists the directory
    that the directory part of the path names: the paths of the entries
    whose name matches, in listing order.  (The test [dirname != pathname]
    of [_iglob] guards Windows drive names and is left out.) *)
Definition glob (dirname : string) (dir : Directory) (pattern : string)
  : list string :=
  let pathname := (dirname ++ "/" ++ pattern)%string in
  let (head, basename) := split pathname in
  let names := map fst dir in
  if negb (has_magic pathname) then
    if (basename =? "")%string || existsb (String.eqb basename) names
    then [pathname] else []
  else if (head =? "")%string then glob1 names basename
  else
    match (if has_magic head then iglob_dir (String.length head) head
           else Some head) with
    | None => []
    | Some d =>
        map (path_join d)
            (if has_magic basename then glob1 names basename
             else glob0 names basename)
    end.

(** *** The xarray calls *)

(** cfgrib opens a path that [glob] has returned: the entry of the input
    directory whose path it is. *)
Definition read_file (dirname : string) (dir : Directory) (path : string)
  : result GribData :=
  match input_dir dirname with
  | None => Raise DatasetError
  | Some d =>
      match find (fun entry => (path_join d (fst entry) =? path)%string) dir
      with
      | Some (_, Grib g) => Return g
      | _ => Raise DatasetError
      end
  end.

Fixpoint read_files (dirname : string) (dir : Directory) (paths : list string)
  : result (list GribData) :=
  match paths with
  | [] => Return []
  | p :: paths' =>
      match read_file dirname dir p with
      | Raise e => Raise e
      | Return g =>
          match read_files dirname dir paths' with
          | Raise e => Raise e
          | Return gs => Return (g :: gs)
          end
      end
  end.

Definition union_vars (a b : list string) : list string :=
  a ++ filter (fun v => negb (existsb (String.eqb v) a)) b.

(** [xr.open_mfdataset(paths, engine='cfgrib', combine='by_coords')]: every
    file is opened, in the order of the paths, and the cubes are joined
    along [time].  The files are taken to fit together, as the monthly
    files of one year do: the same steps in each, and times that follow
    one another from file to file, so that the order of the sorted paths
    is the order of the [time] coordinates.  What xarray does with files
    that do not fit (it raises on times that repeat or interleave and on
    steps that differ) is not part of the embedding. *)
Definition open_mfdataset (dirname : string) (dir : Directory)
    (paths : list string) : result GribData :=
  match paths with
  | [] => Raise DatasetError
  | _ =>
      match read_files dirname dir paths with
      | Raise e => Raise e
      | Return gs =>
          Return {| grib_vars := fold_left union_vars (map grib_vars gs) [];
                    grib_cube := List.concat (map grib_cube gs) |}
      end
  end.

(** Lines 99-102: [stack(datetime=("time", "step"))], the raveled
    [valid_time] attached as the label of the stacked dimension, made the
    dimension itself, and the stacked index dropped.  Both [stack] and
    [ravel] run over [time] first and [step] second.  The cube is taken
    to have both dimensions: for a file with a single time or a single
    step cfgrib gives a scalar coordinate and [stack] raises, a failure
    the embedding does not have. *)
Definition stack_valid_time (ds : GribData) : Dataset :=
  {| data_vars := grib_vars ds; rows := List.concat (grib_cube ds) |}.

(** [ds.where(ds.valid_time.dt.year == year, drop=True)] *)
Definition where_year (ds : Dataset) (year : Z) : Dataset :=
  {| data_vars := data_vars ds;
     rows := filter (fun r => dt_year (valid_time r) =? year) (rows ds) |}.

Definition row_leb (r r' : Row) : bool :=
  dt_leb (valid_time r) (valid_time r').

(** [ds.sortby("valid_time")]: ascending and stable. *)
Definition sortby_valid_time (ds : Dataset) : Dataset :=
  {| data_vars := data_vars ds; rows := sort_stable row_leb (rows ds) |}.

Definition lookup_var (v : string) (r : Row) : list Cell :=
  match find (fun kv => (fst kv =? v)%string) (values r) with
  | Some (_, cells) => cells
  | None => []
  end.

(** The number of values that are not NaN under one label, over all the
    data variables of the dataset. *)
Definition count_notnull (vars : list string) (r : Row) : nat :=
  list_sum (map (fun v => List.length (filter notnull (lookup_var v r))) vars).

(** [ds.dropna(dim="valid_time", how="all")]: a label stays when the count
    of its values that are not NaN is positive. *)
Definition dropna_all (ds : Dataset) : Dataset :=
  {| data_vars := data_vars ds;
     rows := filter (fun r => (0 <? count_notnull (data_vars ds) r)%nat)
                    (rows ds) |}.

(** [xr.concat([a, b], dim="valid_time")]: the rows of [b] after those
    of [a], under the variables of both.  A row keeps the values it has;
    under a variable that only the other dataset has it holds none, where
    xarray fills in NaN. *)
Definition concat_valid_time (a b : Dataset) : Dataset :=
  {| data_vars := union_vars (data_vars a) (data_vars b);
     rows := rows a ++ rows b |}.

(** [xr.Dataset()] *)
Definition empty_dataset : Dataset := {| data_vars := []; rows := [] |}.

(** [bool(ds)]: a Dataset is true when it has a data variable. *)
Definition truthy (ds : Dataset) : bool :=
  match data_vars ds with
  | [] => false
  | _ :: _ => true
  end.

(** *** [aggregate_era5_land_timeseries] *)

Definition grib_pattern (year : Z) : string :=
  (str year ++ "_months*_europe.grib")%string.

(** Lines 104-107 on an opened and stacked year. *)
Definition clean_year (ds_ready : Dataset) (year : Z) : Dataset :=
  dropna_all (sortby_valid_time (where_year ds_ready year)).

(** Lines 86-113: the body of the loop over the years.  [dir] lists the
    directory that [era5_land_data_path_inputs] names. *)
Definition process_year (era5_land_data_path_inputs : string)
    (dir : Directory) (ds_variable : Dataset) (year : Z)
  : Eff Event Dataset :=
  let grib_files :=
    sorted (glob era5_land_data_path_inputs dir (grib_pattern year)) in
  match grib_files with
  | [] =>
      emit (Print ("No file for year " ++ str year ++ " found in "
                   ++ era5_land_data_path_inputs)%string) ;;;
      ret ds_variable
  | _ :: _ =>
      emit (Print ("Opening GRIB files for year " ++ str year
                   ++ "...")%string) ;;;
      emit (OpenMfdataset grib_files) ;;;
      ds <- lift (open_mfdataset era5_land_data_path_inputs dir grib_files) ;;
      emit (Print ("Processing year " ++ str year ++ " ...")%string) ;;;
      let ds_ready := stack_valid_time ds in
      emit (Print ("Filtering data for year " ++ str year
                   ++ " ...")%string) ;;;
      let ds_ready := clean_year ds_ready year in
      emit (Print "Concatenating datasets...") ;;;
      if truthy ds_variable then ret (concat_valid_time ds_variable ds_ready)
      else ret ds_ready
  end.

Definition output_path (era5_land_data_path_outputs : string)
    (start_year end_year : Z) : string :=
  (era5_land_data_path_outputs ++ "/inflows_var_era5_" ++ str start_year
   ++ "to" ++ str end_year ++ ".nc")%string.

(** Lines 84-113: the loop, from the empty dataset. *)
Definition combine_years (era5_land_data_path_inputs : string)
    (dir : Directory) (start_year end_year : Z) : Eff Event Dataset :=
  for_fold (range start_year (end_year + 1))
           (process_year era5_land_data_path_inputs dir) empty_dataset.

Definition aggregate_era5_land_timeseries (to_netcdf : NetcdfWriter)
    (era5_land_data_path_inputs era5_land_data_path_outputs : string)
    (dir : Directory) (start_year end_year : Z) (save : bool)
  : Eff Event Dataset :=
  ds_variable <- combine_years era5_land_data_path_inputs dir
                   start_year end_year ;;
  (if save then
     let path := output_path era5_land_data_path_outputs
                   start_year end_year in
     emit (ToNetcdf path ds_variable) ;;;
     match to_netcdf path ds_variable with
     | None => ret tt
     | Some e => raise e
     end
   else ret tt) ;;;
  ret ds_variable.

(** The calls of [to_netcdf] in a run: the path and the dataset of each. *)
Definition written (tr : list Event) : list (string * Dataset) :=
  flat_map (fun ev => match ev with
                      | ToNetcdf p ds => [(p, ds)]
                      | _ => []
                      end) tr.

Definition printed (tr : list Event) : list string :=
  flat_map (fun ev => match ev with
                      | Print s => [s]
                      | _ => []
                      end) tr.

(** The paths handed to [open_mfdataset] in a run. *)
Definition opened (tr : list Event) : list string :=
  flat_map (fun ev => match ev with
                      | OpenMfdataset paths => paths
                      | _ => []
                      end) tr.

Definition timestamps (l : list Row) : list datetime64 := map valid_time l.

End Aggregator.

(** ** Reference notions the properties are stated against *)

(** The Gregorian rule, and the length of each month as the calendar has
    it. *)
Definition gregorian_leap (y : Z) : Prop :=
  (4 | y) /\ (~ (100 | y) \/ (400 | y)).

Definition month_length (leap : bool) (m : Z) : Z :=
  match m with
  | 1 | 3 | 5 | 7 | 8 | 10 | 12 => 31
  | 4 | 6 | 9 | 11 => 30
  | 2 => if leap then 29 else 28
  | _ => 0
  end.

(** The number of a day of the proleptic Gregorian calendar, by the closed
    formula over years that begin in March; it uses no table of month
    lengths. *)
Definition day_number (y m d : Z) : Z :=
  let y' := if m <=? 2 then y - 1 else y in
  let era := y' / 400 in
  let yoe := y' - era * 400 in
  let mp := (m + 9) mod 12 in
  let doy := (153 * mp + 2) / 5 + d - 1 in
  let doe := yoe * 365 + yoe / 4 - yoe / 100 + doy in
  era * 146097 + doe.

(** The days from the first of a month to the first of the next month. *)
Definition days_to_next_month (y m : Z) : Z :=
  (if m =? 12 then day_number (y + 1) 1 1 else day_number y (m + 1) 1)
  - day_number y m 1.

(** Calendar months counted from month 1 of year 0. *)
Definition month_index (y m : Z) : Z := 12 * y + (m - 1).
Definition month_of_index (i : Z) : Z * Z := (i / 12, i mod 12 + 1).

(** The calendar months from (sy, sm) to (ey, em), both included. *)
Definition calendar_months (sy sm ey em : Z) : list (Z * Z) :=
  map month_of_index (range (month_index sy sm) (month_index ey em + 1)).

(** A string all of whose characters satisfy [p]. *)
Fixpoint all_chars (p : ascii -> bool) (s : string) : bool :=
  match s with
  | EmptyString => true
  | String c s' => p c && all_chars p s'
  end.

(** The characters [str] and [format_02d] can produce. *)
Definition numeric (c : ascii) : bool :=
  existsb (Ascii.eqb c)
    ["0"; "1"; "2"; "3"; "4"; "5"; "6"; "7"; "8"; "9"; "-"]%char.

(** The name, inside its directory, of the file the Fetcher writes. *)
Definition file_name (y m : Z) : string :=
  (str y ++ "_months" ++ format_02d m ++ "_europe.grib")%string.

(** The request the Fetcher is expected to issue for a calendar month. *)
Definition expected_request (target_path : string) (variables : list string)
    (area : list Z) (ym : Z * Z) : Fetcher.Request * string :=
  (Fetcher.request_of variables area (fst ym) (snd ym)
     (month_length (isleap (fst ym)) (snd ym)),
   Fetcher.target_of target_path (fst ym) (snd ym)).

(** What [path_join] puts in front of a name. *)
Definition path_prefix (d : string) : string :=
  if (d =? "")%string || Aggregator.ends_with_slash d then d
  else (d ++ "/")%string.

(** A string without a slash, as the name of a file is. *)
Definition no_slash (s : string) : bool :=
  all_chars (fun c => negb (Aggregator.is_slash c)) s.

(** Chronological order on the labels, as propositions. *)
Definition dt_le (a b : Aggregator.datetime64) : Prop :=
  Aggregator.dt_leb a b = true.
Definition dt_lt (a b : Aggregator.datetime64) : Prop :=
  Aggregator.dt_ltb a b = true.

Module AggregatorSpec.

Import Aggregator.

(** A label holds data when some value under it is not NaN. *)
Definition has_data (vars : list string) (r : Row) : bool :=
  (0 <? count_notnull vars r)%nat.

(** The rows of a dataset a year keeps: in the year, and holding data. *)
Definition in_year_data (ds : Dataset) (year : Z) : list Row :=
  filter (fun r => (dt_year (valid_time r) =? year)
                   && has_data (data_vars ds) r) (rows ds).

(** The sorted paths of a year's files (line 87). *)
Definition year_files (inputs : string) (dir : Directory) (year : Z)
  : list string :=
  sorted (glob inputs dir (grib_pattern year)).

(** What a year contributes to the combined dataset: nothing when it has no
    file, its cleaned rows otherwise. *)
Definition year_slice (inputs : string) (dir : Directory) (year : Z)
  : result (list Row) :=
  match year_files inputs dir year with
  | [] => Return []
  | files =>
      match open_mfdataset inputs dir files with
      | Raise e => Raise e
      | Return g => Return (rows (clean_year (stack_valid_time g) year))
      end
  end.

Definition slice_rows (inputs : string) (dir : Directory) (year : Z)
  : list Row :=
  match year_slice inputs dir year with
  | Return rs => rs
  | Raise _ => []
  end.

(** The running dataset is either true or has no label. *)
Definition falsy_is_empty (ds : Dataset) : Prop :=
  truthy ds = false -> rows ds = [].

(** Every row of the running dataset holds data and lies in a year of
    the range. *)
Definition rows_hold_data (lo hi : Z) (ds : Dataset) : Prop :=
  Forall (fun r => has_data (data_vars ds) r = true
                   /\ lo <= dt_year (valid_time r) <= hi) (rows ds).

(** The name, inside the output directory, of the file a run writes. *)
Definition output_name (start_year end_year : Z) : string :=
  ("inflows_var_era5_" ++ str start_year ++ "to" ++ str end_year
   ++ ".nc")%string.

Definition no_file_message (inputs : string) (year : Z) : string :=
  ("No file for year " ++ str year ++ " found in " ++ inputs)%string.

End AggregatorSpec.

(** ** Sample inputs, used to run the definitions *)

Module Samples.

Import Aggregator.

Definition hour : Z := 3600000000000.

Definition at_hour (y m d h : Z) : datetime64 :=
  mkdatetime64 y m d (h * hour).

Definition t2m (t : datetime64) (c : Cell) : Row := mkRow t [("t2m", [c])].

(** Analyses at noon with steps of 12 and 24 hours.  The file holds the
    midnights and noons of 1 and 2 January 2010 but for the last; the
    first and the last cell are the padding the cube needs, the first of
    them out of the year. *)
Definition grib_2010 : GribData :=
  {| grib_vars := ["t2m"];
     grib_cube :=
       [[t2m (at_hour 2009 12 31 12) NaN; t2m (at_hour 2010 1 1 0) (Num 271)];
        [t2m (at_hour 2010 1 1 12) (Num 275); t2m (at_hour 2010 1 2 0) NaN]] |}.

(** Analyses at 00:00 and 06:00 with steps of 0 and 12 hours: the cube,
    read row by row, is not in order of valid time. *)
Definition grib_2011 : GribData :=
  {| grib_vars := ["t2m"];
     grib_cube :=
       [[t2m (at_hour 2011 1 1 0) (Num 279); t2m (at_hour 2011 1 1 12) (Num 280)];
        [t2m (at_hour 2011 1 1 6) (Num 281); t2m (at_hour 2011 1 1 18) (Num 282)]] |}.

(** Analyses at 00:00 and 12:00 with steps of 0 and 12 hours: noon is
    reached twice, as the first analysis plus 12 hours and as the second
    analysis itself, each time with data. *)
Definition grib_twice : GribData :=
  {| grib_vars := ["t2m"];
     grib_cube :=
       [[t2m (at_hour 2010 1 1 0) (Num 270); t2m (at_hour 2010 1 1 12) (Num 275)];
        [t2m (at_hour 2010 1 1 12) (Num 276); t2m (at_hour 2010 1 2 0) (Num 280)]] |}.

Definition two_years : Directory :=
  [("2011_months01_europe.grib", Grib grib_2011);
   ("2010_months01_europe.grib", Grib grib_2010)].

Definition two_years_relisted : Directory :=
  [("2010_months01_europe.grib", Grib grib_2010);
   ("2011_months01_europe.grib", Grib grib_2011)].

Definition twice_listed : Directory :=
  [("2010_months01_europe.grib", Grib grib_twice)].

Definition broken_year : Directory :=
  [("2010_months01_europe.grib", Unreadable);
   ("2011_months01_europe.grib", Grib grib_2011)].

(** A remote side on which nothing fails. *)
Definition cds_ok : Fetcher.CdsApi :=
  Fetcher.mkCdsApi None (fun _ _ _ => None).

(** An output side on which every write succeeds. *)
Definition writes_ok : NetcdfWriter := fun _ _ => None.

End Samples.

(** ** What a run of the Fetcher leaves in its trace *)

Module FetcherSpec.

Import Fetcher.

(** The call of [client.retrieve] for a month. *)
Definition month_attempt (target_path : string) (variables : list string)
    (area : list Z) (ym : Z * Z) : Event :=
  Retrieve "reanalysis-era5-land"
    (fst (expected_request target_path variables area ym))
    (snd (expected_request target_path variables area ym)).

(** The events of a month that is fetched to the end: the call, and the
    line printed once it has returned. *)
Definition month_events (target_path : string) (variables : list string)
    (area : list Z) (ym : Z * Z) : list Event :=
  [month_attempt target_path variables area ym;
   Print ("Data downloaded to "
          ++ snd (expected_request target_path variables area ym))%string].

(** What the remote side answers to the call for a month. *)
Definition answer (cds : CdsApi) (target_path : string)
    (variables : list string) (area : list Z) (ym : Z * Z)
  : option exception :=
  retrieve cds "reanalysis-era5-land"
    (fst (expected_request target_path variables area ym))
    (snd (expected_request target_path variables area ym)).

(** The lines a run has printed. *)
Definition printed_lines (tr : list Event) : list string :=
  flat_map (fun ev => match ev with
                      | Print line => [line]
                      | Retrieve _ _ _ => []
                      end) tr.

(** The line printed when the retrieval to a target has returned. *)
Definition notice (rt : Request * string) : string :=
  ("Data downloaded to " ++ snd rt)%string.

End FetcherSpec.

(** ** What a run of the Aggregator reads *)

Module AggregatorReads.

Import Aggregator AggregatorSpec.

(** The rows of a file's cube, in the order of the stacked dimension. *)
Definition cube_rows (g : GribData) : list Row := List.concat (grib_cube g).


(** The GRIB files of a year in the directory, as it is listed: the
    readable entries whose name matches the year's pattern. *)
Definition year_gribs (dir : Directory) (year : Z) : list GribData :=
  flat_map (fun entry =>
              match snd entry with
              | Grib g =>
                  if fnmatch (fst entry) (grib_pattern year) then [g] else []
              | Unreadable => []
              end) dir.

(** The rows of a year's files, and the variables they declare. *)
Definition year_cells (dir : Directory) (year : Z) : list Row :=
  flat_map cube_rows (year_gribs dir year).

Definition year_variables (dir : Directory) (year : Z) : list string :=
  flat_map grib_vars (year_gribs dir year).

(** The timestamps of a year's files: the valid times under which the
    files hold data, one for each row that holds some. *)
Definition year_timestamps (dir : Directory) (year : Z) : list datetime64 :=
  timestamps (filter (has_data (year_variables dir year))
                     (year_cells dir year)).

(** Those of them that lie in the year itself. *)
Definition own_timestamps (dir : Directory) (year : Z) : list datetime64 :=
  filter (fun t => dt_year t =? year) (year_timestamps dir year).

(** The path under which [glob] reports an entry of an input directory
    that is named without glob characters. *)
Definition found_path (inputs name : string) : string :=
  path_join (head_of inputs) name.

(** The lines a run prints for a year whose files open. *)
Definition progress_messages (year : Z) : list string :=
  [("Opening GRIB files for year " ++ str year ++ "...")%string;
   ("Processing year " ++ str year ++ " ...")%string;
   ("Filtering data for year " ++ str year ++ " ...")%string;
   "Concatenating datasets..."].

End AggregatorReads.

Module MoreSamples.

(** A remote side that fails on one target and serves every other. *)
Definition cds_fails_on (target : string) : Fetcher.CdsApi :=
  Fetcher.mkCdsApi None
    (fun _ _ t => if (t =? target)%string then Some ClientError else None).

(** A remote side for which no client can be built. *)
Definition cds_no_client : Fetcher.CdsApi :=
  Fetcher.mkCdsApi (Some ClientError) (fun _ _ _ => None).

(** The two sample years with a stray file of 2013 that cannot be read and
    a file that is no GRIB file at all. *)
Definition with_strays : Aggregator.Directory :=
  [("2011_months01_europe.grib", Aggregator.Grib Samples.grib_2011);
   ("2013_months07_europe.grib", Aggregator.Unreadable);
   ("2010_months01_europe.grib", Aggregator.Grib Samples.grib_2010);
   ("README.md", Aggregator.Unreadable)].

(** An output side on which no write succeeds: the output directory is
    not there. *)
Definition no_output_directory : Aggregator.NetcdfWriter :=
  fun _ _ => Some OSError.

(** Three months of 2010, listed out of order. *)
Definition three_months : Aggregator.Directory :=
  [("2010_months11_europe.grib", Aggregator.Grib Samples.grib_2010);
   ("2010_months02_europe.grib", Aggregator.Grib Samples.grib_twice);
   ("2010_months10_europe.grib", Aggregator.Grib Samples.grib_2010)].

End MoreSamples.

(** * Properties *)

(** ** Strings *)

Section StringFacts.

Lemma append_left_cancel (p a b : string) :
  (p ++ a)%string = (p ++ b)%string -> a = b.
Proof.
  induction p as [|c p IH]; simpl; intros H; [exact H|].
  injection H as H. auto.
Qed.

Lemma all_chars_app p a b :
  all_chars p (a ++ b) = all_chars p a && all_chars p b.
Proof.
  induction a as [|c a IH]; simpl; [reflexivity|].
  rewrite IH. apply andb_assoc.
Qed.

(** Two strings that agree up to a separator neither prefix contains have
    the same prefix and the same rest. *)
Lemma split_at_separator p sep a b r r' :
  all_chars p a = true -> all_chars p b = true -> p sep = false ->
  (a ++ String sep r)%string = (b ++ String sep r')%string ->
  a = b /\ r = r'.
Proof.
  intros Ha Hb Hsep. revert b Hb.
  induction a as [|c a IH]; intros [|d b] Hb; simpl in *; intros H.
  - injection H as H. auto.
  - injection H as Hc _. subst d.
    rewrite Hsep in Hb. discriminate.
  - injection H as Hc _. subst c.
    rewrite Hsep in Ha. discriminate.
  - injection H as Hc H. subst d.
    apply andb_true_iff in Ha, Hb.
    destruct (IH (proj2 Ha) b (proj2 Hb) H) as [-> ->]. auto.
Qed.

Lemma string_of_uint_numeric d :
  all_chars numeric (NilEmpty.string_of_uint d) = true.
Proof. induction d; simpl; auto. Qed.

Lemma str_numeric n : all_chars numeric (str n) = true.
Proof.
  unfold str. destruct (Z.to_int n); simpl; apply string_of_uint_numeric.
Qed.

Lemma str_inj a b : str a = str b -> a = b.
Proof.
  unfold str. intros H.
  apply DecimalZ.to_int_inj.
  apply (f_equal NilEmpty.int_of_string) in H.
  rewrite !NilEmpty.isi in H. congruence.
Qed.

Lemma nzhead_not_D0 d d' : Decimal.nzhead d <> Decimal.D0 d'.
Proof. induction d; simpl; try discriminate; auto. Qed.

Lemma to_uint_not_D0 p d : Pos.to_uint p <> Decimal.D0 d.
Proof.
  intros H.
  assert (Hn : Decimal.unorm (Pos.to_uint p) = Pos.to_uint p).
  { change (Pos.to_uint p) with (N.to_uint (Npos p)) at 2.
    rewrite <- (DecimalPos.Unsigned.of_to p).
    symmetry. apply DecimalPos.Unsigned.to_of. }
  rewrite H in Hn. unfold Decimal.unorm in Hn. simpl in Hn.
  destruct (Decimal.nzhead d) eqn:Hd; try discriminate.
  - injection Hn as Hn. subst d.
    exact (DecimalPos.Unsigned.to_uint_nonzero p H).
  - rewrite <- Hd in Hn. exact (nzhead_not_D0 _ _ Hn).
Qed.

(** Only zero is printed with a leading "0". *)
Lemma str_leading_zero n s : str n = String "0" s -> n = 0.
Proof.
  unfold str. destruct n as [|p|p]; simpl; auto.
  - unfold Z.to_int. simpl. intros H.
    destruct (Pos.to_uint p) eqn:Hp; simpl in H; try discriminate.
    exfalso. exact (to_uint_not_D0 p _ Hp).
  - discriminate.
Qed.

Lemma format_02d_numeric n : all_chars numeric (format_02d n) = true.
Proof.
  unfold format_02d.
  destruct ((0 <=? n) && (n <? 10)); simpl; apply str_numeric.
Qed.

Lemma format_02d_inj a b : format_02d a = format_02d b -> a = b.
Proof.
  unfold format_02d.
  destruct ((0 <=? a) && (a <? 10)) eqn:Ha;
    destruct ((0 <=? b) && (b <? 10)) eqn:Hb; simpl; intros H.
  - injection H as H. apply str_inj; assumption.
  - symmetry in H. apply str_leading_zero in H. subst b. discriminate.
  - apply str_leading_zero in H. subst a. discriminate.
  - apply str_inj; assumption.
Qed.

Lemma file_name_inj y m y' m' :
  file_name y m = file_name y' m' -> y = y' /\ m = m'.
Proof.
  unfold file_name. intros H.
  apply (split_at_separator numeric "_") in H;
    try apply str_numeric; try reflexivity.
  destruct H as [Hy H]. apply str_inj in Hy.
  simpl in H. injection H as H.
  apply (split_at_separator numeric "_") in H;
    try apply format_02d_numeric; try reflexivity.
  destruct H as [Hm _]. apply format_02d_inj in Hm. auto.
Qed.

End StringFacts.

(** ** [fnmatch] and [glob] *)

Section GlobFacts.

Import Aggregator.

Lemma str_nonempty y : str y <> "".
Proof.
  unfold str. destruct y as [|p|p]; simpl; try discriminate.
  unfold Z.to_int. simpl.
  pose proof (DecimalPos.Unsigned.to_uint_nonnil p) as H.
  destruct (Pos.to_uint p); simpl; try discriminate. contradiction.
Qed.

Lemma append_assoc (a b c : string) :
  ((a ++ b) ++ c)%string = (a ++ b ++ c)%string.
Proof. induction a as [|x a IH]; simpl; [reflexivity|]. rewrite IH. reflexivity. Qed.

Lemma append_nil_r (a : string) : (a ++ "")%string = a.
Proof. induction a as [|x a IH]; simpl; [reflexivity|]. rewrite IH. reflexivity. Qed.

Lemma length_append (a b : string) :
  String.length (a ++ b) = (String.length a + String.length b)%nat.
Proof. induction a as [|x a IH]; simpl; [reflexivity|]. rewrite IH. reflexivity. Qed.

(** The characters of a number are no glob characters and no slash. *)
Lemma numeric_plain c :
  numeric c = true ->
  Ascii.eqb c "*" = false /\ Ascii.eqb c "?" = false
  /\ Ascii.eqb c "[" = false /\ is_slash c = false.
Proof.
  unfold numeric. simpl. rewrite !orb_true_iff.
  intros H; repeat destruct H as [H|H]; try discriminate;
    apply Ascii.eqb_eq in H; subst c; repeat split; reflexivity.
Qed.

Lemma translate_literal fuel c pat :
  Ascii.eqb c "*" = false -> Ascii.eqb c "?" = false ->
  Ascii.eqb c "[" = false ->
  translate (S fuel) (String c pat) = Literal c :: translate fuel pat.
Proof. intros H1 H2 H3. cbn [translate]. rewrite H1, H2, H3. reflexivity. Qed.

Lemma matches_literal c pieces name :
  matches (Literal c :: pieces) name =
  match name with
  | EmptyString => false
  | String d name' => Ascii.eqb c d && matches pieces name'
  end.
Proof. reflexivity. Qed.

Lemma matches_star pieces name :
  matches (Star :: pieces) name =
  matches pieces name
  || match name with
     | EmptyString => false
     | String _ name' => matches (Star :: pieces) name'
     end.
Proof. destruct name; reflexivity. Qed.

(** A star can swallow any prefix. *)
Lemma matches_star_skip pieces a b :
  matches pieces b = true -> matches (Star :: pieces) (a ++ b) = true.
Proof.
  intros H. induction a as [|c a IH].
  - rewrite matches_star. simpl append. rewrite H. reflexivity.
  - change ((String c a ++ b)%string) with (String c (a ++ b)).
    rewrite matches_star, IH. apply orb_true_r.
Qed.

(** A prefix without wildcards matches itself and nothing else. *)
Lemma fnmatch_numeric_prefix l pat name :
  all_chars numeric l = true ->
  fnmatch name (l ++ pat) = true <->
  exists rest, name = (l ++ rest)%string /\ fnmatch rest pat = true.
Proof.
  revert name. induction l as [|c l IH]; intros name Hl.
  - simpl. split; [intros H; exists name; auto|intros [r [-> H]]; exact H].
  - simpl in Hl. apply andb_true_iff in Hl. destruct Hl as [Hc Hl].
    destruct (numeric_plain c Hc) as (H1 & H2 & H3 & _).
    unfold fnmatch in *.
    change ((String c l ++ pat)%string) with (String c (l ++ pat)).
    cbn [String.length]. rewrite translate_literal by assumption.
    rewrite matches_literal.
    destruct name as [|d name].
    + split; [discriminate|]. intros [r [H _]]. discriminate.
    + rewrite andb_true_iff, Ascii.eqb_eq, (IH name Hl). split.
      * intros [-> [r [-> H]]]. exists r. auto.
      * intros [r [H Hr]]. simpl in H. injection H as -> ->. eauto.
Qed.

(** Literal pieces match the text they spell. *)
Lemma matches_literals l pieces rest :
  matches (map Literal (list_ascii_of_string l) ++ pieces) (l ++ rest)
  = matches pieces rest.
Proof.
  induction l as [|c l IH]; [reflexivity|].
  change ((String c l ++ rest)%string) with (String c (l ++ rest)).
  cbn [list_ascii_of_string map app]. rewrite matches_literal.
  rewrite Ascii.eqb_refl. exact IH.
Qed.

(** The pieces of the constant part of a year's pattern. *)
Lemma translate_months :
  translate (String.length "_months*_europe.grib") "_months*_europe.grib"
  = map Literal (list_ascii_of_string "_months")
    ++ Star :: map Literal (list_ascii_of_string "_europe.grib").
Proof. reflexivity. Qed.

Lemma fnmatch_months middle :
  fnmatch ("_months" ++ middle ++ "_europe.grib") "_months*_europe.grib"
  = true.
Proof.
  unfold fnmatch. rewrite translate_months, matches_literals.
  apply matches_star_skip. reflexivity.
Qed.

Lemma fnmatch_months_inv rest :
  fnmatch rest "_months*_europe.grib" = true ->
  exists rest', rest = String "_" rest'.
Proof.
  unfold fnmatch. rewrite translate_months.
  cbn [list_ascii_of_string map app]. rewrite matches_literal.
  destruct rest as [|c rest]; [discriminate|].
  intros H. apply andb_true_iff in H. destruct H as [Hc _].
  apply Ascii.eqb_eq in Hc. subst c. eauto.
Qed.

(** The name the Fetcher gives the file of (y, m) matches the pattern the
    Aggregator builds for year Y exactly when Y is y. *)
Lemma fnmatch_file_name y m Y :
  fnmatch (file_name y m) (grib_pattern Y) = (y =? Y).
Proof.
  unfold file_name, grib_pattern.
  destruct (y =? Y) eqn:E.
  - apply Z.eqb_eq in E. subst Y.
    apply fnmatch_numeric_prefix; [apply str_numeric|].
    eexists. split; [reflexivity|]. apply fnmatch_months.
  - apply Z.eqb_neq in E.
    destruct (fnmatch _ _) eqn:M; [|reflexivity].
    exfalso. apply E.
    apply fnmatch_numeric_prefix in M; [|apply str_numeric].
    destruct M as [rest [Hname Hrest]].
    apply fnmatch_months_inv in Hrest. destruct Hrest as [rest' ->].
    apply (split_at_separator numeric "_") in Hname;
      try apply str_numeric; try reflexivity.
    destruct Hname as [Hy _]. apply str_inj; assumption.
Qed.

Lemma file_name_not_hidden y m : ishidden (file_name y m) = false.
Proof.
  unfold file_name.
  pose proof (str_numeric y) as H.
  destruct (str y) as [|c s] eqn:E; simpl; [reflexivity|].
  simpl in H. apply andb_true_iff in H. destruct H as [H _].
  destruct (Ascii.eqb_spec c "."); [subst c; discriminate|reflexivity].
Qed.

(** A name that matches a year's pattern begins with the year, and so
    with no dot. *)
Lemma matched_not_hidden name year :
  fnmatch name (grib_pattern year) = true -> ishidden name = false.
Proof.
  unfold grib_pattern. intros M.
  apply fnmatch_numeric_prefix in M; [|apply str_numeric].
  destruct M as [rest [-> _]].
  pose proof (str_numeric year) as Hnum.
  pose proof (str_nonempty year) as Hne.
  destruct (str year) as [|c s]; [contradiction|].
  simpl in *. apply andb_true_iff in Hnum. destruct Hnum as [Hc _].
  destruct (Ascii.eqb_spec c "."); [subst c; discriminate|reflexivity].
Qed.

Lemma join_inj d a b : join d a = join d b -> a = b.
Proof.
  unfold join. intros H. apply append_left_cancel in H.
  injection H as H. exact H.
Qed.

Lemma path_join_prefix d name : path_join d name = (path_prefix d ++ name)%string.
Proof.
  unfold path_join, path_prefix.
  destruct ((d =? "")%string || ends_with_slash d); [reflexivity|].
  rewrite append_assoc. reflexivity.
Qed.

Lemma path_join_inj d a b : path_join d a = path_join d b -> a = b.
Proof. rewrite !path_join_prefix. apply append_left_cancel. Qed.

(** *** The bounds of [translate] and of the directory part *)

Lemma upto_bracket_length s : forall stuff rest,
  upto_bracket s = Some (stuff, rest) ->
  (String.length rest < String.length s)%nat.
Proof.
  induction s as [|c s IH]; intros stuff rest; simpl; [discriminate|].
  destruct (Ascii.eqb c "]").
  - intros [= _ <-]. lia.
  - destruct (upto_bracket s) as [[stuff' rest']|]; [|discriminate].
    intros [= _ <-]. specialize (IH stuff' rest' eq_refl). lia.
Qed.

Ltac bracket_case :=
  cbn [append];
  match goal with
  | |- match upto_bracket ?s with _ => _ end = _ -> _ =>
      let E := fresh "E" in
      destruct (upto_bracket s) as [[? ?]|] eqn:E; [|discriminate];
      intros [= _ <-]; apply upto_bracket_length in E;
      cbn [String.length] in *; lia
  end.

(** What follows a bracket expression is shorter than what follows its
    opening bracket. *)
Lemma bracket_length s stuff rest :
  bracket s = Some (stuff, rest) ->
  (String.length rest < String.length s)%nat.
Proof.
  unfold bracket. destruct s as [|c s]; [discriminate|].
  destruct c as [[] [] [] [] [] [] [] []]; try bracket_case.
  destruct s as [|c s]; [discriminate|].
  destruct c as [[] [] [] [] [] [] [] []]; bracket_case.
Qed.

Lemma translate_fuel n : forall m pat,
  (String.length pat <= n)%nat -> (String.length pat <= m)%nat ->
  translate n pat = translate m pat.
Proof.
  induction n as [|n IH]; intros m pat Hn Hm.
  - destruct pat; [|simpl in Hn; lia]. destruct m; reflexivity.
  - destruct pat as [|c pat]; [destruct m; reflexivity|].
    destruct m as [|m]; [simpl in Hm; lia|].
    cbn [String.length] in Hn, Hm. cbn [translate].
    rewrite (IH m pat) by lia.
    destruct (bracket pat) as [[stuff rest]|] eqn:B; [|reflexivity].
    apply bracket_length in B. rewrite (IH m rest) by lia. reflexivity.
Qed.

(** The bound on the number of pieces cuts no pattern short: with any
    larger one the answer is the same. *)
Lemma fnmatch_fuel n name pat :
  (String.length pat <= n)%nat ->
  matches (translate n pat) name = fnmatch name pat.
Proof.
  intros H. unfold fnmatch.
  rewrite (translate_fuel n (String.length pat) pat); auto.
Qed.

(** *** The directory part of the pattern *)

Lemma has_magic_app a b : has_magic (a ++ b) = has_magic a || has_magic b.
Proof.
  induction a as [|c a IH]; simpl; [reflexivity|].
  rewrite IH, !orb_assoc. reflexivity.
Qed.

Lemma has_magic_numeric l : all_chars numeric l = true -> has_magic l = false.
Proof.
  induction l as [|c l IH]; simpl; [reflexivity|].
  intros H. apply andb_true_iff in H. destruct H as [Hc Hl].
  destruct (numeric_plain c Hc) as (-> & -> & -> & _). exact (IH Hl).
Qed.

Lemma grib_pattern_magic year : has_magic (grib_pattern year) = true.
Proof.
  unfold grib_pattern. rewrite has_magic_app.
  rewrite (has_magic_numeric _ (str_numeric year)). reflexivity.
Qed.

Lemma grib_pattern_not_hidden year : ishidden (grib_pattern year) = false.
Proof.
  unfold grib_pattern.
  pose proof (str_numeric year) as H.
  destruct (str year) as [|c s] eqn:E; simpl; [reflexivity|].
  simpl in H. apply andb_true_iff in H. destruct H as [H _].
  destruct (Ascii.eqb_spec c "."); [subst c; discriminate|reflexivity].
Qed.

Lemma grib_pattern_no_slash year : no_slash (grib_pattern year) = true.
Proof.
  unfold no_slash, grib_pattern. rewrite all_chars_app.
  apply andb_true_iff. split; [|reflexivity].
  pose proof (str_numeric year) as H.
  induction (str year) as [|c s IH]; simpl in *; [reflexivity|].
  apply andb_true_iff in H. destruct H as [Hc Hs].
  destruct (numeric_plain c Hc) as (_ & _ & _ & ->). exact (IH Hs).
Qed.

Lemma cut_no_slash p :
  no_slash p = true -> cut_at_last_slash p = (EmptyString, p).
Proof.
  unfold no_slash. induction p as [|c p IH]; simpl; [reflexivity|].
  intros H. apply andb_true_iff in H. destruct H as [Hc Hp].
  rewrite (IH Hp). apply negb_true_iff in Hc. rewrite Hc. reflexivity.
Qed.

(** A path whose last part holds no slash is cut before that part. *)
Lemma cut_at_last_slash_app a p :
  no_slash p = true ->
  cut_at_last_slash (a ++ String "/" p) = ((a ++ "/")%string, p).
Proof.
  intros Hp. induction a as [|c a IH].
  - cbn [append cut_at_last_slash]. rewrite (cut_no_slash p Hp). reflexivity.
  - cbn [append cut_at_last_slash]. rewrite IH.
    destruct a; reflexivity.
Qed.

Lemma split_pattern dirname pattern :
  no_slash pattern = true ->
  split (dirname ++ "/" ++ pattern) = (head_of dirname, pattern).
Proof.
  intros Hp. unfold head_of, split.
  change ((dirname ++ "/" ++ pattern)%string)
    with ((dirname ++ String "/" pattern)%string).
  change ((dirname ++ "/")%string) with ((dirname ++ String "/" "")%string).
  rewrite (cut_at_last_slash_app dirname pattern Hp).
  rewrite (cut_at_last_slash_app dirname "" eq_refl). reflexivity.
Qed.

Lemma rstrip_all_slashes s : all_slashes s = true -> rstrip_slashes s = "".
Proof.
  induction s as [|c s IH]; simpl; [reflexivity|].
  intros H. apply andb_true_iff in H. destruct H as [Hc Hs].
  rewrite (IH Hs), Hc. reflexivity.
Qed.

Lemma rstrip_nonempty s : all_slashes s = false -> rstrip_slashes s <> "".
Proof.
  induction s as [|c s IH]; simpl; [discriminate|].
  intros H. destruct (rstrip_slashes s) eqn:R; [|discriminate].
  destruct (is_slash c) eqn:C; [|discriminate].
  simpl in H. exfalso. apply IH; [exact H|reflexivity].
Qed.

Lemma head_of_nonempty dirname : head_of dirname <> "".
Proof.
  unfold head_of, split.
  change ((dirname ++ "/")%string) with ((dirname ++ String "/" "")%string).
  rewrite (cut_at_last_slash_app dirname "" eq_refl). cbn [fst].
  destruct (all_slashes (dirname ++ "/")) eqn:A.
  - destruct dirname; discriminate.
  - apply rstrip_nonempty. exact A.
Qed.

Lemma has_magic_rstrip s : has_magic (rstrip_slashes s) = has_magic s.
Proof.
  induction s as [|c s IH]; simpl; [reflexivity|].
  destruct (rstrip_slashes s) as [|x r] eqn:R.
  - simpl in IH. rewrite <- IH.
    destruct (is_slash c) eqn:C.
    + unfold is_slash in C. apply Ascii.eqb_eq in C. subst c. reflexivity.
    + simpl. rewrite !orb_false_r. reflexivity.
  - cbn [has_magic]. rewrite <- IH. reflexivity.
Qed.

Lemma has_magic_head_of dirname : has_magic (head_of dirname) = has_magic dirname.
Proof.
  unfold head_of, split.
  change ((dirname ++ "/")%string) with ((dirname ++ String "/" "")%string).
  rewrite (cut_at_last_slash_app dirname "" eq_refl). cbn [fst].
  assert (H : has_magic (dirname ++ "/") = has_magic dirname)
    by (rewrite has_magic_app; apply orb_false_r).
  destruct (all_slashes _); [exact H|]. rewrite has_magic_rstrip. exact H.
Qed.

(** A directory part without glob characters is the path of the directory. *)
Lemma input_dir_plain dirname :
  has_magic dirname = false -> input_dir dirname = Some (head_of dirname).
Proof.
  intros H. unfold input_dir. rewrite has_magic_head_of, H. reflexivity.
Qed.

Lemma last_char_cons c s :
  s <> "" -> last_char (String c s) = last_char s.
Proof. destruct s; [contradiction|reflexivity]. Qed.

Lemma rstrip_app_slash d :
  d <> "" -> ends_with_slash d = false ->
  all_slashes (d ++ "/") = false /\ rstrip_slashes (d ++ "/") = d.
Proof.
  unfold ends_with_slash. induction d as [|c d IH]; [contradiction|].
  intros _ H. destruct d as [|c' d].
  - cbn in H. cbn. rewrite H. auto.
  - rewrite last_char_cons in H by discriminate.
    destruct (IH ltac:(discriminate) H) as [IH1 IH2].
    change ((String c (String c' d) ++ "/")%string)
      with (String c (String c' d ++ "/")).
    cbn [all_slashes rstrip_slashes]. rewrite IH1, IH2, andb_false_r. auto.
Qed.

(** Without a slash at its end, the directory part is kept as it is
    written, and the paths of [glob] are those of the f-string. *)
Lemma path_join_head_of dirname name :
  ends_with_slash dirname = false ->
  path_join (head_of dirname) name = join dirname name.
Proof.
  intros H. destruct dirname as [|c d]; [reflexivity|].
  unfold head_of, split.
  change ((String c d ++ "/")%string) with ((String c d ++ String "/" "")%string).
  rewrite (cut_at_last_slash_app (String c d) "" eq_refl). cbn [fst].
  destruct (rstrip_app_slash (String c d) ltac:(discriminate) H) as [-> ->].
  unfold path_join, join. cbn [String.eqb orb]. rewrite H. reflexivity.
Qed.

Lemma cut_at_last_slash_spec p :
  p = (fst (cut_at_last_slash p) ++ snd (cut_at_last_slash p))%string
  /\ (fst (cut_at_last_slash p) = ""
      \/ ends_with_slash (fst (cut_at_last_slash p)) = true).
Proof.
  induction p as [|c p [IH1 IH2]]; [simpl; auto|].
  cbn [cut_at_last_slash].
  destruct (cut_at_last_slash p) as [head tl]. cbn [fst snd] in *.
  destruct head as [|h head].
  - destruct (is_slash c) eqn:C; cbn [fst snd append].
    + split; [rewrite IH1 at 1; reflexivity|]. right.
      unfold ends_with_slash. simpl. exact C.
    + split; [rewrite IH1 at 1; reflexivity|]. left. reflexivity.
  - cbn [fst snd append]. split; [rewrite IH1 at 1; reflexivity|].
    right. destruct IH2 as [|IH2]; [discriminate|].
    unfold ends_with_slash in *. rewrite last_char_cons by discriminate.
    exact IH2.
Qed.

Lemma rstrip_shorter s :
  ends_with_slash s = true ->
  (String.length (rstrip_slashes s) < String.length s)%nat.
Proof.
  unfold ends_with_slash. induction s as [|c s IH]; [discriminate|].
  destruct s as [|c' s].
  - cbn. intros ->. simpl. lia.
  - rewrite last_char_cons by discriminate. intros H. specialize (IH H).
    cbn [rstrip_slashes] in *.
    destruct (match rstrip_slashes s with "" => _ | String a s0 => _ end);
      [destruct (is_slash c)|]; cbn [String.length] in *; lia.
Qed.

Lemma has_magic_all_slashes s : all_slashes s = true -> has_magic s = false.
Proof.
  induction s as [|c s IH]; simpl; [reflexivity|].
  intros H. apply andb_true_iff in H. destruct H as [Hc Hs].
  unfold is_slash in Hc. apply Ascii.eqb_eq in Hc. subst c.
  rewrite (IH Hs). reflexivity.
Qed.

(** The directory part of a path is shorter than the path when it holds a
    glob character. *)
Lemma split_head_shorter p :
  has_magic (fst (split p)) = true ->
  (String.length (fst (split p)) < String.length p)%nat.
Proof.
  unfold split. destruct (cut_at_last_slash_spec p) as [Hp Hh].
  destruct (cut_at_last_slash p) as [head tl]. cbn [fst snd] in *.
  destruct (all_slashes head) eqn:A; cbn [fst].
  - intros H. rewrite (has_magic_all_slashes head A) in H. discriminate.
  - intros _. destruct Hh as [->|Hh]; [discriminate|].
    apply rstrip_shorter in Hh.
    rewrite Hp, length_append. lia.
Qed.

Lemma iglob_dir_fuel n : forall m p,
  has_magic p = true ->
  (String.length p <= n)%nat -> (String.length p <= m)%nat ->
  iglob_dir n p = iglob_dir m p.
Proof.
  induction n as [|n IH]; intros m p Hp Hn Hm.
  - destruct p; [discriminate|simpl in Hn; lia].
  - destruct m as [|m]; [destruct p; [discriminate|simpl in Hm; lia]|].
    cbn [iglob_dir].
    pose proof (split_head_shorter p) as Hs.
    destruct (split p) as [dirname basename]. cbn [fst] in Hs.
    destruct (has_magic dirname) eqn:D; [|reflexivity].
    rewrite (IH m dirname D) by (specialize (Hs eq_refl); lia).
    reflexivity.
Qed.

(** The bound on the depth of the directory part cuts no path short. *)
Lemma input_dir_fuel dirname n :
  has_magic dirname = true ->
  (String.length (head_of dirname) <= n)%nat ->
  iglob_dir n (head_of dirname) = input_dir dirname.
Proof.
  intros Hm Hn. unfold input_dir. rewrite has_magic_head_of, Hm.
  apply iglob_dir_fuel; [rewrite has_magic_head_of; exact Hm|exact Hn|lia].
Qed.

(** *** The files [glob] finds for a year *)

Lemma glob_grib dirname dir year :
  glob dirname dir (grib_pattern year)
  = match input_dir dirname with
    | None => []
    | Some d =>
        map (path_join d)
            (filter (fun name => fnmatch name (grib_pattern year))
                    (map fst dir))
    end.
Proof.
  unfold glob.
  rewrite (split_pattern dirname _ (grib_pattern_no_slash year)).
  assert (Hm : has_magic (dirname ++ "/" ++ grib_pattern year) = true).
  { rewrite !has_magic_app, grib_pattern_magic, !orb_true_r. reflexivity. }
  rewrite Hm. cbn [negb].
  destruct (String.eqb_spec (head_of dirname) "") as [E|_];
    [exfalso; exact (head_of_nonempty dirname E)|].
  fold (input_dir dirname).
  destruct (input_dir dirname) as [d|]; [|reflexivity].
  rewrite grib_pattern_magic. unfold glob1. f_equal.
  apply filter_ext. intros name.
  destruct (fnmatch name (grib_pattern year)) eqn:M;
    [|apply andb_false_r].
  rewrite (matched_not_hidden name year M). reflexivity.
Qed.

Lemma in_glob dirname dir year path :
  In path (glob dirname dir (grib_pattern year)) <->
  exists d name,
    input_dir dirname = Some d /\ path = path_join d name
    /\ In name (map fst dir) /\ fnmatch name (grib_pattern year) = true.
Proof.
  rewrite glob_grib. destruct (input_dir dirname) as [d|].
  - rewrite in_map_iff. split.
    + intros (name & <- & Hn). apply filter_In in Hn.
      exists d, name. tauto.
    + intros (d' & name & [= <-] & -> & Hn & Hm). exists name.
      split; [reflexivity|]. apply filter_In. auto.
  - split; [intros []|]. intros (d & name & H & _). discriminate.
Qed.

End GlobFacts.

(** ** The calendar *)

Section CalendarFacts.

Lemma isleap_gregorian y : isleap y = true <-> gregorian_leap y.
Proof.
  unfold isleap, gregorian_leap.
  rewrite andb_true_iff, orb_true_iff, negb_true_iff, !Z.eqb_eq, Z.eqb_neq.
  rewrite <- !Z.mod_divide by lia. tauto.
Qed.

Lemma month_cases m :
  1 <= m <= 12 ->
  m = 1 \/ m = 2 \/ m = 3 \/ m = 4 \/ m = 5 \/ m = 6 \/ m = 7 \/ m = 8
  \/ m = 9 \/ m = 10 \/ m = 11 \/ m = 12.
Proof. lia. Qed.

Ltac each_month H :=
  apply month_cases in H;
  repeat (destruct H as [H|H]; [subst|]); [..|subst].

Lemma monthrange_ndays_length y m :
  1 <= m <= 12 ->
  monthrange_ndays y m = Return (month_length (isleap y) m).
Proof.
  intros H. unfold monthrange_ndays.
  each_month H; simpl; try reflexivity.
  destruct (isleap y); reflexivity.
Qed.

Lemma days_in_month_length y m :
  1 <= m <= 12 -> days_in_month y m = month_length (isleap y) m.
Proof.
  intros H. unfold days_in_month.
  each_month H; reflexivity.
Qed.

Lemma february_day_number y :
  day_number y 3 1 - day_number y 2 1 = if isleap y then 29 else 28.
Proof.
  unfold day_number, isleap.
  cbn [Z.leb Z.compare Pos.compare Pos.compare_cont].
  change ((3 + 9) mod 12) with 0. change ((2 + 9) mod 12) with 11.
  change ((153 * 0 + 2) / 5) with 0. change ((153 * 11 + 2) / 5) with 337.
  destruct (Z.eqb_spec (y mod 4) 0), (Z.eqb_spec (y mod 100) 0),
    (Z.eqb_spec (y mod 400) 0); cbn [negb andb orb];
    Z.div_mod_to_equations; lia.
Qed.

(** The table of [calendar] and the leap rule agree with the count of
    days between the firsts of consecutive months. *)
Lemma month_length_day_number y m :
  1 <= m <= 12 -> days_to_next_month y m = month_length (isleap y) m.
Proof.
  intros H. unfold days_to_next_month. apply month_cases in H.
  repeat (destruct H as [H|H]; [subst m|]); try subst m;
    try (cbn [Z.eqb Pos.eqb Z.add Pos.add Pos.succ];
         apply february_day_number);
    unfold day_number; cbn -[Z.div Z.modulo Z.mul Z.sub Z.add];
    try (replace (y + 1 - 1) with y by lia);
    cbn; lia.
Qed.

Lemma month_length_bounds leap m :
  1 <= m <= 12 -> 28 <= month_length leap m <= 31.
Proof. intros H. each_month H; destruct leap; simpl; lia. Qed.

Lemma datetime_first y m :
  MINYEAR <= y <= MAXYEAR -> 1 <= m <= 12 ->
  datetime y m 1 = Return (mkdate y m 1).
Proof.
  intros Hy Hm. unfold datetime.
  replace ((MINYEAR <=? y) && (y <=? MAXYEAR)) with true
    by (symmetry; apply andb_true_iff; split; apply Z.leb_le; lia).
  replace ((1 <=? m) && (m <=? 12)) with true
    by (symmetry; apply andb_true_iff; split; apply Z.leb_le; lia).
  rewrite days_in_month_length by assumption.
  pose proof (month_length_bounds (isleap y) m Hm).
  replace (1 <=? month_length (isleap y) m) with true
    by (symmetry; apply Z.leb_le; lia).
  reflexivity.
Qed.

Lemma datetime_inv y m d x :
  datetime y m d = Return x ->
  x = mkdate y m d /\ MINYEAR <= y <= MAXYEAR /\ 1 <= m <= 12.
Proof.
  unfold datetime.
  destruct ((MINYEAR <=? y) && (y <=? MAXYEAR)) eqn:Hy; [|discriminate].
  destruct ((1 <=? m) && (m <=? 12)) eqn:Hm; [|discriminate].
  destruct ((1 <=? d) && (d <=? days_in_month y m)); [|discriminate].
  simpl. intros [= <-].
  apply andb_true_iff in Hy, Hm.
  rewrite !Z.leb_le in Hy, Hm. auto.
Qed.

Lemma datetime_raises y m d e : datetime y m d = Raise e -> e = ValueError.
Proof.
  unfold datetime.
  repeat match goal with
         | |- context [if ?b then _ else _] => destruct b
         end; congruence.
Qed.

Lemma date_leb_index cy cm ey em :
  1 <= cm <= 12 -> 1 <= em <= 12 ->
  date_leb (mkdate cy cm 1) (mkdate ey em 1)
  = (month_index cy cm <=? month_index ey em).
Proof.
  intros Hc He. unfold date_leb, month_index. cbn [year month day].
  destruct (Z.ltb_spec cy ey), (Z.eqb_spec cy ey), (Z.ltb_spec cm em),
    (Z.eqb_spec cm em), (Z.leb_spec (12 * cy + (cm - 1)) (12 * ey + (em - 1)));
    cbn [orb andb]; try reflexivity; lia.
Qed.

Lemma month_of_index_index y m :
  1 <= m <= 12 -> month_of_index (month_index y m) = (y, m).
Proof.
  intros H. unfold month_of_index, month_index.
  f_equal; Z.div_mod_to_equations; lia.
Qed.

Lemma range_nil lo hi : hi <= lo -> range lo hi = [].
Proof.
  intros H. unfold range.
  replace (Z.to_nat (hi - lo)) with 0%nat by lia. reflexivity.
Qed.

Lemma range_cons lo hi : lo < hi -> range lo hi = lo :: range (lo + 1) hi.
Proof.
  intros H. unfold range.
  replace (Z.to_nat (hi - lo)) with (S (Z.to_nat (hi - (lo + 1)))) by lia.
  simpl. f_equal; [lia|].
  rewrite <- seq_shift, map_map.
  apply map_ext. intros i. lia.
Qed.

Lemma in_range lo hi i : In i (range lo hi) <-> lo <= i < hi.
Proof.
  unfold range. rewrite in_map_iff. split.
  - intros [k [<- Hk]]. apply in_seq in Hk. lia.
  - intros H. exists (Z.to_nat (i - lo)). split; [lia|].
    apply in_seq. lia.
Qed.

Lemma range_NoDup lo hi : NoDup (range lo hi).
Proof.
  unfold range. apply Finite.Injective_map_NoDup; [|apply seq_NoDup].
  intros a b H. lia.
Qed.

Lemma range_length lo hi : List.length (range lo hi) = Z.to_nat (hi - lo).
Proof. unfold range. rewrite length_map, length_seq. reflexivity. Qed.

(** [calendar_months] lists each calendar month of the inclusive range,
    and lists it once. *)
Lemma in_calendar_months sy sm ey em y m :
  1 <= m <= 12 ->
  In (y, m) (calendar_months sy sm ey em) <->
  month_index sy sm <= month_index y m <= month_index ey em.
Proof.
  intros Hm. unfold calendar_months. rewrite in_map_iff. split.
  - intros [i [Hi Hr]]. apply in_range in Hr.
    unfold month_of_index in Hi. injection Hi as Hy Hmm.
    unfold month_index in *. Z.div_mod_to_equations. lia.
  - intros H. exists (month_index y m). split.
    + apply month_of_index_index; assumption.
    + apply in_range. lia.
Qed.

Lemma calendar_months_NoDup sy sm ey em :
  NoDup (calendar_months sy sm ey em).
Proof.
  unfold calendar_months.
  apply Finite.Injective_map_NoDup; [|apply range_NoDup].
  intros a b H. unfold month_of_index in H. injection H as H1 H2.
  Z.div_mod_to_equations. lia.
Qed.

Lemma calendar_months_valid sy sm ey em :
  Forall (fun ym => 1 <= snd ym <= 12) (calendar_months sy sm ey em).
Proof.
  unfold calendar_months. apply Forall_map, Forall_forall.
  intros i _. unfold month_of_index. simpl.
  Z.div_mod_to_equations. lia.
Qed.

End CalendarFacts.

(** ** The Fetcher *)

Section FetcherFacts.

Import Fetcher.

Lemma date_list_from_unfold current end_date :
  date_list_from current end_date =
  if date_leb current end_date then
    match next_month current with
    | Raise e => Raise e
    | Return next =>
        match date_list_from next end_date with
        | Return rest => Return ((year current, month current) :: rest)
        | Raise e => Raise e
        end
    end
  else Return [].
Proof.
  rewrite date_list_from_equation_1.
  destruct (inspect (date_leb current end_date)) as [[|] Hb].
  - rewrite date_list_from_clause_1_equation_1.
    etransitivity; [|rewrite Hb; reflexivity].
    destruct (inspect (next_month current)) as [[next|e] Hn].
    + rewrite date_list_from_clause_1_clause_2_equation_1.
      etransitivity; [|rewrite Hn; reflexivity]. reflexivity.
    + rewrite date_list_from_clause_1_clause_2_equation_2.
      etransitivity; [|rewrite Hn; reflexivity]. reflexivity.
  - rewrite date_list_from_clause_1_equation_2.
    rewrite Hb. reflexivity.
Qed.

(** The successor of a month that is not December 9999. *)
Lemma next_month_ok cy cm cd :
  MINYEAR <= cy <= MAXYEAR -> 1 <= cm <= 12 ->
  month_index cy cm < month_index MAXYEAR 12 ->
  exists ny nm,
    next_month (mkdate cy cm cd) = Return (mkdate ny nm 1)
    /\ MINYEAR <= ny <= MAXYEAR /\ 1 <= nm <= 12
    /\ month_index ny nm = month_index cy cm + 1.
Proof.
  unfold MINYEAR, MAXYEAR, month_index. intros Hy Hm Hlt.
  unfold next_month. cbn [year month].
  destruct (Z.eqb_spec cm 12) as [->|Hne].
  - exists (cy + 1), 1. rewrite datetime_first by (unfold MINYEAR, MAXYEAR; lia).
    repeat split; lia.
  - exists cy, (cm + 1). rewrite datetime_first by (unfold MINYEAR, MAXYEAR; lia).
    repeat split; lia.
Qed.

Lemma next_month_december_9999 cd :
  next_month (mkdate MAXYEAR 12 cd) = Raise ValueError.
Proof. reflexivity. Qed.

(** The loop lists the calendar months from the cursor to the end date,
    whenever the month after the end date is still a [datetime]. *)
Lemma date_list_from_months n : forall cy cm ey em,
  MINYEAR <= cy <= MAXYEAR -> 1 <= cm <= 12 ->
  1 <= em <= 12 ->
  month_index ey em < month_index MAXYEAR 12 ->
  Z.to_nat (month_index ey em + 1 - month_index cy cm) = n ->
  date_list_from (mkdate cy cm 1) (mkdate ey em 1)
  = Return (calendar_months cy cm ey em).
Proof.
  induction n as [|n IH]; intros cy cm ey em Hcy Hcm Hem Hmax Hn;
    rewrite date_list_from_unfold, date_leb_index by assumption;
    unfold calendar_months.
  - destruct (Z.leb_spec (month_index cy cm) (month_index ey em)); [lia|].
    rewrite range_nil by lia. reflexivity.
  - destruct (Z.leb_spec (month_index cy cm) (month_index ey em)); [|lia].
    destruct (next_month_ok cy cm 1 Hcy Hcm) as (ny & nm & Hnext & Hny & Hnm & Hidx);
      [lia|].
    rewrite Hnext, (IH ny nm ey em) by (assumption || lia).
    cbn [year month].
    rewrite (range_cons (month_index cy cm)) by lia.
    cbn [map]. rewrite month_of_index_index by assumption.
    unfold calendar_months. rewrite Hidx. reflexivity.
Qed.

(** A range that ends in December 9999 makes the loop step past the last
    year a [datetime] can hold. *)
Lemma date_list_from_december_9999 n : forall cy cm,
  MINYEAR <= cy <= MAXYEAR -> 1 <= cm <= 12 ->
  Z.to_nat (month_index MAXYEAR 12 - month_index cy cm) = n ->
  date_list_from (mkdate cy cm 1) (mkdate MAXYEAR 12 1) = Raise ValueError.
Proof.
  induction n as [|n IH]; intros cy cm Hcy Hcm Hn;
    rewrite date_list_from_unfold, date_leb_index by (assumption || lia).
  - assert (cy = MAXYEAR /\ cm = 12) as [-> ->]
      by (unfold month_index, MINYEAR, MAXYEAR in *; lia).
    reflexivity.
  - destruct (Z.leb_spec (month_index cy cm) (month_index MAXYEAR 12));
      [|unfold month_index, MINYEAR, MAXYEAR in *; lia].
    destruct (next_month_ok cy cm 1 Hcy Hcm) as (ny & nm & Hnext & Hny & Hnm & Hidx);
      [lia|].
    rewrite Hnext, (IH ny nm) by (assumption || lia). reflexivity.
Qed.

Lemma fetch_month_ok cds target_path variables area y m :
  1 <= m <= 12 ->
  (forall r t, retrieve cds "reanalysis-era5-land" r t = None) ->
  fetch_month cds target_path variables area (y, m)
  = ([Retrieve "reanalysis-era5-land"
        (request_of variables area y m (month_length (isleap y) m))
        (target_of target_path y m);
      Print ("Data downloaded to " ++ target_of target_path y m)%string],
     Return tt).
Proof.
  intros Hm Hok. unfold fetch_month.
  rewrite monthrange_ndays_length by assumption.
  unfold bind, lift, emit. rewrite Hok. reflexivity.
Qed.

Lemma for_each_fetch cds target_path variables area months :
  Forall (fun ym => 1 <= snd ym <= 12) months ->
  (forall r t, retrieve cds "reanalysis-era5-land" r t = None) ->
  outcome (for_each months (fetch_month cds target_path variables area))
  = Return tt
  /\ requests (trace (for_each months
                        (fetch_month cds target_path variables area)))
     = map (expected_request target_path variables area) months.
Proof.
  intros Hv Hok. induction Hv as [|[y m] months Hm _ IH].
  - split; reflexivity.
  - cbn [for_each]. rewrite fetch_month_ok by assumption.
    destruct (for_each months _) as [tr r].
    unfold outcome, trace in *. cbn in *. destruct IH as [-> ->].
    split; reflexivity.
Qed.

Lemma req_day_length variables area y m n :
  List.length (req_day (request_of variables area y m n)) = Z.to_nat n.
Proof.
  unfold request_of. cbn [req_day].
  rewrite length_map, range_length. f_equal. lia.
Qed.

(** C1, for every range that ends before December 9999: when the client
    can be built and no retrieval fails, the run returns, and its requests
    are those of the calendar months from the start to the end, one for
    each month and in order, each with as many days as its month has, 29
    for the February of a leap year.  (A start after the end gives the
    empty list of months.) *)
Theorem api_era5_land_requests cds target_path sy sm ey em variables area :
  MINYEAR <= sy <= MAXYEAR -> 1 <= sm <= 12 ->
  MINYEAR <= ey <= MAXYEAR -> 1 <= em <= 12 ->
  month_index ey em < month_index MAXYEAR 12 ->
  Client cds = None ->
  (forall r t, retrieve cds "reanalysis-era5-land" r t = None) ->
  let run := api_era5_land cds target_path sy sm ey em variables area in
  outcome run = Return tt
  /\ requests (trace run)
     = map (expected_request target_path variables area)
           (calendar_months sy sm ey em)
  /\ Forall (fun rt =>
       exists y m leap, In (y, m) (calendar_months sy sm ey em)
         /\ (leap = true <-> gregorian_leap y)
         /\ req_year (fst rt) = str y /\ req_month (fst rt) = format_02d m
         /\ List.length (req_day (fst rt)) = Z.to_nat (month_length leap m)
         /\ month_length leap m = days_to_next_month y m)
       (requests (trace run)).
Proof.
  intros Hsy Hsm Hey Hem Hmax Hclient Hok run.
  assert (Hrun : run = for_each (calendar_months sy sm ey em)
                         (fetch_month cds target_path variables area)).
  { unfold run, api_era5_land.
    rewrite !datetime_first by assumption.
    unfold bind at 1. unfold lift at 1.
    unfold bind at 1. unfold lift at 1.
    rewrite (date_list_from_months _ sy sm ey em Hsy Hsm Hem Hmax eq_refl).
    unfold bind at 1. unfold lift at 1.
    rewrite Hclient. unfold or_raise, ret, bind at 1.
    destruct (for_each _ _). reflexivity. }
  destruct (for_each_fetch cds target_path variables area
              (calendar_months sy sm ey em)
              (calendar_months_valid sy sm ey em) Hok) as [Hout Hreq].
  rewrite Hrun. repeat split; try assumption.
  rewrite Hreq. apply Forall_forall. intros rt Hin.
  apply in_map_iff in Hin. destruct Hin as [[y m] [<- Hin]].
  exists y, m, (isleap y). unfold expected_request. cbn [fst snd].
  split; [assumption|]. split; [apply isleap_gregorian|].
  repeat split; [apply req_day_length|].
  symmetry. apply month_length_day_number.
  exact (proj1 (Forall_forall _ _) (calendar_months_valid sy sm ey em)
           (y, m) Hin).
Qed.

End FetcherFacts.

(** ** Order on timestamps and on path names *)

Section OrderFacts.

Import Aggregator.

Ltac dt_cases a b :=
  destruct (Z.ltb_spec (dt_year a) (dt_year b)),
    (Z.eqb_spec (dt_year a) (dt_year b)),
    (Z.ltb_spec (dt_month a) (dt_month b)),
    (Z.eqb_spec (dt_month a) (dt_month b)),
    (Z.ltb_spec (dt_day a) (dt_day b)),
    (Z.eqb_spec (dt_day a) (dt_day b)),
    (Z.ltb_spec (dt_nanos a) (dt_nanos b)),
    (Z.eqb_spec (dt_nanos a) (dt_nanos b));
  cbn [orb andb]; try lia.

Lemma dt_eqb_eq a b : dt_eqb a b = true <-> a = b.
Proof.
  unfold dt_eqb. rewrite !andb_true_iff, !Z.eqb_eq. split.
  - intros [[[H1 H2] H3] H4]. destruct a, b; simpl in *. congruence.
  - intros ->. auto.
Qed.

Lemma dt_ltb_irrefl a : dt_ltb a a = false.
Proof. unfold dt_ltb. dt_cases a a; reflexivity. Qed.

Lemma dt_ltb_trans a b c :
  dt_ltb a b = true -> dt_ltb b c = true -> dt_ltb a c = true.
Proof.
  unfold dt_ltb.
  dt_cases a b; try discriminate; intros _;
    dt_cases b c; try discriminate; intros _;
    dt_cases a c; reflexivity.
Qed.

Lemma dt_leb_total a b : dt_leb a b = true \/ dt_leb b a = true.
Proof.
  unfold dt_leb, dt_ltb, dt_eqb.
  dt_cases a b; dt_cases b a; auto.
Qed.

Lemma dt_leb_ltb a b : dt_leb a b = true <-> dt_ltb a b = true \/ a = b.
Proof. unfold dt_leb. rewrite orb_true_iff, dt_eqb_eq. tauto. Qed.

Lemma dt_leb_refl a : dt_leb a a = true.
Proof. apply dt_leb_ltb. auto. Qed.

Lemma dt_leb_trans a b c :
  dt_leb a b = true -> dt_leb b c = true -> dt_leb a c = true.
Proof.
  rewrite !dt_leb_ltb. intros [H1| ->] [H2| ->]; auto.
  left. eapply dt_ltb_trans; eassumption.
Qed.

Lemma dt_leb_antisym a b :
  dt_leb a b = true -> dt_leb b a = true -> a = b.
Proof.
  rewrite !dt_leb_ltb. intros [H1|H1] [H2|H2]; auto.
  pose proof (dt_ltb_trans _ _ _ H1 H2) as H.
  rewrite dt_ltb_irrefl in H. discriminate.
Qed.

Lemma dt_leb_false_ltb a b : dt_leb a b = false -> dt_ltb b a = true.
Proof.
  intros H. destruct (dt_leb_total a b) as [H'|H']; [congruence|].
  apply dt_leb_ltb in H'. destruct H' as [H'| ->]; [assumption|].
  rewrite dt_leb_refl in H. discriminate.
Qed.

(** An earlier calendar year is an earlier time. *)
Lemma dt_year_lt a b : dt_year a < dt_year b -> dt_ltb a b = true.
Proof.
  intros H. unfold dt_ltb.
  destruct (Z.ltb_spec (dt_year a) (dt_year b)); [reflexivity|lia].
Qed.

End OrderFacts.

(** ** The stable sort *)

Section SortFacts.

Context {A : Type} (leb : A -> A -> bool).

Let le (a b : A) : Prop := leb a b = true.

Hypothesis leb_total : forall a b, leb a b = true \/ leb b a = true.
Hypothesis leb_trans :
  forall a b c, leb a b = true -> leb b c = true -> leb a c = true.

Lemma insert_stable_perm x l : Permutation (x :: l) (insert_stable leb x l).
Proof.
  induction l as [|y l IH]; simpl; [apply Permutation_refl|].
  destruct (leb x y); [apply Permutation_refl|].
  eapply Permutation_trans; [apply perm_swap|].
  apply perm_skip. exact IH.
Qed.

Lemma sort_stable_perm l : Permutation l (sort_stable leb l).
Proof.
  induction l as [|x l IH]; simpl; [apply perm_nil|].
  eapply Permutation_trans; [apply perm_skip; exact IH|].
  apply insert_stable_perm.
Qed.

Lemma in_sort_stable x l : In x (sort_stable leb l) <-> In x l.
Proof.
  split; apply Permutation_in;
    [apply Permutation_sym|]; apply sort_stable_perm.
Qed.

Lemma insert_stable_sorted x l :
  StronglySorted le l -> StronglySorted le (insert_stable leb x l).
Proof.
  induction 1 as [|y l Hl IH Hy]; simpl.
  - constructor; constructor.
  - destruct (leb x y) eqn:E.
    + constructor; [constructor; assumption|].
      constructor; [exact E|].
      eapply Forall_impl; [|exact Hy].
      intros z Hz. exact (leb_trans _ _ _ E Hz).
    + constructor; [exact IH|].
      assert (Hyx : le y x)
        by (destruct (leb_total x y) as [H'|H']; [congruence|exact H']).
      eapply Permutation_Forall; [apply insert_stable_perm|].
      constructor; assumption.
Qed.

Lemma sort_stable_sorted l : StronglySorted le (sort_stable leb l).
Proof.
  induction l as [|x l IH]; simpl; [constructor|].
  apply insert_stable_sorted. exact IH.
Qed.

(** Under an antisymmetric order a list has one sorted arrangement. *)
Hypothesis leb_antisym :
  forall a b, leb a b = true -> leb b a = true -> a = b.

Lemma sorted_unique l l' :
  StronglySorted le l -> StronglySorted le l' -> Permutation l l' -> l = l'.
Proof.
  intros Hl. revert l'.
  induction Hl as [|x l Hl IH Hx]; intros l' Hl' Hp.
  - apply Permutation_nil in Hp. subst. reflexivity.
  - destruct Hl' as [|y l' Hl' Hy].
    + apply Permutation_sym, Permutation_nil in Hp. discriminate.
    + assert (x = y).
      { assert (Hxin : In x (y :: l'))
          by (eapply Permutation_in; [exact Hp|left; reflexivity]).
        assert (Hyin : In y (x :: l))
          by (eapply Permutation_in;
              [apply Permutation_sym; exact Hp|left; reflexivity]).
        destruct Hxin as [->|Hxin]; [reflexivity|].
        destruct Hyin as [->|Hyin]; [reflexivity|].
        apply leb_antisym.
        - exact (proj1 (Forall_forall _ _) Hx _ Hyin).
        - exact (proj1 (Forall_forall _ _) Hy _ Hxin). }
      subst y. f_equal. apply IH; [assumption|].
      eapply Permutation_cons_inv. exact Hp.
Qed.

Lemma sort_stable_perm_eq l l' :
  Permutation l l' -> sort_stable leb l = sort_stable leb l'.
Proof.
  intros Hp. apply sorted_unique; try apply sort_stable_sorted.
  eapply Permutation_trans; [apply Permutation_sym, sort_stable_perm|].
  eapply Permutation_trans; [exact Hp|apply sort_stable_perm].
Qed.

End SortFacts.

Section ListFacts.

Context {A : Type}.

Lemma StronglySorted_filter (R : A -> A -> Prop) (f : A -> bool) l :
  StronglySorted R l -> StronglySorted R (filter f l).
Proof.
  induction 1 as [|x l Hl IH Hx]; simpl; [constructor|].
  destruct (f x); [|exact IH].
  constructor; [exact IH|].
  apply Forall_forall. intros y Hy. apply filter_In in Hy.
  exact (proj1 (Forall_forall _ _) Hx _ (proj1 Hy)).
Qed.

Lemma StronglySorted_app (R : A -> A -> Prop) l1 l2 :
  StronglySorted R l1 -> StronglySorted R l2 ->
  (forall a b, In a l1 -> In b l2 -> R a b) ->
  StronglySorted R (l1 ++ l2).
Proof.
  intros H1 H2 H12. induction H1 as [|x l1 Hl IH Hx]; simpl; [exact H2|].
  constructor.
  - apply IH. intros a b Ha Hb. apply H12; [right|]; assumption.
  - apply Forall_app. split; [exact Hx|].
    apply Forall_forall. intros b Hb. apply H12; [left; reflexivity|exact Hb].
Qed.

Lemma StronglySorted_map {B} (R : B -> B -> Prop) (g : A -> B) l :
  StronglySorted (fun a b => R (g a) (g b)) l <-> StronglySorted R (map g l).
Proof.
  induction l as [|x l IH]; simpl; split; intros H; try constructor;
    inversion H; subst.
  - apply IH; assumption.
  - rewrite Forall_map. assumption.
  - apply IH; assumption.
  - rewrite <- Forall_map. assumption.
Qed.

Lemma filter_twice (f g : A -> bool) l :
  filter f (filter g l) = filter (fun x => g x && f x) l.
Proof.
  induction l as [|x l IH]; simpl; [reflexivity|].
  destruct (g x); simpl; [destruct (f x)|]; rewrite IH; reflexivity.
Qed.

Lemma filter_perm (f : A -> bool) l l' :
  Permutation l l' -> Permutation (filter f l) (filter f l').
Proof.
  induction 1; simpl.
  - apply perm_nil.
  - destruct (f x); [apply perm_skip|]; assumption.
  - destruct (f x), (f y); try apply Permutation_refl. apply perm_swap.
  - eapply Permutation_trans; eassumption.
Qed.

Lemma NoDup_filter_map {B} (g : A -> B) (f : A -> bool) l :
  NoDup (map g l) -> NoDup (map g (filter f l)).
Proof.
  induction l as [|x l IH]; simpl; intros H; [constructor|].
  inversion H as [|? ? Hx Hl]; subst.
  destruct (f x); [|apply IH; exact Hl].
  simpl. constructor; [|apply IH; exact Hl].
  intros Hin. apply Hx.
  apply in_map_iff in Hin. destruct Hin as [y [Hy Hin]].
  apply filter_In in Hin. apply in_map_iff. exists y. tauto.
Qed.

End ListFacts.

Section PathOrder.

Lemma ascii_compare_eq a b : Ascii.compare a b = Eq -> a = b.
Proof. apply Ascii.compare_eq_iff. Qed.

Lemma ascii_compare_lt_trans a b c :
  Ascii.compare a b = Lt -> Ascii.compare b c = Lt -> Ascii.compare a c = Lt.
Proof.
  unfold Ascii.compare. rewrite !N.compare_lt_iff. apply N.lt_trans.
Qed.

Lemma string_leb_trans a : forall b c,
  String.leb a b = true -> String.leb b c = true -> String.leb a c = true.
Proof.
  unfold String.leb.
  induction a as [|x a IH]; intros [|y b] [|z c]; simpl; try congruence.
  destruct (Ascii.compare x y) eqn:Exy; try congruence;
    destruct (Ascii.compare y z) eqn:Eyz; try congruence.
  - apply ascii_compare_eq in Exy, Eyz. subst.
    replace (Ascii.compare z z) with Eq
      by (symmetry; unfold Ascii.compare; apply N.compare_refl).
    apply IH.
  - apply ascii_compare_eq in Exy. subst. rewrite Eyz. reflexivity.
  - apply ascii_compare_eq in Eyz. subst. rewrite Exy. reflexivity.
  - rewrite (ascii_compare_lt_trans _ _ _ Exy Eyz). reflexivity.
Qed.

Lemma string_leb_antisym a b :
  String.leb a b = true -> String.leb b a = true -> a = b.
Proof. apply String.leb_antisym. Qed.

(** [sorted] forgets the order in which the names were listed. *)
Lemma sorted_perm_eq l l' : Permutation l l' -> sorted l = sorted l'.
Proof.
  apply sort_stable_perm_eq.
  - apply String.leb_total.
  - intros a b c. apply string_leb_trans.
  - apply string_leb_antisym.
Qed.

End PathOrder.

(** ** The effect monad *)

Section EffFacts.

Context {E : Type}.

Lemma outcome_bind {A B} (m : Eff E A) (k : A -> Eff E B) :
  outcome (bind m k)
  = match outcome m with
    | Return a => outcome (k a)
    | Raise e => Raise e
    end.
Proof.
  destruct m as [tr [a|e]]; simpl; [|reflexivity].
  destruct (k a); reflexivity.
Qed.

Lemma trace_bind {A B} (m : Eff E A) (k : A -> Eff E B) :
  trace (bind m k)
  = trace m ++ match outcome m with
               | Return a => trace (k a)
               | Raise _ => []
               end.
Proof.
  destruct m as [tr [a|e]]; simpl; [|symmetry; apply app_nil_r].
  destruct (k a); reflexivity.
Qed.

Lemma eff_eq {A} (m m' : Eff E A) :
  trace m = trace m' -> outcome m = outcome m' -> m = m'.
Proof. destruct m, m'; simpl; congruence. Qed.

Lemma for_fold_ext {A S} (body body' : S -> A -> Eff E S) xs :
  (forall s x, In x xs -> body s x = body' s x) ->
  forall s, for_fold xs body s = for_fold xs body' s.
Proof.
  induction xs as [|x xs IH]; intros H s; simpl; [reflexivity|].
  rewrite (H s x) by (left; reflexivity).
  destruct (body' s x) as [tr [s'|e]]; simpl; [|reflexivity].
  rewrite IH; [reflexivity|].
  intros s0 x0 Hin. apply H. right. exact Hin.
Qed.

(** An exception raised by the body ends the loop: nothing catches it. *)
Lemma for_fold_raise {A S} (body : S -> A -> Eff E S) x xs s e :
  outcome (body s x) = Raise e ->
  for_fold (x :: xs) body s = (trace (body s x), Raise e).
Proof.
  simpl. destruct (body s x) as [tr [s'|e']]; simpl; congruence.
Qed.

End EffFacts.

(** ** The Aggregator *)

Section AggregatorFacts.

Import Aggregator AggregatorSpec.

Lemma row_leb_total a b : row_leb a b = true \/ row_leb b a = true.
Proof. apply dt_leb_total. Qed.

Lemma row_leb_trans a b c :
  row_leb a b = true -> row_leb b c = true -> row_leb a c = true.
Proof. apply dt_leb_trans. Qed.

Lemma list_sum_pos l : (0 < list_sum l)%nat <-> exists n, In n l /\ (0 < n)%nat.
Proof.
  induction l as [|x l IH]; simpl.
  - split; [lia|intros [n [[] _]]].
  - split.
    + intros H. destruct x as [|x].
      * apply IH in H. destruct H as [n [Hin Hn]]. exists n. auto.
      * exists (S x). split; [auto|lia].
    + intros [n [[->|Hin] Hn]]; [lia|].
      assert (0 < list_sum l)%nat by (apply IH; eauto). lia.
Qed.

Lemma filter_length_pos {A} (f : A -> bool) l :
  (0 < List.length (filter f l))%nat <-> exists x, In x l /\ f x = true.
Proof.
  split.
  - destruct (filter f l) as [|x l'] eqn:E; simpl; [lia|]. intros _.
    assert (Hin : In x (filter f l)) by (rewrite E; left; reflexivity).
    apply filter_In in Hin. eauto.
  - intros [x Hx]. apply filter_In in Hx.
    destruct (filter f l); [destruct Hx|simpl; lia].
Qed.

(** A label holds data when one of the data variables has a value under it
    that is not NaN. *)
Lemma has_data_iff vars r :
  has_data vars r = true <->
  exists v c, In v vars /\ In c (lookup_var v r) /\ c <> NaN.
Proof.
  unfold has_data, count_notnull. rewrite Nat.ltb_lt, list_sum_pos. split.
  - intros [n [Hin Hn]]. apply in_map_iff in Hin.
    destruct Hin as [v [<- Hv]]. apply filter_length_pos in Hn.
    destruct Hn as [c [Hc Hnn]]. exists v, c. repeat split; try assumption.
    intros ->. discriminate.
  - intros [v [c [Hv [Hc Hnn]]]].
    exists (List.length (filter notnull (lookup_var v r))). split.
    + apply in_map_iff. exists v. auto.
    + apply filter_length_pos. exists c. split; [assumption|].
      destruct c; [congruence|reflexivity].
Qed.

Lemma has_data_no_vars r : has_data [] r = false.
Proof. reflexivity. Qed.

Lemma clean_year_rows ds year :
  rows (clean_year ds year)
  = filter (has_data (data_vars ds))
      (sort_stable row_leb
         (filter (fun r => dt_year (valid_time r) =? year) (rows ds))).
Proof. reflexivity. Qed.

Lemma clean_year_vars ds year : data_vars (clean_year ds year) = data_vars ds.
Proof. reflexivity. Qed.

Lemma in_clean_year ds year r :
  In r (rows (clean_year ds year)) <->
  In r (rows ds) /\ dt_year (valid_time r) = year
  /\ has_data (data_vars ds) r = true.
Proof.
  rewrite clean_year_rows, filter_In, in_sort_stable, filter_In, Z.eqb_eq.
  tauto.
Qed.

Lemma clean_year_sorted ds year :
  StronglySorted dt_le (timestamps (rows (clean_year ds year))).
Proof.
  unfold timestamps. apply (proj1 (StronglySorted_map dt_le valid_time _)).
  rewrite clean_year_rows. apply StronglySorted_filter.
  apply (sort_stable_sorted row_leb row_leb_total row_leb_trans).
Qed.

Lemma clean_year_perm ds year :
  Permutation (rows (clean_year ds year)) (in_year_data ds year).
Proof.
  rewrite clean_year_rows. unfold in_year_data.
  eapply Permutation_trans.
  - apply filter_perm, Permutation_sym, sort_stable_perm.
  - rewrite filter_twice. apply Permutation_refl.
Qed.

(** On an ascending list, strictly ascending means without repetition. *)
Lemma sorted_strict_iff_NoDup l :
  StronglySorted dt_le l -> (NoDup l <-> StronglySorted dt_lt l).
Proof.
  induction 1 as [|x l Hl IH Hx]; split; intros H; try constructor.
  - inversion H; subst. apply IH; assumption.
  - inversion H as [|? ? Hnin Hnd]; subst.
    apply Forall_forall. intros y Hy.
    pose proof (proj1 (Forall_forall _ _) Hx y Hy) as Hle.
    apply dt_leb_ltb in Hle. destruct Hle as [Hlt| ->]; [exact Hlt|].
    contradiction.
  - inversion H as [|? ? Hs Hall]; subst. intros Hin.
    pose proof (proj1 (Forall_forall _ _) Hall x Hin) as Hlt.
    unfold dt_lt in Hlt. rewrite dt_ltb_irrefl in Hlt. discriminate.
  - inversion H; subst. apply IH; assumption.
Qed.

End AggregatorFacts.

(** ** The loop over the years *)

Section LoopFacts.

Import Aggregator AggregatorSpec.

Variables (inputs : string) (dir : Directory).

Lemma process_year_cases ds_variable year :
  process_year inputs dir ds_variable year =
  match year_files inputs dir year with
  | [] => ([Print (no_file_message inputs year)], Return ds_variable)
  | f :: fs =>
      match open_mfdataset inputs dir (f :: fs) with
      | Raise e =>
          ([Print ("Opening GRIB files for year " ++ str year ++ "...")%string;
            OpenMfdataset (f :: fs)],
           Raise e)
      | Return g =>
          ([Print ("Opening GRIB files for year " ++ str year ++ "...")%string;
            OpenMfdataset (f :: fs);
            Print ("Processing year " ++ str year ++ " ...")%string;
            Print ("Filtering data for year " ++ str year ++ " ...")%string;
            Print "Concatenating datasets..."],
           Return (if truthy ds_variable
                   then concat_valid_time ds_variable
                          (clean_year (stack_valid_time g) year)
                   else clean_year (stack_valid_time g) year))
      end
  end.
Proof.
  unfold process_year, year_files.
  destruct (sorted (glob inputs dir (grib_pattern year))) as [|f fs];
    [reflexivity|].
  destruct (open_mfdataset inputs dir (f :: fs)) as [g|e]; [|reflexivity].
  cbn. destruct (truthy ds_variable); reflexivity.
Qed.

Lemma clean_year_falsy ds year : falsy_is_empty (clean_year ds year).
Proof.
  unfold falsy_is_empty, truthy. rewrite clean_year_vars, clean_year_rows.
  destruct (data_vars ds); [|discriminate]. intros _.
  induction (sort_stable _ _) as [|r l IH]; simpl; auto.
Qed.

Lemma process_year_slice ds_variable year rs :
  falsy_is_empty ds_variable ->
  year_slice inputs dir year = Return rs ->
  exists ds',
    outcome (process_year inputs dir ds_variable year) = Return ds'
    /\ rows ds' = rows ds_variable ++ rs
    /\ falsy_is_empty ds'.
Proof.
  intros Hinv. rewrite process_year_cases. unfold year_slice.
  destruct (year_files inputs dir year) as [|f fs].
  - intros [= <-]. exists ds_variable. rewrite app_nil_r. auto.
  - destruct (open_mfdataset inputs dir (f :: fs)) as [g|e]; [|discriminate].
    intros [= <-]. eexists. split; [reflexivity|].
    destruct (truthy ds_variable) eqn:T.
    + split; [reflexivity|].
      unfold falsy_is_empty, truthy, concat_valid_time, union_vars. simpl.
      unfold truthy in T. destruct (data_vars ds_variable); discriminate.
    + rewrite (Hinv T). split; [reflexivity|apply clean_year_falsy].
Qed.

Lemma process_year_raise ds_variable year e :
  year_slice inputs dir year = Raise e ->
  outcome (process_year inputs dir ds_variable year) = Raise e.
Proof.
  rewrite process_year_cases. unfold year_slice.
  destruct (year_files inputs dir year) as [|f fs]; [discriminate|].
  destruct (open_mfdataset inputs dir (f :: fs)); [discriminate|].
  intros [= <-]. reflexivity.
Qed.

(** When every year can be opened, the loop appends the slices of the
    years in the order it meets them. *)
Lemma for_fold_rows years : forall ds_variable,
  falsy_is_empty ds_variable ->
  (forall y, In y years -> exists rs, year_slice inputs dir y = Return rs) ->
  exists ds,
    outcome (for_fold years (process_year inputs dir) ds_variable) = Return ds
    /\ rows ds = rows ds_variable ++ flat_map (slice_rows inputs dir) years
    /\ falsy_is_empty ds.
Proof.
  induction years as [|y years IH]; intros acc Hinv Hall.
  - exists acc. simpl. rewrite app_nil_r. auto.
  - destruct (Hall y (or_introl eq_refl)) as [rs Hrs].
    destruct (process_year_slice acc y rs Hinv Hrs) as (acc' & Hout & Hrows & Hinv').
    destruct (IH acc' Hinv') as (ds & Hds & Hr & Hi).
    { intros y' Hy'. apply Hall. right. exact Hy'. }
    exists ds. cbn [for_fold]. rewrite outcome_bind, Hout.
    repeat split; try assumption.
    rewrite Hr, Hrows. cbn [flat_map]. unfold slice_rows at 2.
    rewrite Hrs, app_assoc. reflexivity.
Qed.

Lemma range_app lo mid hi :
  lo <= mid <= hi -> range lo hi = range lo mid ++ range mid hi.
Proof.
  intros H. remember (Z.to_nat (mid - lo)) as n eqn:Hn.
  revert lo H Hn. induction n as [|n IH]; intros lo H Hn.
  - assert (mid = lo) by lia. subst mid.
    rewrite (range_nil lo lo) by lia. reflexivity.
  - rewrite (range_cons lo hi), (range_cons lo mid) by lia.
    rewrite (IH (lo + 1)) by lia. reflexivity.
Qed.

Lemma flat_map_nil {A B} (f : A -> list B) l :
  (forall x, In x l -> f x = []) -> flat_map f l = [].
Proof.
  induction l as [|x l IH]; intros H; simpl; [reflexivity|].
  rewrite (H x) by (left; reflexivity).
  apply IH. intros y Hy. apply H. right. exact Hy.
Qed.

Lemma in_union_vars v a b : In v (union_vars a b) <-> In v a \/ In v b.
Proof.
  unfold union_vars. rewrite in_app_iff, filter_In, negb_true_iff.
  split; [tauto|]. intros [H|H]; [auto|].
  destruct (existsb (String.eqb v) a) eqn:E; [|auto].
  left. apply existsb_exists in E. destruct E as [w [Hw Hvw]].
  apply String.eqb_eq in Hvw. subst w. exact Hw.
Qed.

Lemma has_data_more_vars vars vars' r :
  (forall v, In v vars -> In v vars') ->
  has_data vars r = true -> has_data vars' r = true.
Proof.
  intros Hsub. rewrite !has_data_iff.
  intros (v & c & Hv & Hc). exists v, c. auto.
Qed.

Lemma process_year_holds_data lo hi ds_variable year ds' :
  lo <= year <= hi ->
  rows_hold_data lo hi ds_variable ->
  outcome (process_year inputs dir ds_variable year) = Return ds' ->
  rows_hold_data lo hi ds'.
Proof.
  intros Hy Hinv. rewrite process_year_cases.
  destruct (year_files inputs dir year) as [|f fs];
    [intros [= <-]; exact Hinv|].
  destruct (open_mfdataset inputs dir (f :: fs)) as [g|e]; [|discriminate].
  cbn [outcome snd]. intros [= <-].
  assert (Hclean : rows_hold_data lo hi (clean_year (stack_valid_time g) year)).
  { apply Forall_forall. intros r Hr. apply in_clean_year in Hr.
    rewrite clean_year_vars. destruct Hr as (_ & <- & Hd). auto. }
  destruct (truthy ds_variable); [|exact Hclean].
  unfold rows_hold_data, concat_valid_time. cbn [rows data_vars].
  apply Forall_app. split; (eapply Forall_impl; [|eassumption]);
    intros r [Hd Hr]; (split; [|exact Hr]);
    (eapply has_data_more_vars; [|exact Hd]);
    intros v Hv; apply in_union_vars; auto.
Qed.

Lemma for_fold_holds_data lo hi years : forall ds_variable ds,
  Forall (fun y => lo <= y <= hi) years ->
  rows_hold_data lo hi ds_variable ->
  outcome (for_fold years (process_year inputs dir) ds_variable) = Return ds ->
  rows_hold_data lo hi ds.
Proof.
  induction years as [|y years IH]; intros acc ds Hys Hinv.
  - intros [= <-]. exact Hinv.
  - inversion Hys as [|? ? Hy Hys']; subst.
    cbn [for_fold]. rewrite outcome_bind.
    destruct (outcome (process_year inputs dir acc y)) as [acc'|e] eqn:E;
      [|discriminate].
    apply IH; [exact Hys'|].
    eapply process_year_holds_data; eassumption.
Qed.

End LoopFacts.

(** ** The end of a run *)

Section RunOutcome.

Import Aggregator AggregatorSpec.

Variables (to_netcdf : NetcdfWriter) (inputs outputs : string)
          (dir : Directory) (start_year end_year : Z).

(** The run ends as the loop ends, but for a write that fails. *)
Lemma aggregate_outcome save :
  outcome (aggregate_era5_land_timeseries to_netcdf inputs outputs dir
             start_year end_year save)
  = match outcome (combine_years inputs dir start_year end_year) with
    | Return ds =>
        if save
        then match to_netcdf (output_path outputs start_year end_year) ds with
             | None => Return ds
             | Some e => Raise e
             end
        else Return ds
    | Raise e => Raise e
    end.
Proof.
  unfold aggregate_era5_land_timeseries.
  rewrite outcome_bind.
  destruct (outcome (combine_years _ _ _ _)) as [ds|e]; [|reflexivity].
  destruct save; [|reflexivity].
  cbv zeta. destruct (to_netcdf _ ds); reflexivity.
Qed.

(** What a run returns is what the loop has built. *)
Lemma aggregate_returned save combined :
  outcome (aggregate_era5_land_timeseries to_netcdf inputs outputs dir
             start_year end_year save) = Return combined ->
  outcome (combine_years inputs dir start_year end_year) = Return combined.
Proof.
  rewrite aggregate_outcome.
  destruct (outcome (combine_years _ _ _ _)) as [ds|e]; [|discriminate].
  destruct save; [|exact (fun H => H)].
  destruct (to_netcdf _ ds); [discriminate|exact (fun H => H)].
Qed.

Lemma aggregate_raised save e :
  outcome (combine_years inputs dir start_year end_year) = Raise e ->
  outcome (aggregate_era5_land_timeseries to_netcdf inputs outputs dir
             start_year end_year save) = Raise e.
Proof. rewrite aggregate_outcome. intros ->. reflexivity. Qed.

Lemma aggregate_trace save :
  trace (aggregate_era5_land_timeseries to_netcdf inputs outputs dir
           start_year end_year save)
  = trace (combine_years inputs dir start_year end_year)
    ++ match outcome (combine_years inputs dir start_year end_year) with
       | Return ds =>
           if save
           then [ToNetcdf (output_path outputs start_year end_year) ds]
           else []
       | Raise _ => []
       end.
Proof.
  unfold aggregate_era5_land_timeseries. rewrite trace_bind.
  destruct (outcome (combine_years _ _ _ _)) as [ds|e]; [|reflexivity].
  destruct save; [|reflexivity].
  cbv zeta. destruct (to_netcdf _ ds); reflexivity.
Qed.

End RunOutcome.

Section YearSlices.

Import Aggregator AggregatorSpec.

Lemma slice_of_open inputs dir year g :
  open_mfdataset inputs dir (year_files inputs dir year) = Return g ->
  year_slice inputs dir year
  = Return (rows (clean_year (stack_valid_time g) year)).
Proof.
  unfold year_slice. intros H.
  destruct (year_files inputs dir year) as [|f fs]; [discriminate|].
  rewrite H. reflexivity.
Qed.

Lemma slice_of_nothing inputs dir year :
  glob inputs dir (grib_pattern year) = [] ->
  year_slice inputs dir year = Return [].
Proof. unfold year_slice, year_files. intros ->. reflexivity. Qed.

End YearSlices.

(** ** Listing order *)

Section ListingOrder.

Import Aggregator AggregatorSpec.

Lemma glob_perm dirname dir dir' year :
  Permutation dir dir' ->
  Permutation (glob dirname dir (grib_pattern year))
              (glob dirname dir' (grib_pattern year)).
Proof.
  intros H. rewrite !glob_grib.
  destruct (input_dir dirname); [|constructor].
  apply Permutation_map, filter_perm, Permutation_map. exact H.
Qed.

Lemma year_files_perm inputs dir dir' year :
  Permutation dir dir' ->
  year_files inputs dir year = year_files inputs dir' year.
Proof. intros H. apply sorted_perm_eq, glob_perm. exact H. Qed.

Lemma same_name_same_entry (dir : Directory) a b :
  NoDup (map fst dir) -> In a dir -> In b dir -> fst a = fst b -> a = b.
Proof.
  induction dir as [|c dir IH]; simpl; intros Hnd Ha Hb Hab; [destruct Ha|].
  inversion Hnd as [|? ? Hc Hnd']; subst.
  destruct Ha as [->|Ha], Hb as [->|Hb]; auto.
  - exfalso. apply Hc. rewrite Hab. apply in_map. exact Hb.
  - exfalso. apply Hc. rewrite <- Hab. apply in_map. exact Ha.
Qed.

Lemma find_unique {A} (f : A -> bool) l x :
  (forall a b, In a l -> In b l -> f a = true -> f b = true -> a = b) ->
  In x l -> f x = true -> find f l = Some x.
Proof.
  intros Huniq Hin Hfx.
  destruct (find f l) as [y|] eqn:E.
  - apply find_some in E. f_equal. apply Huniq; tauto.
  - apply (find_none _ _ E) in Hin. congruence.
Qed.

(** A directory holds one entry under a name, so a path names the same file
    however the directory is listed. *)
Lemma read_file_perm dirname dir dir' path :
  NoDup (map fst dir) -> Permutation dir dir' ->
  read_file dirname dir path = read_file dirname dir' path.
Proof.
  intros Hnd Hp. unfold read_file.
  destruct (input_dir dirname) as [d|]; [|reflexivity].
  set (f := fun entry : string * File =>
              (path_join d (fst entry) =? path)%string).
  assert (Huniq : forall a b, In a dir' -> In b dir' ->
            f a = true -> f b = true -> a = b).
  { intros a b Ha Hb Hfa Hfb. unfold f in Hfa, Hfb.
    apply String.eqb_eq in Hfa, Hfb.
    apply (same_name_same_entry dir); try assumption;
      try (eapply Permutation_in; [apply Permutation_sym; exact Hp|assumption]).
    apply (path_join_inj d). congruence. }
  destruct (find f dir) as [x|] eqn:E.
  - apply find_some in E. destruct E as [Hin Hfx].
    rewrite (find_unique f dir' x Huniq); [reflexivity| |exact Hfx].
    eapply Permutation_in; eassumption.
  - destruct (find f dir') as [y|] eqn:E'; [|reflexivity].
    apply find_some in E'. destruct E' as [Hin Hfy].
    apply (Permutation_in _ (Permutation_sym Hp)) in Hin.
    apply (find_none _ _ E) in Hin. congruence.
Qed.

Lemma read_files_perm dirname dir dir' paths :
  NoDup (map fst dir) -> Permutation dir dir' ->
  read_files dirname dir paths = read_files dirname dir' paths.
Proof.
  intros Hnd Hp. induction paths as [|p paths IH]; simpl; [reflexivity|].
  rewrite (read_file_perm dirname dir dir' p Hnd Hp), IH. reflexivity.
Qed.

Lemma open_mfdataset_perm dirname dir dir' paths :
  NoDup (map fst dir) -> Permutation dir dir' ->
  open_mfdataset dirname dir paths = open_mfdataset dirname dir' paths.
Proof.
  intros Hnd Hp. unfold open_mfdataset.
  rewrite (read_files_perm dirname dir dir' paths Hnd Hp). reflexivity.
Qed.

Lemma process_year_perm inputs dir dir' ds_variable year :
  NoDup (map fst dir) -> Permutation dir dir' ->
  process_year inputs dir ds_variable year
  = process_year inputs dir' ds_variable year.
Proof.
  intros Hnd Hp. rewrite !process_year_cases.
  rewrite (year_files_perm inputs dir dir' year Hp).
  destruct (year_files inputs dir' year) as [|f fs]; [reflexivity|].
  rewrite (open_mfdataset_perm inputs dir dir' (f :: fs) Hnd Hp).
  reflexivity.
Qed.

(** The file a run writes is no input of a later run, even when it is
    written into the input directory: its name matches no year's pattern. *)
Lemma fnmatch_output_name start_year end_year year :
  fnmatch (output_name start_year end_year) (grib_pattern year) = false.
Proof.
  unfold grib_pattern.
  destruct (fnmatch _ _) eqn:M; [|reflexivity].
  apply fnmatch_numeric_prefix in M; [|apply str_numeric].
  destruct M as [rest [Hname _]].
  pose proof (str_numeric year) as Hnum.
  pose proof (str_nonempty year) as Hne.
  destruct (str year) as [|c s]; [contradiction|].
  unfold output_name in Hname. simpl in Hname, Hnum.
  injection Hname as Hc _. subst c. discriminate.
Qed.

End ListingOrder.

(** ** Entries the run does not look at *)

Section StrayEntries.

Import Aggregator AggregatorSpec.

Variable inputs : string.

Lemma glob_skip before after year name file :
  fnmatch name (grib_pattern year) = false ->
  glob inputs (before ++ (name, file) :: after) (grib_pattern year)
  = glob inputs (before ++ after) (grib_pattern year).
Proof.
  intros H. rewrite !glob_grib.
  destruct (input_dir inputs); [|reflexivity].
  rewrite !map_app, !filter_app.
  cbn [map fst filter]. rewrite H. reflexivity.
Qed.

Lemma find_skip {A} (f : A -> bool) before x after :
  f x = false -> find f (before ++ x :: after) = find f (before ++ after).
Proof.
  intros H. induction before as [|y before IH]; cbn [app find].
  - rewrite H. reflexivity.
  - rewrite IH. reflexivity.
Qed.

Lemma read_files_skip before after name file paths :
  Forall (fun path => forall d, input_dir inputs = Some d ->
                                path <> path_join d name) paths ->
  read_files inputs (before ++ (name, file) :: after) paths
  = read_files inputs (before ++ after) paths.
Proof.
  induction 1 as [|p paths Hp _ IH]; cbn [read_files]; [reflexivity|].
  rewrite IH. unfold read_file.
  destruct (input_dir inputs) as [d|]; [|reflexivity].
  rewrite find_skip; [reflexivity|].
  cbn [fst]. apply String.eqb_neq. intros E.
  apply (Hp d eq_refl). symmetry. exact E.
Qed.

(** An entry whose name does not match a year's pattern is nothing to
    that year, wherever it stands in the listing. *)
Lemma process_year_skip before after name file ds_variable year :
  fnmatch name (grib_pattern year) = false ->
  process_year inputs (before ++ (name, file) :: after) ds_variable year
  = process_year inputs (before ++ after) ds_variable year.
Proof.
  intros Hm. rewrite !process_year_cases. unfold year_files.
  rewrite glob_skip by exact Hm.
  assert (Hpaths : Forall (fun path => forall d, input_dir inputs = Some d ->
                                       path <> path_join d name)
                     (sorted (glob inputs (before ++ after)
                                (grib_pattern year)))).
  { apply Forall_forall. intros path Hin d Hd E. subst path.
    unfold sorted in Hin. apply in_sort_stable, in_glob in Hin.
    destruct Hin as (d' & name' & Hd' & Hj & _ & Hm').
    rewrite Hd in Hd'. injection Hd' as <-.
    apply path_join_inj in Hj. subst name'. congruence. }
  destruct (sorted (glob inputs (before ++ after) (grib_pattern year)))
    as [|f fs]; [reflexivity|].
  unfold open_mfdataset. rewrite read_files_skip by exact Hpaths.
  reflexivity.
Qed.

End StrayEntries.

(** C6: the Aggregator is deterministic.  Its result, the returned dataset
    together with everything it prints, opens and writes, is a function of
    the directory's contents, the paths and the year range: two runs with
    [save=True] over the same files give the same output, in whatever
    order the operating system lists the directory to [glob], and also when
    the second run finds the output file of the first in the input
    directory. *)
Theorem aggregate_deterministic to_netcdf inputs outputs dir
    start_year end_year :
  let run := fun listing =>
    Aggregator.aggregate_era5_land_timeseries to_netcdf inputs outputs
      listing start_year end_year true in
  (forall dir', NoDup (map fst dir) -> Permutation dir dir' ->
                run dir = run dir')
  /\ (forall saved,
        run ((AggregatorSpec.output_name start_year end_year, saved) :: dir)
        = run dir)
  /\ Aggregator.output_path outputs start_year end_year
     = Aggregator.join outputs
         (AggregatorSpec.output_name start_year end_year).
Proof.
  intros run. subst run. cbv beta.
  unfold Aggregator.aggregate_era5_land_timeseries, Aggregator.combine_years.
  split; [|split].
  - intros dir' Hnd Hp.
    rewrite (for_fold_ext (Aggregator.process_year inputs dir)
               (Aggregator.process_year inputs dir')); [reflexivity|].
    intros ds_variable year _. apply process_year_perm; assumption.
  - intros saved.
    rewrite (for_fold_ext
               (Aggregator.process_year inputs
                  ((AggregatorSpec.output_name start_year end_year, saved)
                   :: dir))
               (Aggregator.process_year inputs dir)); [reflexivity|].
    intros ds_variable year _.
    apply (process_year_skip inputs []). apply fnmatch_output_name.
  - reflexivity.
Qed.

Lemma aggregate_deterministic_witness :
  Aggregator.aggregate_era5_land_timeseries Samples.writes_ok "in" "out"
    Samples.two_years 2009 2012 true
  = Aggregator.aggregate_era5_land_timeseries Samples.writes_ok "in" "out"
      Samples.two_years_relisted 2009 2012 true.
Proof.
  apply (proj1 (aggregate_deterministic Samples.writes_ok "in" "out"
                  Samples.two_years 2009 2012) Samples.two_years_relisted).
  - repeat constructor; simpl; intuition discriminate.
  - apply perm_swap.
Defined.

(** ** A year's slice *)

(** C4: what lines 105-107 leave of a year's dataset: exactly the rows of
    the input whose valid time lies in the year under processing and under
    which some data variable holds a value that is not NaN; rows of another
    year are gone, and the rows stand in ascending order of valid time. *)
Theorem clean_year_slice (ds : Aggregator.Dataset) (year : Z) :
  let cleaned := Aggregator.clean_year ds year in
  (forall r, In r (Aggregator.rows cleaned) <->
     In r (Aggregator.rows ds)
     /\ Aggregator.dt_year (Aggregator.valid_time r) = year
     /\ exists v c, In v (Aggregator.data_vars cleaned)
                    /\ In c (Aggregator.lookup_var v r)
                    /\ c <> Aggregator.NaN)
  /\ Forall (fun r => Aggregator.dt_year (Aggregator.valid_time r) = year)
       (Aggregator.rows cleaned)
  /\ Forall (fun r => ~ forall v c, In v (Aggregator.data_vars cleaned) ->
                        In c (Aggregator.lookup_var v r) ->
                        c = Aggregator.NaN)
       (Aggregator.rows cleaned)
  /\ StronglySorted dt_le (Aggregator.timestamps (Aggregator.rows cleaned)).
Proof.
  intros cleaned.
  assert (Hin : forall r, In r (Aggregator.rows cleaned) <->
            In r (Aggregator.rows ds)
            /\ Aggregator.dt_year (Aggregator.valid_time r) = year
            /\ exists v c, In v (Aggregator.data_vars cleaned)
                           /\ In c (Aggregator.lookup_var v r)
                           /\ c <> Aggregator.NaN).
  { intros r. unfold cleaned.
    rewrite in_clean_year, has_data_iff, clean_year_vars. reflexivity. }
  split; [exact Hin|]. split; [|split].
  - apply Forall_forall. intros r Hr. apply Hin in Hr. tauto.
  - apply Forall_forall. intros r Hr Hall. apply Hin in Hr.
    destruct Hr as (_ & _ & v & c & Hv & Hc & Hne).
    apply Hne. exact (Hall v c Hv Hc).
  - apply clean_year_sorted.
Qed.

(** C3, as the code has it: nothing removes a repeated valid time.  A
    year's slice holds every row of the year that holds data, as many times
    as the input has it, in ascending order of valid time; the order is
    strict, and the valid times unique, exactly when those input rows have
    pairwise different valid times. *)
Theorem year_slice_ascending (ds : Aggregator.Dataset) (year : Z) :
  let slice := Aggregator.rows (Aggregator.clean_year ds year) in
  Permutation slice (AggregatorSpec.in_year_data ds year)
  /\ StronglySorted dt_le (Aggregator.timestamps slice)
  /\ (StronglySorted dt_lt (Aggregator.timestamps slice) <->
      NoDup (Aggregator.timestamps (AggregatorSpec.in_year_data ds year))).
Proof.
  intros slice. subst slice. split; [apply clean_year_perm|].
  split; [apply clean_year_sorted|].
  rewrite <- (sorted_strict_iff_NoDup _ (clean_year_sorted ds year)).
  unfold Aggregator.timestamps.
  split; apply Permutation_NoDup, Permutation_map;
    [|apply Permutation_sym]; apply clean_year_perm.
Qed.

(** C3 fails as stated: a file in which a valid time occurs twice leaves
    it twice in the year's slice of the combined dataset. *)
Lemma repeated_valid_time_survives :
  exists ds,
    outcome (Aggregator.aggregate_era5_land_timeseries Samples.writes_ok
               "in" "out" Samples.twice_listed 2010 2010 false) = Return ds
    /\ Aggregator.timestamps (Aggregator.rows ds)
       = [Samples.at_hour 2010 1 1 0; Samples.at_hour 2010 1 1 12;
          Samples.at_hour 2010 1 1 12; Samples.at_hour 2010 1 2 0]
    /\ ~ NoDup (Aggregator.timestamps (Aggregator.rows ds))
    /\ ~ StronglySorted dt_lt (Aggregator.timestamps (Aggregator.rows ds)).
Proof.
  eexists. split; [vm_compute; reflexivity|].
  split; [reflexivity|]. split.
  - intros H. inversion H as [|? ? _ H']; subst.
    inversion H' as [|? ? Hnin _]; subst.
    apply Hnin. left. reflexivity.
  - intros H. inversion H as [|? ? H' _]; subst.
    inversion H' as [|? ? _ Hall]; subst.
    inversion Hall as [|? ? Hlt _]; subst.
    vm_compute in Hlt. discriminate.
Qed.

(** ** Missing years, saving, and empty ranges *)

Section RunFacts.

Import Aggregator AggregatorSpec.

Lemma process_year_writes_nothing inputs dir ds_variable year :
  written (trace (process_year inputs dir ds_variable year)) = [].
Proof.
  rewrite process_year_cases.
  destruct (year_files inputs dir year) as [|f fs]; [reflexivity|].
  destruct (open_mfdataset inputs dir (f :: fs)); reflexivity.
Qed.

Lemma written_app tr tr' : written (tr ++ tr') = written tr ++ written tr'.
Proof. unfold written. apply flat_map_app. Qed.

Lemma for_fold_writes_nothing inputs dir years : forall ds_variable,
  written (trace (for_fold years (process_year inputs dir) ds_variable)) = [].
Proof.
  induction years as [|y years IH]; intros acc; [reflexivity|].
  cbn [for_fold]. rewrite trace_bind, written_app, process_year_writes_nothing.
  destruct (outcome (process_year inputs dir acc y)); [apply IH|reflexivity].
Qed.

End RunFacts.

(** C5: a year for which [glob] finds no file is skipped: the body of the
    loop prints its message and hands the running dataset on unchanged, and
    the loop goes on with the years that follow.  Nothing else is caught:
    the body raises exactly when [open_mfdataset] does, and an exception of
    the body ends the loop and the whole run with that exception, no later
    year processed and no file written. *)
Theorem missing_year_skipped to_netcdf inputs outputs dir ds_variable year
    later :
  (Aggregator.glob inputs dir (Aggregator.grib_pattern year) = [] ->
     Aggregator.process_year inputs dir ds_variable year
     = ([Aggregator.Print (AggregatorSpec.no_file_message inputs year)],
        Return ds_variable)
     /\ for_fold (year :: later) (Aggregator.process_year inputs dir)
          ds_variable
        = (Aggregator.Print (AggregatorSpec.no_file_message inputs year)
           :: trace (for_fold later (Aggregator.process_year inputs dir)
                       ds_variable),
           outcome (for_fold later (Aggregator.process_year inputs dir)
                      ds_variable)))
  /\ (forall e,
        outcome (Aggregator.process_year inputs dir ds_variable year)
        = Raise e <->
        Aggregator.open_mfdataset inputs dir
          (AggregatorSpec.year_files inputs dir year) = Raise e
        /\ AggregatorSpec.year_files inputs dir year <> [])
  /\ (forall e,
        outcome (Aggregator.process_year inputs dir ds_variable year)
        = Raise e ->
        for_fold (year :: later) (Aggregator.process_year inputs dir)
          ds_variable
        = (trace (Aggregator.process_year inputs dir ds_variable year),
           Raise e))
  /\ (forall start_year end_year save e,
        outcome (Aggregator.combine_years inputs dir start_year end_year)
        = Raise e ->
        outcome (Aggregator.aggregate_era5_land_timeseries to_netcdf inputs
                   outputs dir start_year end_year save) = Raise e
        /\ Aggregator.written
             (trace (Aggregator.aggregate_era5_land_timeseries to_netcdf
                       inputs outputs dir start_year end_year save)) = []).
Proof.
  split; [|split; [|split]].
  - intros Hnone. split.
    + rewrite process_year_cases. unfold AggregatorSpec.year_files.
      rewrite Hnone. reflexivity.
    + cbn [for_fold]. rewrite process_year_cases.
      unfold AggregatorSpec.year_files. rewrite Hnone. cbn.
      destruct (for_fold later _ ds_variable). reflexivity.
  - intros e. rewrite process_year_cases.
    destruct (AggregatorSpec.year_files inputs dir year) as [|f fs].
    + cbn [outcome snd]. split; [discriminate|].
      intros [_ Hfiles]. contradiction.
    + destruct (Aggregator.open_mfdataset inputs dir (f :: fs)) as [g|e'];
        cbn [outcome snd].
      * split; [discriminate|]. intros [Hopen _]. discriminate.
      * split; [intros [= ->]; split; [reflexivity|discriminate]
               |intros [[= ->] _]; reflexivity].
  - intros e H. apply for_fold_raise. exact H.
  - intros start_year end_year save e H. split.
    + apply aggregate_raised. exact H.
    + rewrite aggregate_trace, H, app_nil_r.
      apply for_fold_writes_nothing.
Qed.

Lemma missing_year_skipped_witness :
  Aggregator.process_year "in" Samples.two_years Aggregator.empty_dataset 2009
  = ([Aggregator.Print "No file for year 2009 found in in"],
     Return Aggregator.empty_dataset)
  /\ outcome (Aggregator.aggregate_era5_land_timeseries Samples.writes_ok
                "in" "out" Samples.broken_year 2010 2011 true)
     = Raise DatasetError.
Proof.
  split.
  - apply (missing_year_skipped Samples.writes_ok "in" "out"
             Samples.two_years Aggregator.empty_dataset 2009 []).
    reflexivity.
  - apply (missing_year_skipped Samples.writes_ok "in" "out"
             Samples.broken_year Aggregator.empty_dataset 2010 [2011]).
    reflexivity.
Defined.

(** C9: the run ends as the loop over the years ends, whatever [save] is,
    but for a write that fails.  With [save=False] it returns the combined
    dataset the loop built and calls [to_netcdf] not at all.  With
    [save=True] it calls [to_netcdf] once, with that dataset and the path
    "{outputs}/inflows_var_era5_{start_year}to{end_year}.nc"; when the call
    returns, the run returns the same dataset as with [save=False]; when
    the call raises, the run ends in that exception and returns nothing.
    Both runs print the same lines and open the same files. *)
Theorem returned_whether_saved to_netcdf inputs outputs dir
    start_year end_year :
  let run := Aggregator.aggregate_era5_land_timeseries to_netcdf inputs
               outputs dir start_year end_year in
  let combined := outcome (Aggregator.combine_years inputs dir
                             start_year end_year) in
  let path := (outputs ++ "/inflows_var_era5_" ++ str start_year ++ "to"
               ++ str end_year ++ ".nc")%string in
  outcome (run false) = combined
  /\ Aggregator.written (trace (run false)) = []
  /\ outcome (run true)
     = match combined with
       | Return ds =>
           match to_netcdf path ds with
           | None => Return ds
           | Some e => Raise e
           end
       | Raise e => Raise e
       end
  /\ Aggregator.written (trace (run true))
     = match combined with
       | Return ds => [(path, ds)]
       | Raise _ => []
       end
  /\ (forall ds, combined = Return ds -> to_netcdf path ds = None ->
        outcome (run true) = Return ds /\ outcome (run false) = Return ds)
  /\ Aggregator.printed (trace (run true))
     = Aggregator.printed (trace (run false))
  /\ Aggregator.opened (trace (run true))
     = Aggregator.opened (trace (run false)).
Proof.
  intros run combined path. subst run combined path.
  rewrite !aggregate_outcome, !aggregate_trace.
  unfold Aggregator.combine_years, Aggregator.output_path.
  split; [destruct (outcome _); reflexivity|].
  split.
  { rewrite written_app, for_fold_writes_nothing.
    destruct (outcome _); reflexivity. }
  split; [reflexivity|]. split.
  { rewrite written_app, for_fold_writes_nothing.
    destruct (outcome _); reflexivity. }
  split.
  { intros ds -> ->. split; reflexivity. }
  split.
  - unfold Aggregator.printed. rewrite !flat_map_app.
    destruct (outcome _); reflexivity.
  - unfold Aggregator.opened. rewrite !flat_map_app.
    destruct (outcome _); reflexivity.
Qed.

Lemma returned_whether_saved_witness :
  outcome (Aggregator.aggregate_era5_land_timeseries Samples.writes_ok
             "in" "out" Samples.two_years 2010 2011 true)
  = outcome (Aggregator.aggregate_era5_land_timeseries Samples.writes_ok
               "in" "out" Samples.two_years 2010 2011 false)
  /\ map fst (Aggregator.written
                (trace (Aggregator.aggregate_era5_land_timeseries
                          Samples.writes_ok "in" "out" Samples.two_years
                          2010 2011 true)))
     = ["out/inflows_var_era5_2010to2011.nc"]
  /\ outcome (Aggregator.aggregate_era5_land_timeseries
                MoreSamples.no_output_directory "in" "out" Samples.two_years
                2010 2011 true)
     = Raise OSError.
Proof.
  destruct (returned_whether_saved Samples.writes_ok "in" "out"
              Samples.two_years 2010 2011)
    as (Hfalse & _ & Htrue & Hwritten & _).
  destruct (returned_whether_saved MoreSamples.no_output_directory "in" "out"
              Samples.two_years 2010 2011)
    as (_ & _ & Hfails & _).
  split; [rewrite Htrue, Hfalse; vm_compute; reflexivity|].
  split; [rewrite Hwritten; vm_compute; reflexivity|].
  rewrite Hfails. vm_compute. reflexivity.
Defined.

(** C10: an empty range.  With [start_year > end_year] the loop of the
    Aggregator has no year to run over: whatever the directory holds, the
    run prints nothing, opens nothing and builds the empty dataset.  With
    [save=False] it returns it; with [save=True] it hands it to
    [to_netcdf] and returns it when the write succeeds, and ends in the
    exception of the write otherwise.  With a start date after the end
    date the Fetcher lists no month and issues no request. *)
Theorem empty_range_runs_nothing :
  (forall to_netcdf inputs outputs dir start_year end_year save,
     end_year < start_year ->
     let path := Aggregator.output_path outputs start_year end_year in
     range start_year (end_year + 1) = []
     /\ trace (Aggregator.aggregate_era5_land_timeseries to_netcdf inputs
                 outputs dir start_year end_year save)
        = (if save
           then [Aggregator.ToNetcdf path Aggregator.empty_dataset]
           else [])
     /\ outcome (Aggregator.aggregate_era5_land_timeseries to_netcdf inputs
                   outputs dir start_year end_year save)
        = (if save
           then match to_netcdf path Aggregator.empty_dataset with
                | None => Return Aggregator.empty_dataset
                | Some e => Raise e
                end
           else Return Aggregator.empty_dataset)
     /\ ((save = false \/ to_netcdf path Aggregator.empty_dataset = None) ->
         outcome (Aggregator.aggregate_era5_land_timeseries to_netcdf inputs
                    outputs dir start_year end_year save)
         = Return Aggregator.empty_dataset))
  /\ (forall cds target_path start_year start_month end_year end_month
        variables area start_date end_date,
        datetime start_year start_month 1 = Return start_date ->
        datetime end_year end_month 1 = Return end_date ->
        date_leb start_date end_date = false ->
        let run := Fetcher.api_era5_land cds target_path start_year
                     start_month end_year end_month variables area in
        Fetcher.requests (trace run) = []
        /\ trace run = []
        /\ outcome run = match Fetcher.Client cds with
                         | None => Return tt
                         | Some e => Raise e
                         end).
Proof.
  split.
  - intros to_netcdf inputs outputs dir start_year end_year save H path.
    assert (Hr : range start_year (end_year + 1) = [])
      by (apply range_nil; lia).
    split; [exact Hr|].
    rewrite aggregate_trace, aggregate_outcome.
    unfold Aggregator.combine_years. rewrite Hr.
    cbn [for_fold ret trace outcome fst snd app]. fold path.
    split; [reflexivity|]. split; [reflexivity|].
    intros [->|Hw]; [reflexivity|].
    rewrite Hw. destruct save; reflexivity.
  - intros cds target_path start_year start_month end_year end_month
      variables area start_date end_date Hs He Hle run.
    assert (Hrun : run = ([], match Fetcher.Client cds with
                              | None => Return tt
                              | Some e => Raise e
                              end)).
    { unfold run, Fetcher.api_era5_land. rewrite Hs, He.
      unfold bind at 1. unfold lift at 1.
      unfold bind at 1. unfold lift at 1.
      rewrite date_list_from_unfold, Hle.
      destruct (Fetcher.Client cds); reflexivity. }
    rewrite Hrun. repeat split; reflexivity.
Qed.

Lemma empty_range_runs_nothing_witness :
  Aggregator.aggregate_era5_land_timeseries Samples.writes_ok "in" "out"
    Samples.two_years 2011 2010 true
  = ([Aggregator.ToNetcdf "out/inflows_var_era5_2011to2010.nc"
        Aggregator.empty_dataset],
     Return Aggregator.empty_dataset)
  /\ outcome (Aggregator.aggregate_era5_land_timeseries
                MoreSamples.no_output_directory "in" "out"
                Samples.two_years 2011 2010 true) = Raise OSError
  /\ trace (Fetcher.api_era5_land Samples.cds_ok "data" 2011 3 2010 12
              ["2m_temperature"] [90; -180; -90; 180]) = [].
Proof.
  split; [|split].
  - apply eff_eq.
    + apply (proj1 empty_range_runs_nothing Samples.writes_ok "in" "out"
               Samples.two_years 2011 2010 true). lia.
    + apply (proj1 empty_range_runs_nothing Samples.writes_ok "in" "out"
               Samples.two_years 2011 2010 true); [lia|].
      right. reflexivity.
  - destruct (proj1 empty_range_runs_nothing MoreSamples.no_output_directory
                "in" "out" Samples.two_years 2011 2010 true)
      as (_ & _ & Hout & _); [lia|].
    exact Hout.
  - apply (proj2 empty_range_runs_nothing Samples.cds_ok "data" 2011 3 2010 12
             ["2m_temperature"] [90; -180; -90; 180]
             (mkdate 2011 3 1) (mkdate 2010 12 1));
      reflexivity.
Defined.

(** ** File names *)

Section TargetFacts.

Import Fetcher.

Lemma target_of_join target_path y m :
  target_of target_path y m = Aggregator.join target_path (file_name y m).
Proof. reflexivity. Qed.

Lemma target_of_inj target_path y m y' m' :
  target_of target_path y m = target_of target_path y' m' ->
  y = y' /\ m = m'.
Proof.
  rewrite !target_of_join. intros H.
  apply join_inj in H. apply file_name_inj. exact H.
Qed.

Lemma requests_app tr tr' : requests (tr ++ tr') = requests tr ++ requests tr'.
Proof. unfold requests. apply flat_map_app. Qed.

Lemma fetch_month_targets cds target_path variables area y m :
  let targets := map snd (requests (trace (fetch_month cds target_path
                                             variables area (y, m)))) in
  targets = [] \/ targets = [target_of target_path y m].
Proof.
  unfold fetch_month.
  destruct (monthrange_ndays y m) as [n|e]; [|left; reflexivity].
  cbn. destruct (retrieve cds _ _ _); right; reflexivity.
Qed.

Lemma for_each_targets cds target_path variables area months t :
  In t (map snd (requests (trace (for_each months
                    (fetch_month cds target_path variables area))))) ->
  exists y m, In (y, m) months /\ t = target_of target_path y m.
Proof.
  induction months as [|[y m] months IH]; cbn [for_each].
  - intros [].
  - rewrite trace_bind, requests_app, map_app, in_app_iff.
    intros [H|H].
    + destruct (fetch_month_targets cds target_path variables area y m)
        as [E|E]; rewrite E in H; [destruct H|].
      destruct H as [<-|[]].
      exists y, m. split; [left|]; reflexivity.
    + destruct (outcome _); [|destruct H].
      destruct (IH H) as (y' & m' & Hin & Ht).
      exists y', m'. split; [right|]; assumption.
Qed.

Lemma for_each_targets_NoDup cds target_path variables area months :
  NoDup months ->
  NoDup (map snd (requests (trace (for_each months
                     (fetch_month cds target_path variables area))))).
Proof.
  induction 1 as [|[y m] months Hnin Hnd IH]; cbn [for_each].
  - constructor.
  - rewrite trace_bind, requests_app, map_app.
    assert (Hrest : NoDup (map snd (requests
              match outcome (fetch_month cds target_path variables area (y, m)) with
              | Return _ => trace (for_each months
                                     (fetch_month cds target_path variables area))
              | Raise _ => []
              end)))
      by (destruct (outcome _); [exact IH|constructor]).
    destruct (fetch_month_targets cds target_path variables area y m)
      as [E|E]; rewrite E; [exact Hrest|].
    cbn [app]. constructor; [|exact Hrest].
    intros Hin. destruct (outcome _); [|destruct Hin].
    apply for_each_targets in Hin. destruct Hin as (y' & m' & Hin & Ht).
    apply target_of_inj in Ht. destruct Ht as [-> ->]. contradiction.
Qed.

Lemma date_list_from_NoDup sy sm ey em months :
  MINYEAR <= sy <= MAXYEAR -> 1 <= sm <= 12 ->
  MINYEAR <= ey <= MAXYEAR -> 1 <= em <= 12 ->
  date_list_from (mkdate sy sm 1) (mkdate ey em 1) = Return months ->
  NoDup months.
Proof.
  intros Hsy Hsm Hey Hem H.
  destruct (Z.eq_dec (month_index ey em) (month_index MAXYEAR 12)) as [E|E].
  - assert (ey = MAXYEAR /\ em = 12) as [-> ->]
      by (unfold month_index, MINYEAR, MAXYEAR in *; lia).
    rewrite (date_list_from_december_9999 _ sy sm Hsy Hsm eq_refl) in H.
    discriminate.
  - rewrite (date_list_from_months
               (Z.to_nat (month_index ey em + 1 - month_index sy sm))
               sy sm ey em Hsy Hsm Hem) in H;
      [|unfold month_index, MINYEAR, MAXYEAR in *; lia|reflexivity].
    injection H as <-. apply calendar_months_NoDup.
Qed.

Lemma api_targets_NoDup cds target_path sy sm ey em variables area :
  NoDup (map snd (requests (trace (api_era5_land cds target_path
                                     sy sm ey em variables area)))).
Proof.
  unfold api_era5_land.
  destruct (datetime sy sm 1) as [s|e] eqn:Hs; [|constructor].
  destruct (datetime ey em 1) as [e|x] eqn:He; [|constructor].
  apply datetime_inv in Hs, He.
  destruct Hs as (-> & Hsy & Hsm), He as (-> & Hey & Hem).
  unfold bind at 1. unfold lift at 1.
  unfold bind at 1. unfold lift at 1.
  destruct (date_list_from _ _) as [months|x] eqn:Hl; [|constructor].
  apply date_list_from_NoDup in Hl; try assumption.
  unfold bind at 1. unfold lift at 1.
  destruct (Client cds); [constructor|].
  unfold or_raise, ret, bind at 1.
  pose proof (for_each_targets_NoDup cds target_path variables area months Hl)
    as Hnd.
  destruct (for_each months _) as [tr r]. exact Hnd.
Qed.

End TargetFacts.

(** C7: the path the Fetcher writes a month to determines the month: two
    pairs (year, month) give the same path only when they are the same
    pair, and within a run no path is requested twice. *)
Theorem target_path_injective target_path :
  (forall y m y' m',
     Fetcher.target_of target_path y m = Fetcher.target_of target_path y' m'
     <-> y = y' /\ m = m')
  /\ (forall y m,
        Fetcher.target_of target_path y m
        = (target_path ++ "/" ++ str y ++ "_months" ++ format_02d m
           ++ "_europe.grib")%string)
  /\ (forall cds start_year start_month end_year end_month variables area,
        NoDup (map snd
                 (Fetcher.requests
                    (trace (Fetcher.api_era5_land cds target_path start_year
                              start_month end_year end_month variables
                              area))))).
Proof.
  split; [|split].
  - intros y m y' m'. split; [apply target_of_inj|].
    intros [-> ->]. reflexivity.
  - reflexivity.
  - intros. apply api_targets_NoDup.
Qed.

(** C1, at the edge of the calendar: a range that ends in December 9999
    never reaches the client.  After the last month the loop builds the
    [datetime] of January 10000, which raises; the run ends in ValueError
    with no request issued, whatever the start of the range. *)
Theorem december_9999_raises cds target_path start_year start_month
    variables area :
  Fetcher.api_era5_land cds target_path start_year start_month MAXYEAR 12
    variables area
  = ([], Raise ValueError).
Proof.
  unfold Fetcher.api_era5_land.
  destruct (datetime start_year start_month 1) as [s|e] eqn:Hs.
  - apply datetime_inv in Hs. destruct Hs as (-> & Hy & Hm).
    unfold bind at 1. unfold lift at 1.
    change (datetime MAXYEAR 12 1) with (Return (mkdate MAXYEAR 12 1)).
    unfold bind at 1. unfold lift at 1.
    rewrite (date_list_from_december_9999 _ start_year start_month Hy Hm
               eq_refl).
    reflexivity.
  - apply datetime_raises in Hs. subst e. reflexivity.
Qed.


(** ** The combined dataset and the requests of a run *)

(** Every row of the dataset a run returns lies in a year of the range and
    holds, under some data variable, a value that is not NaN: no row whose
    variables are all missing reaches the combined dataset. *)
Theorem combined_rows_hold_data to_netcdf inputs outputs dir
    start_year end_year save combined :
  outcome (Aggregator.aggregate_era5_land_timeseries to_netcdf inputs
             outputs dir start_year end_year save) = Return combined ->
  Forall (fun r =>
            start_year <= Aggregator.dt_year (Aggregator.valid_time r)
              <= end_year
            /\ exists v c, In v (Aggregator.data_vars combined)
                           /\ In c (Aggregator.lookup_var v r)
                           /\ c <> Aggregator.NaN)
    (Aggregator.rows combined).
Proof.
  intros H. apply aggregate_returned in H.
  unfold Aggregator.combine_years in H.
  apply (for_fold_holds_data inputs dir start_year end_year) in H.
  - eapply Forall_impl; [|exact H].
    intros r [Hd Hy]. split; [exact Hy|]. apply has_data_iff. exact Hd.
  - apply Forall_forall. intros y Hy. apply in_range in Hy. lia.
  - constructor.
Qed.

Lemma combined_rows_hold_data_witness :
  exists combined,
    outcome (Aggregator.aggregate_era5_land_timeseries Samples.writes_ok
               "in" "out" Samples.two_years 2009 2012 true) = Return combined
    /\ Forall (fun r =>
                 2009 <= Aggregator.dt_year (Aggregator.valid_time r) <= 2012
                 /\ exists v c, In v (Aggregator.data_vars combined)
                                /\ In c (Aggregator.lookup_var v r)
                                /\ c <> Aggregator.NaN)
         (Aggregator.rows combined).
Proof.
  eexists. split; [vm_compute; reflexivity|].
  apply (combined_rows_hold_data Samples.writes_ok "in" "out"
           Samples.two_years 2009 2012 true).
  vm_compute. reflexivity.
Defined.

Lemma api_era5_land_requests_witness :
  let run := Fetcher.api_era5_land Samples.cds_ok "data" 2019 11 2020 2
               ["2m_temperature"] [90; -180; -90; 180] in
  outcome run = Return tt
  /\ map snd (Fetcher.requests (trace run))
     = ["data/2019_months11_europe.grib"; "data/2019_months12_europe.grib";
        "data/2020_months01_europe.grib"; "data/2020_months02_europe.grib"]
  /\ map (fun rt => List.length (Fetcher.req_day (fst rt)))
       (Fetcher.requests (trace run))
     = [30; 31; 31; 29]%nat.
Proof.
  destruct (api_era5_land_requests Samples.cds_ok "data" 2019 11 2020 2
              ["2m_temperature"] [90; -180; -90; 180])
    as (Hout & Hreq & _);
    try (unfold MINYEAR, MAXYEAR, month_index; lia); try reflexivity.
  cbv zeta. split; [exact Hout|]. rewrite Hreq.
  split; vm_compute; reflexivity.
Defined.

(** ** Failures of the Fetcher *)

Section FetcherFailures.

Import Fetcher FetcherSpec.

Lemma datetime_invalid y m :
  ~ (MINYEAR <= y <= MAXYEAR /\ 1 <= m <= 12) ->
  datetime y m 1 = Raise ValueError.
Proof.
  intros H. destruct (datetime y m 1) as [d|e] eqn:E.
  - apply datetime_inv in E. tauto.
  - apply datetime_raises in E. subst e. reflexivity.
Qed.

(** With dates that are valid and an end before December 9999, what is
    left of the run is the client and the loop over the calendar months. *)
Lemma api_era5_land_in_range cds target_path sy sm ey em variables area :
  MINYEAR <= sy <= MAXYEAR -> 1 <= sm <= 12 ->
  MINYEAR <= ey <= MAXYEAR -> 1 <= em <= 12 ->
  month_index ey em < month_index MAXYEAR 12 ->
  api_era5_land cds target_path sy sm ey em variables area
  = bind (or_raise (Client cds))
      (fun _ => for_each (calendar_months sy sm ey em)
                  (fetch_month cds target_path variables area)).
Proof.
  intros Hsy Hsm Hey Hem Hmax. unfold api_era5_land.
  rewrite !datetime_first by assumption.
  unfold bind at 1. unfold lift at 1.
  unfold bind at 1. unfold lift at 1.
  rewrite (date_list_from_months _ sy sm ey em Hsy Hsm Hem Hmax eq_refl).
  unfold bind at 1. unfold lift at 1.
  destruct (bind _ _) as [tr r]. reflexivity.
Qed.

Lemma fetch_month_done cds target_path variables area ym :
  1 <= snd ym <= 12 ->
  answer cds target_path variables area ym = None ->
  fetch_month cds target_path variables area ym
  = (month_events target_path variables area ym, Return tt).
Proof.
  destruct ym as [y m]. cbn [snd]. intros Hm Hok. unfold fetch_month.
  rewrite monthrange_ndays_length by assumption.
  unfold answer, expected_request in Hok. cbn [fst snd] in Hok.
  unfold bind, lift, emit. rewrite Hok. reflexivity.
Qed.

Lemma fetch_month_failed cds target_path variables area ym e :
  1 <= snd ym <= 12 ->
  answer cds target_path variables area ym = Some e ->
  fetch_month cds target_path variables area ym
  = ([month_attempt target_path variables area ym], Raise e).
Proof.
  destruct ym as [y m]. cbn [snd]. intros Hm Hko. unfold fetch_month.
  rewrite monthrange_ndays_length by assumption.
  unfold answer, expected_request in Hko. cbn [fst snd] in Hko.
  unfold bind, lift, emit. rewrite Hko. reflexivity.
Qed.

Lemma for_each_until_failure cds target_path variables area done :
  forall failing later e,
  Forall (fun ym => 1 <= snd ym <= 12) (done ++ failing :: later) ->
  Forall (fun ym => answer cds target_path variables area ym = None) done ->
  answer cds target_path variables area failing = Some e ->
  for_each (done ++ failing :: later)
    (fetch_month cds target_path variables area)
  = (flat_map (month_events target_path variables area) done
     ++ [month_attempt target_path variables area failing], Raise e).
Proof.
  induction done as [|ym done IH]; intros failing later e Hv Hok Hko.
  - cbn [app for_each flat_map]. inversion Hv as [|? ? Hm _]; subst.
    rewrite (fetch_month_failed _ _ _ _ _ e Hm Hko). reflexivity.
  - inversion Hv as [|? ? Hm Hv']; subst.
    inversion Hok as [|? ? Hym Hok']; subst.
    change ((ym :: done) ++ failing :: later)
      with (ym :: (done ++ failing :: later)).
    cbn [for_each flat_map].
    rewrite (fetch_month_done _ _ _ _ _ Hm Hym).
    rewrite (IH failing later e Hv' Hok' Hko). reflexivity.
Qed.

End FetcherFailures.

(** A retrieval that fails ends the run.  When the client raises on the
    call for one month of the range, the months before it have been
    fetched, each call followed by its printed line; the failing call is
    the last event, the run ends in the client's exception, and no later
    month is requested. *)
Theorem retrieval_failure_ends_run cds target_path sy sm ey em variables area
    done failing later e :
  MINYEAR <= sy <= MAXYEAR -> 1 <= sm <= 12 ->
  MINYEAR <= ey <= MAXYEAR -> 1 <= em <= 12 ->
  month_index ey em < month_index MAXYEAR 12 ->
  Fetcher.Client cds = None ->
  calendar_months sy sm ey em = done ++ failing :: later ->
  Forall (fun ym => FetcherSpec.answer cds target_path variables area ym
                    = None) done ->
  FetcherSpec.answer cds target_path variables area failing = Some e ->
  let run := Fetcher.api_era5_land cds target_path sy sm ey em
               variables area in
  run = (flat_map (FetcherSpec.month_events target_path variables area) done
         ++ [FetcherSpec.month_attempt target_path variables area failing],
         Raise e)
  /\ Fetcher.requests (trace run)
     = map (expected_request target_path variables area) (done ++ [failing]).
Proof.
  intros Hsy Hsm Hey Hem Hmax Hclient Hsplit Hok Hko run.
  assert (Hrun : run
            = (flat_map (FetcherSpec.month_events target_path variables area)
                 done
               ++ [FetcherSpec.month_attempt target_path variables area
                     failing], Raise e)).
  { unfold run. rewrite api_era5_land_in_range by assumption.
    rewrite Hclient, Hsplit.
    rewrite (for_each_until_failure cds target_path variables area done
               failing later e); [reflexivity| |exact Hok|exact Hko].
    rewrite <- Hsplit. apply calendar_months_valid. }
  split; [exact Hrun|]. rewrite Hrun. cbn [trace fst].
  rewrite requests_app, map_app. f_equal.
  clear. induction done as [|ym done IH]; [reflexivity|].
  cbn [flat_map map]. rewrite requests_app, IH.
  destruct (expected_request target_path variables area ym) eqn:E.
  unfold FetcherSpec.month_events, FetcherSpec.month_attempt.
  rewrite E. reflexivity.
Qed.

Lemma retrieval_failure_ends_run_witness :
  let run := Fetcher.api_era5_land
               (MoreSamples.cds_fails_on "data/2020_months01_europe.grib")
               "data" 2019 11 2020 3 ["2m_temperature"]
               [90; -180; -90; 180] in
  outcome run = Raise ClientError
  /\ map snd (Fetcher.requests (trace run))
     = ["data/2019_months11_europe.grib"; "data/2019_months12_europe.grib";
        "data/2020_months01_europe.grib"].
Proof.
  destruct (retrieval_failure_ends_run
              (MoreSamples.cds_fails_on "data/2020_months01_europe.grib")
              "data" 2019 11 2020 3 ["2m_temperature"] [90; -180; -90; 180]
              [(2019, 11); (2019, 12)] (2020, 1) [(2020, 2); (2020, 3)]
              ClientError) as [Hrun Hreq];
    try (unfold MINYEAR, MAXYEAR, month_index; lia); try reflexivity.
  - repeat constructor.
  - cbv zeta. rewrite Hreq, Hrun. split; reflexivity.
Defined.

(** An invalid date, or a client that cannot be built, ends the run before
    anything is requested: a year outside 1..9999 or a month outside 1..12,
    at the start or at the end, gives ValueError whatever the remote side
    is; with valid dates the exception of [cdsapi.Client()] is the outcome
    and the trace is empty. *)
Theorem no_request_before_valid_setup cds target_path sy sm ey em
    variables area :
  (~ (MINYEAR <= sy <= MAXYEAR /\ 1 <= sm <= 12
      /\ MINYEAR <= ey <= MAXYEAR /\ 1 <= em <= 12) ->
   Fetcher.api_era5_land cds target_path sy sm ey em variables area
   = ([], Raise ValueError))
  /\ (forall e,
        MINYEAR <= sy <= MAXYEAR -> 1 <= sm <= 12 ->
        MINYEAR <= ey <= MAXYEAR -> 1 <= em <= 12 ->
        month_index ey em < month_index MAXYEAR 12 ->
        Fetcher.Client cds = Some e ->
        Fetcher.api_era5_land cds target_path sy sm ey em variables area
        = ([], Raise e)).
Proof.
  split.
  - intros Hbad. unfold Fetcher.api_era5_land.
    destruct (datetime sy sm 1) as [s|x] eqn:Hs.
    + apply datetime_inv in Hs. destruct Hs as (_ & Hsy & Hsm).
      rewrite (datetime_invalid ey em) by tauto. reflexivity.
    + apply datetime_raises in Hs. subst x. reflexivity.
  - intros e Hsy Hsm Hey Hem Hmax Hclient.
    rewrite api_era5_land_in_range by assumption.
    rewrite Hclient. reflexivity.
Qed.

Lemma no_request_before_valid_setup_witness :
  Fetcher.api_era5_land Samples.cds_ok "data" 2019 13 2020 2
    ["2m_temperature"] [90; -180; -90; 180] = ([], Raise ValueError)
  /\ Fetcher.api_era5_land MoreSamples.cds_no_client "data" 2019 11 2020 2
       ["2m_temperature"] [90; -180; -90; 180] = ([], Raise ClientError).
Proof.
  split.
  - apply (proj1 (no_request_before_valid_setup Samples.cds_ok "data"
                    2019 13 2020 2 ["2m_temperature"] [90; -180; -90; 180])).
    unfold MINYEAR, MAXYEAR. lia.
  - apply (proj2 (no_request_before_valid_setup MoreSamples.cds_no_client
                    "data" 2019 11 2020 2 ["2m_temperature"]
                    [90; -180; -90; 180]));
      try (unfold MINYEAR, MAXYEAR, month_index; lia); reflexivity.
Defined.

(** The number of requests of a run that meets no failure is the number
    of months from the start to the end, both included: twelve for each
    year from one to the other, and the difference of the months, plus
    one; none when the start is after the end. *)
Theorem request_count cds target_path sy sm ey em variables area :
  MINYEAR <= sy <= MAXYEAR -> 1 <= sm <= 12 ->
  MINYEAR <= ey <= MAXYEAR -> 1 <= em <= 12 ->
  month_index ey em < month_index MAXYEAR 12 ->
  Fetcher.Client cds = None ->
  (forall r t, Fetcher.retrieve cds "reanalysis-era5-land" r t = None) ->
  List.length
    (Fetcher.requests
       (trace (Fetcher.api_era5_land cds target_path sy sm ey em
                 variables area)))
  = Z.to_nat (12 * (ey - sy) + (em - sm) + 1).
Proof.
  intros Hsy Hsm Hey Hem Hmax Hclient Hok.
  rewrite api_era5_land_in_range by assumption.
  rewrite Hclient, trace_bind.
  cbn [Fetcher.or_raise ret trace outcome fst snd app].
  destruct (for_each_fetch cds target_path variables area
              (calendar_months sy sm ey em)
              (calendar_months_valid sy sm ey em) Hok) as [_ Hreq].
  rewrite Hreq, length_map. unfold calendar_months.
  rewrite length_map, range_length. unfold month_index. f_equal. lia.
Qed.

Lemma request_count_witness :
  List.length
    (Fetcher.requests
       (trace (Fetcher.api_era5_land Samples.cds_ok "data" 2009 1 2019 12
                 ["2m_temperature"] [90; -180; -90; 180])))
  = 132%nat.
Proof.
  rewrite (request_count Samples.cds_ok "data" 2009 1 2019 12);
    try (unfold MINYEAR, MAXYEAR, month_index; lia); reflexivity.
Defined.

(** ** The combined dataset over any number of years *)

Section CombinedFacts.

Import Aggregator AggregatorSpec AggregatorReads.

Variables (inputs : string) (dir : Directory).

(** What the body of the loop can hand on when it returns. *)
Lemma process_year_result ds_variable year ds' :
  outcome (process_year inputs dir ds_variable year) = Return ds' ->
  (year_files inputs dir year = [] /\ ds' = ds_variable)
  \/ exists g,
       year_files inputs dir year <> []
       /\ open_mfdataset inputs dir (year_files inputs dir year) = Return g
       /\ (ds' = concat_valid_time ds_variable
                   (clean_year (stack_valid_time g) year)
           \/ ds' = clean_year (stack_valid_time g) year).
Proof.
  rewrite process_year_cases.
  destruct (year_files inputs dir year) as [|f fs] eqn:F.
  - intros [= <-]. left. auto.
  - destruct (open_mfdataset inputs dir (f :: fs)) as [g|e]; [|discriminate].
    cbn [outcome snd]. intros [= <-]. right. exists g.
    split; [discriminate|]. split; [reflexivity|].
    destruct (truthy ds_variable); auto.
Qed.

Lemma clean_year_in_year ds year :
  Forall (fun r => dt_year (valid_time r) = year) (rows (clean_year ds year)).
Proof.
  apply Forall_forall. intros r Hr. apply in_clean_year in Hr. tauto.
Qed.

Lemma process_year_ascending ds_variable year ds' :
  StronglySorted dt_le (timestamps (rows ds_variable)) ->
  Forall (fun r => dt_year (valid_time r) < year) (rows ds_variable) ->
  outcome (process_year inputs dir ds_variable year) = Return ds' ->
  StronglySorted dt_le (timestamps (rows ds'))
  /\ Forall (fun r => dt_year (valid_time r) < year + 1) (rows ds').
Proof.
  intros Hs Hb Hout.
  assert (Hb' : Forall (fun r => dt_year (valid_time r) < year + 1)
                  (rows ds_variable))
    by (eapply Forall_impl; [|exact Hb]; cbv beta; intros; lia).
  assert (Hc : forall g,
            Forall (fun r => dt_year (valid_time r) < year + 1)
              (rows (clean_year (stack_valid_time g) year))).
  { intros g. eapply Forall_impl; [|apply clean_year_in_year].
    cbv beta. intros; lia. }
  apply process_year_result in Hout.
  destruct Hout as [[_ ->]|(g & _ & _ & [->| ->])].
  - auto.
  - split; [|cbn [rows concat_valid_time]; apply Forall_app; auto].
    cbn [rows concat_valid_time]. unfold timestamps. rewrite map_app.
    apply StronglySorted_app; [exact Hs|apply clean_year_sorted|].
    intros a b Ha Hb0. apply in_map_iff in Ha, Hb0.
    destruct Ha as [ra [<- Ha]], Hb0 as [rb [<- Hrb]].
    apply dt_leb_ltb. left. apply dt_year_lt.
    pose proof (proj1 (Forall_forall _ _) Hb ra Ha) as H1.
    pose proof (proj1 (Forall_forall _ _) (clean_year_in_year _ _) rb Hrb)
      as H2.
    cbv beta in H1, H2. lia.
  - split; [apply clean_year_sorted|apply Hc].
Qed.

Lemma for_fold_ascending n : forall lo hi ds_variable ds,
  Z.to_nat (hi - lo) = n ->
  StronglySorted dt_le (timestamps (rows ds_variable)) ->
  Forall (fun r => dt_year (valid_time r) < lo) (rows ds_variable) ->
  outcome (for_fold (range lo hi) (process_year inputs dir) ds_variable)
  = Return ds ->
  StronglySorted dt_le (timestamps (rows ds)).
Proof.
  induction n as [|n IH]; intros lo hi acc ds Hn Hs Hb.
  - rewrite range_nil by lia. intros [= <-]. exact Hs.
  - rewrite range_cons by lia. cbn [for_fold]. rewrite outcome_bind.
    destruct (outcome (process_year inputs dir acc lo)) as [acc'|e] eqn:E;
      [|discriminate].
    destruct (process_year_ascending acc lo acc' Hs Hb E) as [Hs' Hb'].
    apply IH; try assumption. lia.
Qed.

(** A year without files prints its line and nothing else happens. *)
Lemma for_fold_no_files years : forall ds_variable,
  (forall y, In y years -> glob inputs dir (grib_pattern y) = []) ->
  for_fold years (process_year inputs dir) ds_variable
  = (map (fun y => Print (no_file_message inputs y)) years,
     Return ds_variable).
Proof.
  induction years as [|y years IH]; intros acc H; [reflexivity|].
  cbn [for_fold map]. rewrite process_year_cases. unfold year_files.
  rewrite (H y) by (left; reflexivity).
  cbn [sorted sort_stable]. unfold bind at 1. cbv beta.
  rewrite IH by (intros y' Hy'; apply H; right; exact Hy').
  reflexivity.
Qed.

(** The lines of a year, by whether it has files. *)
Lemma process_year_printed ds_variable year ds' :
  outcome (process_year inputs dir ds_variable year) = Return ds' ->
  printed (trace (process_year inputs dir ds_variable year))
  = match year_files inputs dir year with
    | [] => [no_file_message inputs year]
    | _ :: _ => progress_messages year
    end.
Proof.
  rewrite process_year_cases.
  destruct (year_files inputs dir year) as [|f fs]; [reflexivity|].
  destruct (open_mfdataset inputs dir (f :: fs)); [reflexivity|discriminate].
Qed.

Lemma printed_app tr tr' : printed (tr ++ tr') = printed tr ++ printed tr'.
Proof. unfold printed. apply flat_map_app. Qed.

Lemma for_fold_printed years : forall ds_variable ds,
  outcome (for_fold years (process_year inputs dir) ds_variable) = Return ds ->
  printed (trace (for_fold years (process_year inputs dir) ds_variable))
  = flat_map (fun year => match year_files inputs dir year with
                          | [] => [no_file_message inputs year]
                          | _ :: _ => progress_messages year
                          end) years.
Proof.
  induction years as [|y years IH]; intros acc ds; [reflexivity|].
  cbn [for_fold flat_map]. rewrite outcome_bind, trace_bind, printed_app.
  destruct (outcome (process_year inputs dir acc y)) as [acc'|e] eqn:E;
    [|discriminate].
  intros H. rewrite (process_year_printed acc y acc' E), (IH acc' ds H).
  reflexivity.
Qed.

End CombinedFacts.

(** Whatever the number of years, the dataset a run returns is in
    ascending order of valid time from its first row to its last: each
    year's slice is sorted, and the years are appended in ascending
    order. *)
Theorem combined_ascending to_netcdf inputs outputs dir start_year end_year
    save combined :
  outcome (Aggregator.aggregate_era5_land_timeseries to_netcdf inputs
             outputs dir start_year end_year save) = Return combined ->
  StronglySorted dt_le (Aggregator.timestamps (Aggregator.rows combined)).
Proof.
  intros H. apply aggregate_returned in H.
  unfold Aggregator.combine_years in H.
  eapply (for_fold_ascending inputs dir _ start_year (end_year + 1)
            Aggregator.empty_dataset combined eq_refl); try constructor.
  exact H.
Qed.

Lemma combined_ascending_witness :
  exists combined,
    outcome (Aggregator.aggregate_era5_land_timeseries Samples.writes_ok
               "in" "out" MoreSamples.with_strays 2009 2012 true)
    = Return combined
    /\ StronglySorted dt_le
         (Aggregator.timestamps (Aggregator.rows combined)).
Proof.
  eexists. split; [vm_compute; reflexivity|].
  apply (combined_ascending Samples.writes_ok "in" "out"
           MoreSamples.with_strays 2009 2012 true).
  vm_compute. reflexivity.
Defined.

(** A directory that holds no file of any year of the range, such as an
    empty one, is no error for the loop: the run prints the line of each
    year, in order, opens nothing and builds the empty dataset.  With
    [save=False] it returns it; with [save=True] it hands it to
    [to_netcdf], returns it when the write succeeds, and ends in the
    exception of the write otherwise. *)
Theorem no_file_in_range to_netcdf inputs outputs dir start_year end_year
    save :
  (forall y, start_year <= y <= end_year ->
     Aggregator.glob inputs dir (Aggregator.grib_pattern y) = []) ->
  let run := Aggregator.aggregate_era5_land_timeseries to_netcdf inputs
               outputs dir start_year end_year save in
  let path := Aggregator.output_path outputs start_year end_year in
  trace run
  = map (fun y => Aggregator.Print
                    ("No file for year " ++ str y ++ " found in "
                     ++ inputs)%string)
      (range start_year (end_year + 1))
    ++ (if save
        then [Aggregator.ToNetcdf path Aggregator.empty_dataset]
        else [])
  /\ outcome run
     = (if save
        then match to_netcdf path Aggregator.empty_dataset with
             | None => Return Aggregator.empty_dataset
             | Some e => Raise e
             end
        else Return Aggregator.empty_dataset)
  /\ (save = false \/ to_netcdf path Aggregator.empty_dataset = None ->
      outcome run = Return Aggregator.empty_dataset).
Proof.
  intros H run path. subst run.
  rewrite aggregate_trace, aggregate_outcome.
  unfold Aggregator.combine_years.
  rewrite for_fold_no_files
    by (intros y Hy; apply in_range in Hy; apply H; lia).
  cbn [trace outcome fst snd]. fold path.
  split; [reflexivity|]. split; [reflexivity|].
  intros [->|Hw]; [reflexivity|].
  rewrite Hw. destruct save; reflexivity.
Qed.

Lemma no_file_in_range_witness :
  Aggregator.aggregate_era5_land_timeseries Samples.writes_ok "in" "out"
    [] 2009 2010 true
  = ([Aggregator.Print "No file for year 2009 found in in";
      Aggregator.Print "No file for year 2010 found in in";
      Aggregator.ToNetcdf "out/inflows_var_era5_2009to2010.nc"
        Aggregator.empty_dataset],
     Return Aggregator.empty_dataset)
  /\ outcome (Aggregator.aggregate_era5_land_timeseries
                MoreSamples.no_output_directory "in" "out" [] 2009 2010 true)
     = Raise OSError.
Proof.
  split.
  - apply eff_eq.
    + apply (no_file_in_range Samples.writes_ok "in" "out" [] 2009 2010 true).
      intros y _. rewrite glob_grib. reflexivity.
    + apply (no_file_in_range Samples.writes_ok "in" "out" [] 2009 2010 true);
        [intros y _; rewrite glob_grib; reflexivity|].
      right. reflexivity.
  - destruct (no_file_in_range MoreSamples.no_output_directory "in" "out"
                [] 2009 2010 true) as (_ & Hout & _);
      [intros y _; rewrite glob_grib; reflexivity|].
    exact Hout.
Defined.

(** A run that returns has printed, for each year of the range in
    ascending order, either the line of a year without files or the four
    progress lines of a year whose files were opened. *)
Theorem printed_lines_of_a_run to_netcdf inputs outputs dir
    start_year end_year save combined :
  outcome (Aggregator.aggregate_era5_land_timeseries to_netcdf inputs
             outputs dir start_year end_year save) = Return combined ->
  Aggregator.printed
    (trace (Aggregator.aggregate_era5_land_timeseries to_netcdf inputs
              outputs dir start_year end_year save))
  = flat_map
      (fun year =>
         match Aggregator.glob inputs dir (Aggregator.grib_pattern year) with
         | [] => [("No file for year " ++ str year ++ " found in "
                   ++ inputs)%string]
         | _ :: _ =>
             [("Opening GRIB files for year " ++ str year ++ "...")%string;
              ("Processing year " ++ str year ++ " ...")%string;
              ("Filtering data for year " ++ str year ++ " ...")%string;
              "Concatenating datasets..."]
         end)
      (range start_year (end_year + 1)).
Proof.
  intros H. apply aggregate_returned in H.
  rewrite aggregate_trace, H, printed_app.
  unfold Aggregator.combine_years in *.
  rewrite (for_fold_printed inputs dir _ _ combined H).
  replace (Aggregator.printed _) with (@nil string)
    by (destruct save; reflexivity).
  rewrite app_nil_r. apply flat_map_ext. intros year.
  unfold AggregatorSpec.year_files, sorted.
  destruct (Aggregator.glob inputs dir (Aggregator.grib_pattern year))
    as [|p ps] eqn:G; [reflexivity|].
  destruct (sort_stable String.leb (p :: ps)) as [|q qs] eqn:S;
    [|reflexivity].
  exfalso.
  assert (Hin : In p (sort_stable String.leb (p :: ps)))
    by (apply in_sort_stable; left; reflexivity).
  rewrite S in Hin. destruct Hin.
Qed.

Lemma printed_lines_of_a_run_witness :
  Aggregator.printed
    (trace (Aggregator.aggregate_era5_land_timeseries Samples.writes_ok
              "in" "out" Samples.two_years 2010 2011 false))
  = ["Opening GRIB files for year 2010..."; "Processing year 2010 ...";
     "Filtering data for year 2010 ..."; "Concatenating datasets...";
     "Opening GRIB files for year 2011..."; "Processing year 2011 ...";
     "Filtering data for year 2011 ..."; "Concatenating datasets..."].
Proof.
  rewrite (printed_lines_of_a_run Samples.writes_ok "in" "out"
             Samples.two_years 2010 2011 false _ eq_refl).
  reflexivity.
Defined.

(** ** Where the rows of the combined dataset come from *)

Section Provenance.

Import Aggregator AggregatorSpec AggregatorReads.

Variables (inputs : string) (dir : Directory).


Lemma read_files_each paths : forall gs,
  read_files inputs dir paths = Return gs ->
  (forall g, In g gs ->
     exists p, In p paths /\ read_file inputs dir p = Return g)
  /\ (forall p, In p paths ->
        exists g, In g gs /\ read_file inputs dir p = Return g).
Proof.
  induction paths as [|p paths IH]; intros gs; cbn [read_files].
  - intros [= <-]. split; intros ? [].
  - destruct (read_file inputs dir p) as [g|e] eqn:R; [|discriminate].
    destruct (read_files inputs dir paths) as [gs'|e]; [|discriminate].
    intros [= <-]. destruct (IH gs' eq_refl) as [IH1 IH2]. split.
    + intros g' [<-|Hin]; [exists p; split; [left|]; auto|].
      destruct (IH1 g' Hin) as (p' & Hp' & Hr). exists p'. split; [right|]; auto.
    + intros p' [<-|Hin]; [exists g; split; [left|]; auto|].
      destruct (IH2 p' Hin) as (g' & Hg' & Hr). exists g'. split; [right|]; auto.
Qed.

Lemma open_mfdataset_files paths merged :
  open_mfdataset inputs dir paths = Return merged ->
  exists gs,
    read_files inputs dir paths = Return gs
    /\ grib_vars merged = fold_left union_vars (map grib_vars gs) []
    /\ grib_cube merged = List.concat (map grib_cube gs).
Proof.
  unfold open_mfdataset. destruct paths as [|p paths]; [discriminate|].
  destruct (read_files inputs dir (p :: paths)) as [gs|e]; [|discriminate].
  intros [= <-]. exists gs. auto.
Qed.

Lemma in_merged_cube gs r :
  In r (List.concat (List.concat (map grib_cube gs))) <->
  exists g, In g gs /\ In r (cube_rows g).
Proof.
  unfold cube_rows. rewrite in_concat. split.
  - intros (l & Hl & Hr). apply in_concat in Hl.
    destruct Hl as (c & Hc & Hlc). apply in_map_iff in Hc.
    destruct Hc as (g & <- & Hg). exists g. split; [exact Hg|].
    apply in_concat. eauto.
  - intros (g & Hg & Hr). apply in_concat in Hr.
    destruct Hr as (l & Hl & Hr). exists l. split; [|exact Hr].
    apply in_concat. exists (grib_cube g). split; [|exact Hl].
    apply in_map. exact Hg.
Qed.

Lemma in_year_files path year :
  In path (year_files inputs dir year) <->
  exists d name,
    input_dir inputs = Some d /\ path = path_join d name
    /\ In name (map fst dir) /\ fnmatch name (grib_pattern year) = true.
Proof.
  unfold year_files, sorted. rewrite in_sort_stable. apply in_glob.
Qed.




(** A loop that returns has opened every year it met. *)
Lemma for_fold_return_all years : forall ds_variable ds,
  outcome (for_fold years (process_year inputs dir) ds_variable) = Return ds ->
  forall y, In y years -> exists rs, year_slice inputs dir y = Return rs.
Proof.
  induction years as [|y years IH]; intros acc ds H y' Hy'; [destruct Hy'|].
  cbn [for_fold] in H. rewrite outcome_bind in H.
  destruct (year_slice inputs dir y) as [rs|e] eqn:S.
  - destruct Hy' as [<-|Hy']; [eauto|].
    destruct (outcome (process_year inputs dir acc y)) as [acc'|e];
      [|discriminate].
    eapply IH; eassumption.
  - rewrite (process_year_raise inputs dir acc y e S) in H. discriminate.
Qed.

(** What a loop that returns has built: the slices of its years, in the
    order of the years. *)
Lemma for_fold_returned_rows years ds :
  outcome (for_fold years (process_year inputs dir) empty_dataset)
  = Return ds ->
  rows ds = flat_map (slice_rows inputs dir) years.
Proof.
  intros H.
  destruct (for_fold_rows inputs dir years empty_dataset)
    as (ds' & Hds & Hrows & _);
    [intros _; reflexivity|exact (for_fold_return_all _ _ _ H)|].
  rewrite H in Hds. injection Hds as <-. exact Hrows.
Qed.

Lemma in_fold_union_vars ls : forall acc v,
  In v (fold_left union_vars ls acc) <->
  In v acc \/ exists l, In l ls /\ In v l.
Proof.
  induction ls as [|l ls IH]; intros acc v; cbn [fold_left].
  - split; [auto|]. intros [H|(l & [] & _)]. exact H.
  - rewrite IH, in_union_vars. split.
    + intros [[H|H]|(l' & Hl' & Hv)]; eauto.
      * right. exists l. split; [left|]; auto.
      * right. exists l'. split; [right|]; auto.
    + intros [H|(l' & [<-|Hl'] & Hv)]; eauto.
Qed.

(** A path that [glob] has made of an entry's name opens that entry. *)
Lemma read_file_of_entry d name file :
  input_dir inputs = Some d ->
  NoDup (map fst dir) -> In (name, file) dir ->
  read_file inputs dir (path_join d name)
  = match file with
    | Grib g => Return g
    | Unreadable => Raise DatasetError
    end.
Proof.
  intros Hd Hnd Hin. unfold read_file. rewrite Hd.
  rewrite (find_unique _ dir (name, file));
    [destruct file; reflexivity| |exact Hin|apply String.eqb_refl].
  intros a b Ha Hb Hfa Hfb. apply String.eqb_eq in Hfa, Hfb.
  apply (same_name_same_entry dir); try assumption.
  apply (path_join_inj d). congruence.
Qed.

Lemma matched_in_year_files d name file year :
  input_dir inputs = Some d ->
  In (name, file) dir -> fnmatch name (grib_pattern year) = true ->
  In (path_join d name) (year_files inputs dir year).
Proof.
  intros Hd Hin Hm. apply in_year_files. exists d, name.
  repeat split; try assumption.
  apply in_map_iff. exists (name, file). auto.
Qed.

(** When a year's files have been opened, each of them was a GRIB file,
    and its cube and its variables are in what [open_mfdataset] gave. *)
Lemma opened_entry d name file year merged :
  input_dir inputs = Some d -> NoDup (map fst dir) ->
  In (name, file) dir -> fnmatch name (grib_pattern year) = true ->
  open_mfdataset inputs dir (year_files inputs dir year) = Return merged ->
  exists g,
    file = Grib g
    /\ (forall r, In r (cube_rows g) ->
                  In r (List.concat (grib_cube merged)))
    /\ (forall v, In v (grib_vars g) -> In v (grib_vars merged)).
Proof.
  intros Hd Hnd Hin Hm Hopen.
  pose proof (matched_in_year_files d name file year Hd Hin Hm) as Hpath.
  apply open_mfdataset_files in Hopen.
  destruct Hopen as (gs & Hread & Hvars & Hcube).
  destruct (proj2 (read_files_each _ _ Hread) _ Hpath) as (g & Hg & Hrg).
  rewrite (read_file_of_entry d name file Hd Hnd Hin) in Hrg.
  destruct file as [g'|]; [|discriminate]. injection Hrg as ->.
  exists g. split; [reflexivity|]. split.
  - intros r Hr. rewrite Hcube. apply in_merged_cube. eauto.
  - intros v Hv. rewrite Hvars. apply in_fold_union_vars. right.
    exists (grib_vars g). split; [apply in_map; exact Hg|exact Hv].
Qed.

End Provenance.



(** Nothing that holds data is lost.  Let the input directory be named
    without glob characters and let a run return.  For every row of a
    readable file named for a year of the range, if the row's valid time
    lies in that year and one of the file's variables holds a value under
    it that is not NaN, the combined dataset has a row with that valid
    time and, under each variable of the file, the file's values. *)
Theorem no_data_row_lost to_netcdf inputs outputs dir start_year end_year
    save combined name g year r :
  Aggregator.has_magic inputs = false ->
  NoDup (map fst dir) ->
  outcome (Aggregator.aggregate_era5_land_timeseries to_netcdf inputs
             outputs dir start_year end_year save) = Return combined ->
  In (name, Aggregator.Grib g) dir ->
  Aggregator.fnmatch name (Aggregator.grib_pattern year) = true ->
  start_year <= year <= end_year ->
  In r (List.concat (Aggregator.grib_cube g)) ->
  Aggregator.dt_year (Aggregator.valid_time r) = year ->
  (exists v c, In v (Aggregator.grib_vars g)
               /\ In c (Aggregator.lookup_var v r)
               /\ c <> Aggregator.NaN) ->
  exists r',
    In r' (Aggregator.rows combined)
    /\ Aggregator.valid_time r' = Aggregator.valid_time r
    /\ forall v, In v (Aggregator.grib_vars g) ->
                 Aggregator.lookup_var v r' = Aggregator.lookup_var v r.
Proof.
  intros Hplain Hnd Hout Hin Hm Hy Hr Hyr Hdata.
  exists r. split; [|split; [reflexivity|intros; reflexivity]].
  apply aggregate_returned in Hout.
  unfold Aggregator.combine_years in Hout.
  rewrite (for_fold_returned_rows inputs dir _ _ Hout).
  apply in_flat_map. exists year. split; [apply in_range; lia|].
  unfold AggregatorSpec.slice_rows.
  destruct (for_fold_return_all inputs dir _ _ _ Hout year) as [rs Hrs];
    [apply in_range; lia|].
  rewrite Hrs. unfold AggregatorSpec.year_slice in Hrs.
  pose proof (input_dir_plain inputs Hplain) as Hd.
  pose proof (matched_in_year_files inputs dir _ name _ year Hd Hin Hm)
    as Hpath.
  destruct (AggregatorSpec.year_files inputs dir year) as [|f fs] eqn:F;
    [destruct Hpath|].
  destruct (Aggregator.open_mfdataset inputs dir (f :: fs)) as [merged|e]
    eqn:Hopen; [|discriminate].
  injection Hrs as <-. rewrite <- F in Hopen.
  destruct (opened_entry inputs dir _ name _ year merged Hd Hnd Hin Hm Hopen)
    as (g' & [= <-] & Hcube & Hvars).
  apply (proj2 (in_clean_year (Aggregator.stack_valid_time merged) year r)).
  cbn [Aggregator.rows Aggregator.data_vars Aggregator.stack_valid_time].
  split; [apply Hcube; exact Hr|]. split; [exact Hyr|].
  apply has_data_iff. destruct Hdata as (v & c & Hv & Hc & Hne).
  exists v, c. auto.
Qed.

Lemma no_data_row_lost_witness :
  exists combined r',
    outcome (Aggregator.aggregate_era5_land_timeseries Samples.writes_ok
               "in" "out" Samples.two_years 2009 2012 false)
    = Return combined
    /\ In r' (Aggregator.rows combined)
    /\ Aggregator.valid_time r' = Samples.at_hour 2011 1 1 6
    /\ Aggregator.lookup_var "t2m" r' = [Aggregator.Num 281].
Proof.
  pose (combined :=
          match outcome (Aggregator.aggregate_era5_land_timeseries
                           Samples.writes_ok "in" "out" Samples.two_years
                           2009 2012 false) with
          | Return ds => ds
          | Raise _ => Aggregator.empty_dataset
          end).
  destruct (no_data_row_lost Samples.writes_ok "in" "out" Samples.two_years
              2009 2012 false combined "2011_months01_europe.grib"
              Samples.grib_2011 2011
              (Samples.t2m (Samples.at_hour 2011 1 1 6) (Aggregator.Num 281))
              eq_refl)
    as (r' & Hin & Ht & Hv).
  - repeat constructor; simpl; intuition discriminate.
  - vm_compute. reflexivity.
  - left. reflexivity.
  - reflexivity.
  - lia.
  - simpl. auto.
  - reflexivity.
  - exists "t2m", (Aggregator.Num 281). repeat split.
    + left. reflexivity.
    + left. reflexivity.
    + discriminate.
  - exists combined, r'. split; [vm_compute; reflexivity|].
    split; [exact Hin|]. split; [exact Ht|].
    apply (Hv "t2m"). left. reflexivity.
Defined.

(** ** Files the run does not look at, and files it cannot read *)

Section Unreadable.

Import Aggregator AggregatorSpec AggregatorReads.

Variable inputs : string.

Lemma read_files_raises dir paths : forall e,
  read_files inputs dir paths = Raise e -> e = DatasetError.
Proof.
  induction paths as [|p paths IH]; intros e; cbn [read_files];
    [discriminate|].
  destruct (read_file inputs dir p) as [g|e'] eqn:R.
  - destruct (read_files inputs dir paths) as [gs|e''];
      [discriminate|]. intros [= <-]. apply IH. reflexivity.
  - intros [= <-]. unfold read_file in R.
    destruct (input_dir inputs); [|congruence].
    destruct (find _ dir) as [[n [g|]]|]; congruence.
Qed.

(** In the loop every exception is a file that could not be opened. *)
Lemma process_year_raises dir ds_variable year e :
  outcome (process_year inputs dir ds_variable year) = Raise e ->
  e = DatasetError.
Proof.
  rewrite process_year_cases.
  destruct (year_files inputs dir year) as [|f fs]; [discriminate|].
  destruct (open_mfdataset inputs dir (f :: fs)) as [g|e'] eqn:O;
    [discriminate|].
  cbn [outcome snd]. intros [= <-].
  unfold open_mfdataset in O.
  destruct (read_files inputs dir (f :: fs)) as [gs|e''] eqn:R;
    [discriminate|].
  injection O as <-. eapply read_files_raises. exact R.
Qed.

Lemma for_fold_raises dir years : forall ds_variable e,
  outcome (for_fold years (process_year inputs dir) ds_variable) = Raise e ->
  e = DatasetError.
Proof.
  induction years as [|y years IH]; intros acc e; [discriminate|].
  cbn [for_fold]. rewrite outcome_bind.
  destruct (outcome (process_year inputs dir acc y)) as [acc'|e'] eqn:E.
  - apply IH.
  - intros [= <-]. eapply process_year_raises. exact E.
Qed.

End Unreadable.

(** The run looks only at names that match the pattern of a year of the
    range.  An entry with any other name changes nothing, wherever it
    stands in the listing and whatever it holds; such are the files the
    Fetcher wrote for a year outside the range, readable or not. *)
Theorem stray_entry_ignored to_netcdf inputs outputs before after file
    start_year end_year save :
  let run := fun listing =>
    Aggregator.aggregate_era5_land_timeseries to_netcdf inputs outputs
      listing start_year end_year save in
  (forall name,
     (forall y, start_year <= y <= end_year ->
        Aggregator.fnmatch name (Aggregator.grib_pattern y) = false) ->
     run (before ++ (name, file) :: after) = run (before ++ after))
  /\ (forall year month,
        ~ start_year <= year <= end_year ->
        run (before ++ (file_name year month, file) :: after)
        = run (before ++ after)).
Proof.
  intros run.
  assert (Hgen : forall name,
            (forall y, start_year <= y <= end_year ->
               Aggregator.fnmatch name (Aggregator.grib_pattern y) = false) ->
            run (before ++ (name, file) :: after) = run (before ++ after)).
  { intros name Hname. unfold run.
    unfold Aggregator.aggregate_era5_land_timeseries, Aggregator.combine_years.
    rewrite (for_fold_ext
               (Aggregator.process_year inputs
                  (before ++ (name, file) :: after))
               (Aggregator.process_year inputs (before ++ after)));
      [reflexivity|].
    intros ds_variable y Hy. apply in_range in Hy.
    apply process_year_skip. apply Hname. lia. }
  split; [exact Hgen|].
  intros year month Hout. apply Hgen. intros y Hy.
  rewrite fnmatch_file_name. apply Z.eqb_neq. lia.
Qed.

Lemma stray_entry_ignored_witness :
  Aggregator.aggregate_era5_land_timeseries Samples.writes_ok "in" "out"
    MoreSamples.with_strays 2009 2012 true
  = Aggregator.aggregate_era5_land_timeseries Samples.writes_ok "in" "out"
      [("2011_months01_europe.grib", Aggregator.Grib Samples.grib_2011);
       ("2010_months01_europe.grib", Aggregator.Grib Samples.grib_2010);
       ("README.md", Aggregator.Unreadable)]
      2009 2012 true.
Proof.
  apply (proj2 (stray_entry_ignored Samples.writes_ok "in" "out"
                  [("2011_months01_europe.grib",
                    Aggregator.Grib Samples.grib_2011)]
                  [("2010_months01_europe.grib",
                    Aggregator.Grib Samples.grib_2010);
                   ("README.md", Aggregator.Unreadable)]
                  Aggregator.Unreadable 2009 2012 true) 2013 7).
  lia.
Defined.

(** One unreadable file is enough to lose the run.  When the input
    directory is named without glob characters and holds, under a name
    that matches a year of the range, something that cannot be opened,
    the run ends in the error of the open, whatever the other files are;
    [to_netcdf] is not called, not even for the years before. *)
Theorem unreadable_file_fails_run to_netcdf inputs outputs dir
    start_year end_year save name year :
  Aggregator.has_magic inputs = false ->
  NoDup (map fst dir) ->
  In (name, Aggregator.Unreadable) dir ->
  Aggregator.fnmatch name (Aggregator.grib_pattern year) = true ->
  start_year <= year <= end_year ->
  let run := Aggregator.aggregate_era5_land_timeseries to_netcdf inputs
               outputs dir start_year end_year save in
  outcome run = Raise DatasetError
  /\ Aggregator.written (trace run) = [].
Proof.
  intros Hplain Hnd Hin Hm Hy run.
  pose proof (input_dir_plain inputs Hplain) as Hd.
  assert (Hloop : outcome (Aggregator.combine_years inputs dir
                             start_year end_year) = Raise DatasetError).
  { unfold Aggregator.combine_years.
    destruct (outcome (for_fold _ _ _)) as [ds|e] eqn:E.
    - exfalso.
      destruct (for_fold_return_all inputs dir _ _ _ E year) as [rs Hrs];
        [apply in_range; lia|].
      unfold AggregatorSpec.year_slice in Hrs.
      pose proof (matched_in_year_files inputs dir _ name _ year Hd Hin Hm)
        as Hpath.
      destruct (AggregatorSpec.year_files inputs dir year) as [|f fs] eqn:F;
        [destruct Hpath|].
      destruct (Aggregator.open_mfdataset inputs dir (f :: fs))
        as [merged|e] eqn:Hopen; [|discriminate].
      rewrite <- F in Hopen.
      destruct (opened_entry inputs dir _ name _ year merged Hd Hnd Hin Hm
                  Hopen) as (g & Hg & _).
      discriminate.
    - f_equal. eapply for_fold_raises. exact E. }
  unfold run. split.
  - apply aggregate_raised. exact Hloop.
  - rewrite aggregate_trace, Hloop, app_nil_r.
    apply for_fold_writes_nothing.
Qed.

Lemma unreadable_file_fails_run_witness :
  outcome (Aggregator.aggregate_era5_land_timeseries Samples.writes_ok
             "in" "out"
             (("2011_months02_europe.grib", Aggregator.Unreadable)
              :: Samples.two_years) 2010 2011 true)
  = Raise DatasetError
  /\ Aggregator.written
       (trace (Aggregator.aggregate_era5_land_timeseries Samples.writes_ok
                 "in" "out"
                 (("2011_months02_europe.grib", Aggregator.Unreadable)
                  :: Samples.two_years) 2010 2011 true)) = [].
Proof.
  apply (unreadable_file_fails_run Samples.writes_ok "in" "out"
           (("2011_months02_europe.grib", Aggregator.Unreadable)
            :: Samples.two_years) 2010 2011 true
           "2011_months02_europe.grib" 2011).
  - reflexivity.
  - repeat constructor; simpl; intuition discriminate.
  - left. reflexivity.
  - reflexivity.
  - lia.
Defined.

(** ** The order in which a year's files are opened *)

Section MonthOrder.

Import Aggregator AggregatorSpec.

Lemma string_compare_prefix p a b :
  String.compare (p ++ a) (p ++ b) = String.compare a b.
Proof.
  induction p as [|c p IH]; [reflexivity|].
  cbn [append String.compare]. unfold Ascii.compare.
  rewrite N.compare_refl. exact IH.
Qed.

Lemma string_leb_prefix p a b :
  String.leb (p ++ a) (p ++ b) = String.leb a b.
Proof. unfold String.leb. rewrite string_compare_prefix. reflexivity. Qed.

(** Thanks to the zero padding, the names of a year's files are ordered as
    their months are. *)
Lemma file_name_order y m m' :
  1 <= m <= 12 -> 1 <= m' <= 12 ->
  String.leb (file_name y m) (file_name y m') = (m <=? m').
Proof.
  intros Hm Hm'. unfold file_name. rewrite string_leb_prefix.
  rewrite (string_leb_prefix "_months").
  apply month_cases in Hm. apply month_cases in Hm'.
  repeat (destruct Hm as [Hm|Hm]; [subst m|]); try subst m;
    repeat (destruct Hm' as [Hm'|Hm']; [subst m'|]); try subst m';
    vm_compute; reflexivity.
Qed.

(** The paths of a year's files in a directory are ordered as the months
    are, whatever the path of the directory. *)
Lemma paths_sorted d y months :
  Forall (fun m => 1 <= m <= 12) months ->
  StronglySorted Z.lt months ->
  StronglySorted (fun a b => String.leb a b = true)
    (map (fun m => path_join d (file_name y m)) months).
Proof.
  intros Hv Hs. induction Hs as [|m months Hs IH Hm]; cbn [map];
    constructor.
  - apply IH. inversion Hv; assumption.
  - inversion Hv as [|? ? Hvm Hvs]; subst.
    apply Forall_map, Forall_forall. intros m' Hin.
    rewrite !path_join_prefix, string_leb_prefix, file_name_order;
      [|assumption|exact (proj1 (Forall_forall _ _) Hvs m' Hin)].
    apply Z.leb_le.
    pose proof (proj1 (Forall_forall _ _) Hm m' Hin). lia.
Qed.

End MonthOrder.

(** The files of a year are opened in the order of their months.  Let the
    directory be named without glob characters.  When the names of the
    directory that match a year's pattern are those the Fetcher gives to
    some months of that year, the sorted list of paths the Aggregator
    opens is the list of those months' paths in ascending order of month,
    however the directory is listed; when the name of the directory does
    not end in a slash, they are the very paths the Fetcher wrote to. *)
Theorem year_files_in_month_order directory dir year months :
  Aggregator.has_magic directory = false ->
  Forall (fun m => 1 <= m <= 12) months ->
  StronglySorted Z.lt months ->
  Permutation
    (filter (fun name =>
               Aggregator.fnmatch name (Aggregator.grib_pattern year))
       (map fst dir))
    (map (file_name year) months) ->
  sorted (Aggregator.glob directory dir (Aggregator.grib_pattern year))
  = map (fun m => Aggregator.path_join (Aggregator.head_of directory)
                    (file_name year m)) months
  /\ (Aggregator.ends_with_slash directory = false ->
      sorted (Aggregator.glob directory dir (Aggregator.grib_pattern year))
      = map (Fetcher.target_of directory year) months).
Proof.
  intros Hplain Hv Hs Hp.
  assert (Hsorted :
            sorted (Aggregator.glob directory dir
                      (Aggregator.grib_pattern year))
            = map (fun m => Aggregator.path_join
                              (Aggregator.head_of directory)
                              (file_name year m)) months).
  { rewrite glob_grib, (input_dir_plain directory Hplain).
    unfold sorted.
    apply (sorted_unique String.leb String.leb_antisym).
    - apply sort_stable_sorted;
        [apply String.leb_total|intros a b c; apply string_leb_trans].
    - apply paths_sorted; assumption.
    - eapply Permutation_trans;
        [apply Permutation_sym, sort_stable_perm|].
      eapply Permutation_trans; [apply Permutation_map; exact Hp|].
      rewrite map_map. apply Permutation_refl. }
  split; [exact Hsorted|].
  intros Hslash. rewrite Hsorted. apply map_ext. intros m.
  rewrite (path_join_head_of directory _ Hslash). reflexivity.
Qed.

Lemma year_files_in_month_order_witness :
  sorted (Aggregator.glob "in" MoreSamples.three_months
            (Aggregator.grib_pattern 2010))
  = ["in/2010_months02_europe.grib"; "in/2010_months10_europe.grib";
     "in/2010_months11_europe.grib"].
Proof.
  refine (proj1 (year_files_in_month_order "in" MoreSamples.three_months
                   2010 [2; 10; 11] eq_refl _ _ _)).
  - repeat constructor; lia.
  - repeat constructor; lia.
  - apply (Permutation_cons_app
             ["2010_months02_europe.grib"; "2010_months10_europe.grib"] []).
    apply Permutation_refl.
Defined.

(** ** The files a run opens *)

Section OpenedFiles.

Import Aggregator AggregatorSpec AggregatorReads.

Variables (inputs : string) (dir : Directory).

Lemma opened_app tr tr' : opened (tr ++ tr') = opened tr ++ opened tr'.
Proof. unfold opened. apply flat_map_app. Qed.

(** The body of the loop hands to [open_mfdataset] the sorted paths that
    [glob] has found for the year, whether the open succeeds or not. *)
Lemma process_year_opened ds_variable year :
  opened (trace (process_year inputs dir ds_variable year))
  = year_files inputs dir year.
Proof.
  rewrite process_year_cases.
  destruct (year_files inputs dir year) as [|f fs]; [reflexivity|].
  destruct (open_mfdataset inputs dir (f :: fs));
    cbn [trace fst opened flat_map app]; rewrite ?app_nil_r; reflexivity.
Qed.

Lemma for_fold_opened_in years path : forall ds_variable,
  In path (opened (trace (for_fold years (process_year inputs dir)
                            ds_variable))) ->
  exists y, In y years /\ In path (year_files inputs dir y).
Proof.
  induction years as [|y years IH]; intros acc; [intros []|].
  cbn [for_fold]. rewrite trace_bind, opened_app, process_year_opened.
  rewrite in_app_iff. intros [H|H].
  - exists y. split; [left; reflexivity|exact H].
  - destruct (outcome (process_year inputs dir acc y)) as [acc'|e];
      [|destruct H].
    destruct (IH acc' H) as (y' & Hy' & Hp). exists y'. split; [right|]; auto.
Qed.

Lemma for_fold_opened years : forall ds_variable ds,
  outcome (for_fold years (process_year inputs dir) ds_variable) = Return ds ->
  opened (trace (for_fold years (process_year inputs dir) ds_variable))
  = flat_map (year_files inputs dir) years.
Proof.
  induction years as [|y years IH]; intros acc ds; [reflexivity|].
  cbn [for_fold flat_map].
  rewrite outcome_bind, trace_bind, opened_app, process_year_opened.
  destruct (outcome (process_year inputs dir acc y)) as [acc'|e];
    [|discriminate].
  intros H. rewrite (IH acc' ds H). reflexivity.
Qed.

Lemma aggregate_opened to_netcdf outputs start_year end_year save :
  opened (trace (aggregate_era5_land_timeseries to_netcdf inputs outputs
                   dir start_year end_year save))
  = opened (trace (combine_years inputs dir start_year end_year)).
Proof.
  rewrite aggregate_trace, opened_app.
  destruct (outcome (combine_years _ _ _ _)); [destruct save|];
    cbn [opened flat_map app]; apply app_nil_r.
Qed.

(** In a directory named without glob characters, the file of (year,
    month) is among the paths of a year exactly when the year is its
    own. *)
Lemma file_in_year_files year month Y :
  has_magic inputs = false ->
  In (file_name year month) (map fst dir) ->
  In (found_path inputs (file_name year month)) (year_files inputs dir Y)
  <-> Y = year.
Proof.
  intros Hplain Hin. rewrite in_year_files.
  rewrite (input_dir_plain inputs Hplain). unfold found_path. split.
  - intros (d & name & [= <-] & Hj & _ & Hm).
    apply path_join_inj in Hj. subst name.
    rewrite fnmatch_file_name in Hm. apply Z.eqb_eq in Hm. auto.
  - intros ->. exists (head_of inputs), (file_name year month).
    repeat split; try assumption.
    rewrite fnmatch_file_name. apply Z.eqb_refl.
Qed.

End OpenedFiles.

(** C8: the file the Fetcher writes for (year, month) carries a name that
    matches the pattern the Aggregator globs for a year exactly when that
    year is the file's own.  So, when the file lies in an input directory
    that is named without glob characters, the body of the loop hands it
    to [open_mfdataset] when it processes the file's year and in no other
    year; a run opens it only when that year lies in the range, and every
    run that returns has then opened it.  When the name of the directory
    does not end in a slash, the path opened is the very path the Fetcher
    wrote to. *)
Theorem fetched_file_found_for_its_year inputs dir year month :
  Aggregator.has_magic inputs = false ->
  In (file_name year month) (map fst dir) ->
  let path := AggregatorReads.found_path inputs (file_name year month) in
  (forall Y,
     Aggregator.fnmatch (file_name year month) (Aggregator.grib_pattern Y)
     = (year =? Y))
  /\ (Aggregator.ends_with_slash inputs = false ->
      path = Fetcher.target_of inputs year month)
  /\ (forall ds_variable Y,
        In path (Aggregator.opened
                   (trace (Aggregator.process_year inputs dir
                             ds_variable Y)))
        <-> Y = year)
  /\ (forall to_netcdf outputs start_year end_year save,
        let run := Aggregator.aggregate_era5_land_timeseries to_netcdf
                     inputs outputs dir start_year end_year save in
        (In path (Aggregator.opened (trace run)) ->
         start_year <= year <= end_year)
        /\ (forall combined,
              outcome run = Return combined ->
              start_year <= year <= end_year ->
              In path (Aggregator.opened (trace run)))).
Proof.
  intros Hplain Hin path.
  split; [intros Y; apply fnmatch_file_name|].
  split; [intros Hslash; apply path_join_head_of; exact Hslash|].
  split.
  - intros ds_variable Y. rewrite process_year_opened.
    apply file_in_year_files; assumption.
  - intros to_netcdf outputs start_year end_year save run. unfold run.
    rewrite aggregate_opened. unfold Aggregator.combine_years. split.
    + intros H. apply for_fold_opened_in in H.
      destruct H as (y & Hy & Hp). apply in_range in Hy.
      apply file_in_year_files in Hp; try assumption. lia.
    + intros combined Hout Hy. apply aggregate_returned in Hout.
      unfold Aggregator.combine_years in Hout.
      rewrite (for_fold_opened inputs dir _ _ combined Hout).
      apply in_flat_map. exists year. split; [apply in_range; lia|].
      apply file_in_year_files; auto.
Qed.

Lemma fetched_file_found_for_its_year_witness :
  AggregatorReads.found_path "in" (file_name 2010 1)
  = Fetcher.target_of "in" 2010 1
  /\ Aggregator.opened
       (trace (Aggregator.process_year "in" Samples.two_years
                 Aggregator.empty_dataset 2010))
     = ["in/2010_months01_europe.grib"]
  /\ In (AggregatorReads.found_path "in" (file_name 2010 1))
        (Aggregator.opened
           (trace (Aggregator.aggregate_era5_land_timeseries
                     Samples.writes_ok "in" "out" Samples.two_years
                     2009 2012 true)))
  /\ ~ In (AggregatorReads.found_path "in" (file_name 2010 1))
         (Aggregator.opened
            (trace (Aggregator.process_year "in" Samples.two_years
                      Aggregator.empty_dataset 2011))).
Proof.
  destruct (fetched_file_found_for_its_year "in" Samples.two_years 2010 1
              eq_refl) as (_ & Hpath & Hyear & Hrun).
  - right. left. reflexivity.
  - split; [apply Hpath; reflexivity|].
    split; [reflexivity|]. split.
    + destruct (Hrun Samples.writes_ok "out" 2009 2012 true) as [_ Hopened].
      eapply Hopened; [reflexivity|lia].
    + intros H. apply Hyear in H. discriminate.
Defined.



(** ** Two years of input *)

Section YearData.

Import Aggregator AggregatorSpec AggregatorReads.

Lemma flat_map_perm {A B} (f : A -> list B) l l' :
  Permutation l l' -> Permutation (flat_map f l) (flat_map f l').
Proof.
  induction 1; cbn [flat_map].
  - constructor.
  - apply Permutation_app_head. assumption.
  - rewrite !app_assoc. apply Permutation_app_tail, Permutation_app_comm.
  - eapply Permutation_trans; eassumption.
Qed.

Lemma filter_all {A} (f : A -> bool) l :
  Forall (fun x => f x = true) l -> filter f l = l.
Proof.
  induction 1 as [|x l Hx _ IH]; cbn [filter]; [reflexivity|].
  rewrite Hx, IH. reflexivity.
Qed.

Lemma concat_cubes gs :
  List.concat (List.concat (map grib_cube gs)) = flat_map cube_rows gs.
Proof.
  induction gs as [|g gs IH]; cbn [map List.concat flat_map]; [reflexivity|].
  rewrite concat_app, IH. reflexivity.
Qed.

(** Whether a row holds data depends on which variables there are, not on
    the order they are listed in. *)
Lemma has_data_ext vars vars' r :
  (forall v, In v vars <-> In v vars') -> has_data vars r = has_data vars' r.
Proof.
  intros H. apply Bool.eq_true_iff_eq. rewrite !has_data_iff.
  split; intros (v & c & Hv & Hc); exists v, c;
    (split; [apply H; exact Hv|exact Hc]).
Qed.

Variables (inputs : string) (dir : Directory) (d : string).

Hypothesis Hd : input_dir inputs = Some d.
Hypothesis Hnd : NoDup (map fst dir).

(** The files read in another order are the same files. *)
Lemma read_files_permuted ps ps' :
  Permutation ps ps' ->
  forall gs, read_files inputs dir ps = Return gs ->
  exists gs', read_files inputs dir ps' = Return gs' /\ Permutation gs gs'.
Proof.
  induction 1 as [|p ps ps' Hp IH|p q ps|ps ps' ps'' H1 IH1 H2 IH2];
    intros gs; cbn [read_files].
  - intros [= <-]. exists []. auto.
  - destruct (read_file inputs dir p) as [g|e]; [|discriminate].
    destruct (read_files inputs dir ps) as [gs0|e]; [|discriminate].
    intros [= <-]. destruct (IH gs0 eq_refl) as (gs' & -> & Hperm).
    exists (g :: gs'). split; [reflexivity|apply perm_skip; exact Hperm].
  - destruct (read_file inputs dir p) as [gp|e];
      destruct (read_file inputs dir q) as [gq|e'];
      try discriminate;
      destruct (read_files inputs dir ps) as [gs0|e'']; try discriminate.
    intros [= <-]. exists (gp :: gq :: gs0).
    split; [reflexivity|apply perm_swap].
  - intros Hgs. destruct (IH1 gs Hgs) as (gs' & Hgs' & Hp1).
    destruct (IH2 gs' Hgs') as (gs'' & Hgs'' & Hp2).
    exists gs''. split; [exact Hgs''|].
    eapply Permutation_trans; eassumption.
Qed.

(** Reading the matching entries in the order of the listing gives the
    GRIB files of the year. *)
Lemma read_listing year l :
  incl l dir ->
  forall gs,
    read_files inputs dir
      (map (path_join d)
         (filter (fun name => fnmatch name (grib_pattern year))
            (map fst l))) = Return gs ->
    gs = year_gribs l year.
Proof.
  induction l as [|[name file] l IH]; intros Hincl gs; cbn [map fst filter].
  - intros [= <-]. reflexivity.
  - assert (Hin : In (name, file) dir) by (apply Hincl; left; reflexivity).
    assert (Hincl' : incl l dir)
      by (intros x Hx; apply Hincl; right; exact Hx).
    unfold year_gribs. cbn [flat_map fst snd]. fold (year_gribs l year).
    destruct (fnmatch name (grib_pattern year)) eqn:M.
    + cbn [map read_files].
      rewrite (read_file_of_entry inputs dir d name file Hd Hnd Hin).
      destruct file as [g|]; [|discriminate].
      destruct (read_files inputs dir _) as [gs'|e] eqn:R; [|discriminate].
      intros [= <-]. rewrite (IH Hincl' gs' eq_refl). reflexivity.
    + intros H. rewrite (IH Hincl' gs H). destruct file; reflexivity.
Qed.

(** What [open_mfdataset] gives for a year is made of the GRIB files of
    the year in the directory, each taken once. *)
Lemma merged_gribs year merged :
  open_mfdataset inputs dir (year_files inputs dir year) = Return merged ->
  exists gs,
    Permutation gs (year_gribs dir year)
    /\ grib_vars merged = fold_left union_vars (map grib_vars gs) []
    /\ grib_cube merged = List.concat (map grib_cube gs).
Proof.
  intros Hopen. apply open_mfdataset_files in Hopen.
  destruct Hopen as (gs & Hread & Hvars & Hcube).
  exists gs. split; [|auto].
  unfold year_files, sorted in Hread. rewrite glob_grib, Hd in Hread.
  destruct (read_files_permuted _ _
              (Permutation_sym (sort_stable_perm String.leb _)) gs Hread)
    as (gs' & Hread' & Hperm).
  apply (read_listing year dir (incl_refl dir)) in Hread'.
  subst gs'. exact Hperm.
Qed.

Lemma no_files_no_gribs year :
  year_files inputs dir year = [] -> year_gribs dir year = [].
Proof.
  intros H. unfold year_gribs. apply flat_map_nil.
  intros [name file] Hin. cbn [fst snd].
  destruct file as [g|]; [|reflexivity].
  destruct (fnmatch name (grib_pattern year)) eqn:M; [|reflexivity].
  exfalso.
  pose proof (matched_in_year_files inputs dir d name _ year Hd Hin M) as Hp.
  rewrite H in Hp. destruct Hp.
Qed.

(** What a year contributes: its rows stand in ascending order, lie in
    the year, and their labels are the timestamps of the year's files
    that lie in the year, each as often as the files have it. *)
Lemma year_slice_timestamps year rs :
  year_slice inputs dir year = Return rs ->
  Permutation (timestamps rs) (own_timestamps dir year)
  /\ StronglySorted dt_le (timestamps rs)
  /\ Forall (fun r => dt_year (valid_time r) = year) rs.
Proof.
  unfold year_slice.
  destruct (year_files inputs dir year) as [|f fs] eqn:F.
  - intros [= <-].
    unfold own_timestamps, year_timestamps, year_cells.
    rewrite (no_files_no_gribs year F).
    repeat split; constructor.
  - destruct (open_mfdataset inputs dir (f :: fs)) as [merged|e] eqn:Hopen;
      [|discriminate].
    intros [= <-]. rewrite <- F in Hopen.
    split;
      [|split; [apply (clean_year_sorted (stack_valid_time merged) year)
               |apply (clean_year_in_year (stack_valid_time merged) year)]].
    destruct (merged_gribs year merged Hopen) as (gs & Hperm & Hvars & Hcube).
    unfold own_timestamps, year_timestamps, timestamps.
    eapply Permutation_trans;
      [apply Permutation_map,
         (clean_year_perm (stack_valid_time merged) year)|].
    unfold in_year_data. cbn [rows data_vars stack_valid_time].
    rewrite Hcube, concat_cubes, filter_map_swap, filter_twice.
    apply Permutation_map.
    eapply Permutation_trans;
      [apply filter_perm, flat_map_perm; exact Hperm|].
    unfold year_cells.
    erewrite filter_ext; [apply Permutation_refl|].
    intros r. cbv beta. rewrite andb_comm. f_equal.
    apply has_data_ext. intros v. unfold year_variables.
    rewrite Hvars, in_fold_union_vars, in_flat_map. split.
    + intros [[]|(l & Hl & Hv)]. apply in_map_iff in Hl.
      destruct Hl as (g & <- & Hg). exists g. split; [|exact Hv].
      eapply Permutation_in; eassumption.
    + intros (g & Hg & Hv). right. exists (grib_vars g).
      split; [|exact Hv]. apply in_map.
      eapply Permutation_in; [apply Permutation_sym|]; eassumption.
Qed.

End YearData.

(** C2: let the input directory be named without glob characters and hold
    files for two years Y1 < Y2 of the range and for no other year of it,
    and let the timestamps of those files, the valid times under which
    they hold data, not overlap.  Then the dataset a run returns carries
    the timestamps of Y1's files that lie in Y1, followed by those of Y2's
    files that lie in Y2, each once, in strictly ascending order; a label
    is there exactly when it is a timestamp of a file of the year it lies
    in.  When each year's files hold data of their own year only, the
    labels are the union of the timestamps of both years' files. *)
Theorem two_years_union to_netcdf inputs outputs dir start_year end_year
    save Y1 Y2 combined :
  Aggregator.has_magic inputs = false ->
  NoDup (map fst dir) ->
  start_year <= Y1 -> Y1 < Y2 -> Y2 <= end_year ->
  (forall y, start_year <= y <= end_year -> y <> Y1 -> y <> Y2 ->
     Aggregator.glob inputs dir (Aggregator.grib_pattern y) = []) ->
  NoDup (AggregatorReads.year_timestamps dir Y1
         ++ AggregatorReads.year_timestamps dir Y2) ->
  outcome (Aggregator.aggregate_era5_land_timeseries to_netcdf inputs
             outputs dir start_year end_year save) = Return combined ->
  let labels := Aggregator.timestamps (Aggregator.rows combined) in
  (exists labels1 labels2,
     labels = labels1 ++ labels2
     /\ Permutation labels1 (AggregatorReads.own_timestamps dir Y1)
     /\ Permutation labels2 (AggregatorReads.own_timestamps dir Y2))
  /\ (forall t, In t labels <->
        (In t (AggregatorReads.year_timestamps dir Y1)
         /\ Aggregator.dt_year t = Y1)
        \/ (In t (AggregatorReads.year_timestamps dir Y2)
            /\ Aggregator.dt_year t = Y2))
  /\ StronglySorted dt_lt labels
  /\ (Forall (fun t => Aggregator.dt_year t = Y1)
        (AggregatorReads.year_timestamps dir Y1) ->
      Forall (fun t => Aggregator.dt_year t = Y2)
        (AggregatorReads.year_timestamps dir Y2) ->
      Permutation labels
        (AggregatorReads.year_timestamps dir Y1
         ++ AggregatorReads.year_timestamps dir Y2)).
Proof.
  intros Hplain Hnd H1 H12 H2 Hothers Hnodup Hout labels.
  pose proof (input_dir_plain inputs Hplain) as Hd.
  apply aggregate_returned in Hout.
  unfold Aggregator.combine_years in Hout.
  pose proof (for_fold_return_all inputs dir _ _ _ Hout) as Hall.
  destruct (Hall Y1) as [rows1 Hs1]; [apply in_range; lia|].
  destruct (Hall Y2) as [rows2 Hs2]; [apply in_range; lia|].
  assert (Hrows : Aggregator.rows combined = rows1 ++ rows2).
  { rewrite (for_fold_returned_rows inputs dir _ _ Hout).
    assert (Hnone : forall lo hi, start_year <= lo -> hi <= end_year + 1 ->
              (forall y, lo <= y < hi -> y <> Y1 /\ y <> Y2) ->
              flat_map (AggregatorSpec.slice_rows inputs dir) (range lo hi)
              = []).
    { intros lo hi Hlo Hhi Hne. apply flat_map_nil. intros y Hy.
      apply in_range in Hy. unfold AggregatorSpec.slice_rows.
      rewrite slice_of_nothing; [reflexivity|].
      apply Hothers; try lia; apply Hne; lia. }
    rewrite (range_app start_year Y1 (end_year + 1)) by lia.
    rewrite (range_cons Y1) by lia.
    rewrite (range_app (Y1 + 1) Y2 (end_year + 1)) by lia.
    rewrite (range_cons Y2) by lia.
    repeat first [rewrite flat_map_app | progress cbn [flat_map]].
    rewrite !Hnone by lia.
    unfold AggregatorSpec.slice_rows. rewrite Hs1, Hs2.
    cbn [app]. rewrite app_nil_r. reflexivity. }
  destruct (year_slice_timestamps inputs dir _ Hd Hnd Y1 rows1 Hs1)
    as (Hp1 & Hsorted1 & Hin1).
  destruct (year_slice_timestamps inputs dir _ Hd Hnd Y2 rows2 Hs2)
    as (Hp2 & Hsorted2 & Hin2).
  assert (Hlabels : labels = Aggregator.timestamps rows1
                             ++ Aggregator.timestamps rows2).
  { unfold labels, Aggregator.timestamps. rewrite Hrows. apply map_app. }
  assert (Hown : forall Y t,
            In t (AggregatorReads.own_timestamps dir Y) <->
            In t (AggregatorReads.year_timestamps dir Y)
            /\ Aggregator.dt_year t = Y).
  { intros Y t. unfold AggregatorReads.own_timestamps.
    rewrite filter_In, Z.eqb_eq. reflexivity. }
  assert (Hunion : forall t, In t labels <->
            (In t (AggregatorReads.year_timestamps dir Y1)
             /\ Aggregator.dt_year t = Y1)
            \/ (In t (AggregatorReads.year_timestamps dir Y2)
                /\ Aggregator.dt_year t = Y2)).
  { intros t. rewrite Hlabels, in_app_iff, <- !Hown. split.
    - intros [H|H]; [left|right];
        (eapply Permutation_in; [|exact H]); assumption.
    - intros [H|H]; [left|right];
        (eapply Permutation_in; [apply Permutation_sym|exact H]);
        assumption. }
  split; [exists (Aggregator.timestamps rows1), (Aggregator.timestamps rows2);
          auto|].
  split; [exact Hunion|]. split.
  - rewrite Hlabels. apply StronglySorted_app.
    + apply sorted_strict_iff_NoDup; [exact Hsorted1|].
      apply (Permutation_NoDup (Permutation_sym Hp1)).
      apply NoDup_filter. exact (NoDup_app_remove_r _ _ Hnodup).
    + apply sorted_strict_iff_NoDup; [exact Hsorted2|].
      apply (Permutation_NoDup (Permutation_sym Hp2)).
      apply NoDup_filter. exact (NoDup_app_remove_l _ _ Hnodup).
    + intros a b Ha Hb.
      apply in_map_iff in Ha, Hb.
      destruct Ha as [ra [<- Ha]], Hb as [rb [<- Hb]].
      pose proof (proj1 (Forall_forall _ _) Hin1 ra Ha) as Hya.
      pose proof (proj1 (Forall_forall _ _) Hin2 rb Hb) as Hyb.
      cbv beta in Hya, Hyb. apply dt_year_lt. lia.
  - intros Hy1 Hy2. rewrite Hlabels.
    apply Permutation_app.
    + unfold AggregatorReads.own_timestamps in Hp1.
      rewrite filter_all in Hp1; [exact Hp1|].
      eapply Forall_impl; [|exact Hy1]. intros t. apply Z.eqb_eq.
    + unfold AggregatorReads.own_timestamps in Hp2.
      rewrite filter_all in Hp2; [exact Hp2|].
      eapply Forall_impl; [|exact Hy2]. intros t. apply Z.eqb_eq.
Qed.

Lemma two_years_union_witness :
  exists combined,
    outcome (Aggregator.aggregate_era5_land_timeseries Samples.writes_ok
               "in" "out" Samples.two_years 2009 2012 true)
    = Return combined
    /\ Aggregator.timestamps (Aggregator.rows combined)
       = [Samples.at_hour 2010 1 1 0; Samples.at_hour 2010 1 1 12;
          Samples.at_hour 2011 1 1 0; Samples.at_hour 2011 1 1 6;
          Samples.at_hour 2011 1 1 12; Samples.at_hour 2011 1 1 18]
    /\ StronglySorted dt_lt
         (Aggregator.timestamps (Aggregator.rows combined))
    /\ Permutation (Aggregator.timestamps (Aggregator.rows combined))
         (AggregatorReads.year_timestamps Samples.two_years 2010
          ++ AggregatorReads.year_timestamps Samples.two_years 2011).
Proof.
  pose (combined :=
          match outcome (Aggregator.aggregate_era5_land_timeseries
                           Samples.writes_ok "in" "out" Samples.two_years
                           2009 2012 true) with
          | Return ds => ds
          | Raise _ => Aggregator.empty_dataset
          end).
  destruct (two_years_union Samples.writes_ok "in" "out" Samples.two_years
              2009 2012 true 2010 2011 combined eq_refl)
    as (_ & _ & Hsorted & Hunion).
  - repeat constructor; simpl; intuition discriminate.
  - lia.
  - lia.
  - lia.
  - intros y Hy H1 H2. rewrite glob_grib.
    assert (y = 2009 \/ y = 2012) as [->| ->] by lia; reflexivity.
  - vm_compute. repeat constructor; simpl; intuition discriminate.
  - vm_compute. reflexivity.
  - exists combined. split; [vm_compute; reflexivity|].
    split; [vm_compute; reflexivity|]. split; [exact Hsorted|].
    apply Hunion; vm_compute; repeat constructor.
Defined.

(** ** The shape of a request *)

Section RequestShape.

Import Fetcher.

Lemma format_02d_width n :
  0 <= n <= 99 -> String.length (format_02d n) = 2%nat.
Proof.
  intros H.
  assert (Hall : forallb (fun d => Nat.eqb (String.length (format_02d d)) 2)
                   (range 0 100) = true) by (vm_compute; reflexivity).
  rewrite forallb_forall in Hall.
  apply Nat.eqb_eq, Hall, in_range. lia.
Qed.

Lemma hours_shape :
  List.length hours = 24%nat
  /\ Forall (fun s => String.length s = 5%nat) hours /\ NoDup hours.
Proof.
  split; [reflexivity|]. split.
  - vm_compute. repeat constructor.
  - unfold hours. apply Finite.Injective_map_NoDup; [|apply range_NoDup].
    intros a b H.
    apply (split_at_separator numeric ":") in H;
      try apply format_02d_numeric; try reflexivity.
    apply format_02d_inj. tauto.
Qed.

Lemma fetch_month_requests cds target_path variables area ym :
  requests (trace (fetch_month cds target_path variables area ym)) = []
  \/ (1 <= snd ym <= 12
      /\ requests (trace (fetch_month cds target_path variables area ym))
         = [expected_request target_path variables area ym]).
Proof.
  destruct ym as [y m]. cbn [snd].
  assert (Hv : 1 <= m <= 12
               \/ monthrange_ndays y m = Raise IllegalMonthError).
  { unfold monthrange_ndays.
    destruct ((1 <=? m) && (m <=? 12)) eqn:Hm; [left|right; reflexivity].
    apply andb_true_iff in Hm. rewrite !Z.leb_le in Hm. exact Hm. }
  destruct Hv as [Hm|E].
  - right. split; [exact Hm|]. unfold fetch_month.
    rewrite monthrange_ndays_length by exact Hm.
    unfold expected_request. cbn.
    destruct (retrieve cds _ _ _); reflexivity.
  - left. unfold fetch_month. rewrite E. reflexivity.
Qed.

Lemma for_each_requests cds target_path variables area months rt :
  In rt (requests (trace (for_each months
                            (fetch_month cds target_path variables area)))) ->
  exists ym, In ym months /\ 1 <= snd ym <= 12
             /\ rt = expected_request target_path variables area ym.
Proof.
  induction months as [|ym months IH]; cbn [for_each]; [intros []|].
  rewrite trace_bind, requests_app, in_app_iff. intros [H|H].
  - destruct (fetch_month_requests cds target_path variables area ym)
      as [E|[Hm E]]; rewrite E in H; [destruct H|].
    destruct H as [<-|[]]. exists ym. split; [left|]; auto.
  - destruct (outcome _); [|destruct H].
    destruct (IH H) as (ym' & Hin & Hm & Hrt).
    exists ym'. split; [right|]; auto.
Qed.

Lemma api_requests cds target_path sy sm ey em variables area rt :
  In rt (requests (trace (api_era5_land cds target_path sy sm ey em
                            variables area))) ->
  exists ym, 1 <= snd ym <= 12
             /\ rt = expected_request target_path variables area ym.
Proof.
  unfold api_era5_land.
  destruct (datetime sy sm 1) as [s|e]; [|intros []].
  destruct (datetime ey em 1) as [e|x]; [|intros []].
  unfold bind at 1. unfold lift at 1.
  unfold bind at 1. unfold lift at 1.
  destruct (date_list_from s e) as [months|x]; [|intros []].
  unfold bind at 1. unfold lift at 1.
  destruct (Client cds); [intros []|].
  unfold or_raise, ret, bind at 1.
  destruct (for_each months _) as [tr r] eqn:F. cbn [trace fst app].
  intros H.
  destruct (for_each_requests cds target_path variables area months rt)
    as (ym & _ & Hm & Hrt); [rewrite F; exact H|].
  exists ym. auto.
Qed.

End RequestShape.

(** No run issues a malformed request.  Whatever the arguments and
    whatever the remote side does, every request the Fetcher makes is for
    a month between 1 and 12 of some year, written to that month's
    target; it carries the variables and the area it was given, the year
    in decimal, the month as two characters, the days of the month as two
    characters each, all different and 28 to 31 of them, and the 24 hours
    of the day. *)
Theorem every_request_well_formed cds target_path sy sm ey em variables area :
  Forall (fun rt =>
            exists y m,
              1 <= m <= 12
              /\ snd rt = Fetcher.target_of target_path y m
              /\ Fetcher.variable (fst rt) = variables
              /\ Fetcher.req_area (fst rt) = area
              /\ Fetcher.req_year (fst rt) = str y
              /\ Fetcher.req_month (fst rt) = format_02d m
              /\ String.length (Fetcher.req_month (fst rt)) = 2%nat
              /\ Forall (fun d => String.length d = 2%nat)
                   (Fetcher.req_day (fst rt))
              /\ NoDup (Fetcher.req_day (fst rt))
              /\ (28 <= List.length (Fetcher.req_day (fst rt)) <= 31)%nat
              /\ List.length (Fetcher.req_time (fst rt)) = 24%nat
              /\ NoDup (Fetcher.req_time (fst rt))
              /\ Fetcher.data_format (fst rt) = "grib")
    (Fetcher.requests
       (trace (Fetcher.api_era5_land cds target_path sy sm ey em
                 variables area))).
Proof.
  apply Forall_forall. intros rt Hin.
  apply api_requests in Hin. destruct Hin as ([y m] & Hm & ->).
  cbn [snd] in Hm. exists y, m.
  unfold expected_request, Fetcher.request_of. cbn [fst snd].
  cbn [Fetcher.variable Fetcher.req_area Fetcher.req_year Fetcher.req_month
       Fetcher.req_day Fetcher.req_time Fetcher.data_format].
  pose proof (month_length_bounds (isleap y) m Hm) as Hlen.
  split; [exact Hm|]. do 5 (split; [reflexivity|]).
  split; [apply format_02d_width; lia|].
  split.
  { apply Forall_map, Forall_forall. intros d Hd. apply in_range in Hd.
    apply format_02d_width. lia. }
  split.
  { apply Finite.Injective_map_NoDup; [|apply range_NoDup].
    intros a b. apply format_02d_inj. }
  split; [rewrite length_map, range_length; lia|].
  split; [apply hours_shape|]. split; [apply hours_shape|reflexivity].
Qed.

(** ** The printed notices *)

Section Notices.

Import Fetcher FetcherSpec.

Lemma printed_lines_app tr tr' :
  printed_lines (tr ++ tr') = printed_lines tr ++ printed_lines tr'.
Proof. unfold printed_lines. apply flat_map_app. Qed.

Lemma month_events_requests target_path variables area ym :
  requests (month_events target_path variables area ym)
  = [expected_request target_path variables area ym].
Proof.
  unfold month_events, month_attempt.
  destruct (expected_request target_path variables area ym). reflexivity.
Qed.

Lemma month_attempt_request target_path variables area ym :
  requests [month_attempt target_path variables area ym]
  = [expected_request target_path variables area ym].
Proof.
  unfold month_attempt.
  destruct (expected_request target_path variables area ym). reflexivity.
Qed.

Lemma month_events_printed target_path variables area ym :
  printed_lines (month_events target_path variables area ym)
  = [notice (expected_request target_path variables area ym)].
Proof. reflexivity. Qed.

Lemma for_each_notices cds target_path variables area months :
  Forall (fun ym => 1 <= snd ym <= 12) months ->
  let run := for_each months (fetch_month cds target_path variables area) in
  printed_lines (trace run)
  = map notice (match outcome run with
                | Return _ => requests (trace run)
                | Raise _ => removelast (requests (trace run))
                end)
  /\ (forall e, outcome run = Raise e -> requests (trace run) <> []).
Proof.
  induction 1 as [|ym months Hm _ IH]; cbn zeta in *.
  - split; [reflexivity|discriminate].
  - cbn [for_each]. rewrite trace_bind, outcome_bind.
    destruct (answer cds target_path variables area ym) as [e|] eqn:A.
    + rewrite (fetch_month_failed _ _ _ _ _ e Hm A).
      cbn [trace outcome fst snd]. rewrite app_nil_r, month_attempt_request.
      split; [reflexivity|]. intros _ _. discriminate.
    + rewrite (fetch_month_done _ _ _ _ _ Hm A).
      cbn [trace outcome fst snd].
      fold (trace (for_each months
                     (fetch_month cds target_path variables area))).
      fold (outcome (for_each months
                       (fetch_month cds target_path variables area))).
      rewrite printed_lines_app, requests_app, month_events_printed,
        month_events_requests.
      destruct IH as [IH1 IH2]. rewrite IH1. split.
      * destruct (outcome (for_each months _)) as [u|e]; [reflexivity|].
        destruct (requests (trace (for_each months _))) as [|rt rts];
          [exfalso; exact (IH2 e eq_refl eq_refl)|].
        reflexivity.
      * intros e _. discriminate.
Qed.

Lemma date_list_from_valid sy sm ey em months :
  MINYEAR <= sy <= MAXYEAR -> 1 <= sm <= 12 ->
  MINYEAR <= ey <= MAXYEAR -> 1 <= em <= 12 ->
  date_list_from (mkdate sy sm 1) (mkdate ey em 1) = Return months ->
  months = calendar_months sy sm ey em.
Proof.
  intros Hsy Hsm Hey Hem H.
  destruct (Z.eq_dec (month_index ey em) (month_index MAXYEAR 12)) as [E|E].
  - assert (ey = MAXYEAR /\ em = 12) as [-> ->]
      by (unfold month_index, MINYEAR, MAXYEAR in *; lia).
    rewrite (date_list_from_december_9999 _ sy sm Hsy Hsm eq_refl) in H.
    discriminate.
  - rewrite (date_list_from_months
               (Z.to_nat (month_index ey em + 1 - month_index sy sm))
               sy sm ey em Hsy Hsm Hem) in H;
      [|unfold month_index, MINYEAR, MAXYEAR in *; lia|reflexivity].
    injection H as <-. reflexivity.
Qed.

(** A run either ends before the loop, with an empty trace, or is the
    loop over the calendar months of its range. *)
Lemma api_era5_land_cases cds target_path sy sm ey em variables area :
  (exists e, api_era5_land cds target_path sy sm ey em variables area
             = ([], Raise e))
  \/ api_era5_land cds target_path sy sm ey em variables area
     = for_each (calendar_months sy sm ey em)
         (fetch_month cds target_path variables area).
Proof.
  destruct (datetime sy sm 1) as [s|x] eqn:Hs.
  2:{ left. exists x. unfold api_era5_land. rewrite Hs. reflexivity. }
  destruct (datetime ey em 1) as [e|x] eqn:He.
  2:{ left. exists x. unfold api_era5_land. rewrite Hs, He. reflexivity. }
  destruct (date_list_from s e) as [months|x] eqn:Hl.
  2:{ left. exists x. unfold api_era5_land. rewrite Hs, He.
      unfold bind at 1. unfold lift at 1.
      unfold bind at 1. unfold lift at 1.
      rewrite Hl. reflexivity. }
  destruct (Client cds) as [x|] eqn:Hc.
  { left. exists x. unfold api_era5_land. rewrite Hs, He.
    unfold bind at 1. unfold lift at 1.
    unfold bind at 1. unfold lift at 1.
    rewrite Hl, Hc. reflexivity. }
  right. unfold api_era5_land. rewrite Hs, He.
  unfold bind at 1. unfold lift at 1.
  unfold bind at 1. unfold lift at 1.
  rewrite Hl, Hc.
  apply datetime_inv in Hs, He.
  destruct Hs as (-> & Hsy & Hsm), He as (-> & Hey & Hem).
  apply date_list_from_valid in Hl; try assumption. subst months.
  unfold bind at 1. unfold lift at 1.
  unfold or_raise, ret, bind at 1.
  destruct (for_each _ _) as [tr r]. reflexivity.
Qed.

End Notices.

(** The printed notices tell which files are complete.  In every run,
    the lines "Data downloaded to ..." name, in order, the targets of the
    requests that returned: all the requests of a run that returns, and
    all but the last request of a run that ends in an exception. *)
Theorem notices_name_completed_targets cds target_path sy sm ey em
    variables area :
  let run := Fetcher.api_era5_land cds target_path sy sm ey em
               variables area in
  FetcherSpec.printed_lines (trace run)
  = map (fun rt => ("Data downloaded to " ++ snd rt)%string)
      (match outcome run with
       | Return _ => Fetcher.requests (trace run)
       | Raise _ => removelast (Fetcher.requests (trace run))
       end).
Proof.
  intros run. subst run.
  destruct (api_era5_land_cases cds target_path sy sm ey em variables area)
    as [[e ->]| ->]; [reflexivity|].
  exact (proj1 (for_each_notices cds target_path variables area
                  (calendar_months sy sm ey em)
                  (calendar_months_valid sy sm ey em))).
Qed.
